(** * Emergency-dispatch client: triage tree, dispatch queue, driver flows,
      intake forms, ETA advisory, image compression and hospital selection.

    A shallow embedding of the TypeScript/JavaScript sources and the
    properties checked against it.

    Conventions of the embedding.
    - A JavaScript string is a [string]: the strings of the embedding
      are those whose code units are all below 256, a character [c]
      standing for the code unit [nat_of_ascii c].  White space is what
      JavaScript counts as such in that range (tab to carriage return,
      space, and the no-break space U+00A0).  Only ASCII letters are
      changed by [toLowerCase] here; no other code unit lowers to one
      of y, e, s, so the tests made by the sources agree.
    - Firestore documents are finite maps from field names to values;
      a collection is a finite map from document ids to documents.
    - The IEEE doubles of the compression loop and of the route
      arithmetic are Rocq's primitive floats, printed as JavaScript
      prints them; the great-circle distance is taken on real
      numbers. *)

From Stdlib Require Import ZArith QArith Qround Qabs Reals Lra Lia.
From Stdlib Require Import String Ascii List Bool Sorting.Sorted Permutation.
From Stdlib Require Import Floats DecimalString DecimalZ.
From stdpp Require Import gmap strings.

Set Warnings "-inexact-float".
Local Open Scope string_scope.

(** * The embedding *)

(** ** JavaScript string primitives used by the sources *)
Module JS.

(** One code unit of [String.prototype.toLowerCase]. *)
Definition lowerChar (c : ascii) : ascii :=
  let n := nat_of_ascii c in
  if (65 <=? n)%nat && (n <=? 90)%nat then ascii_of_nat (n + 32) else c.

Fixpoint toLowerCase (s : string) : string :=
  match s with
  | EmptyString => EmptyString
  | String c s' => String (lowerChar c) (toLowerCase s')
  end.

Fixpoint startsWith (p s : string) : bool :=
  match p, s with
  | EmptyString, _ => true
  | String _ _, EmptyString => false
  | String a p', String b s' => Ascii.eqb a b && startsWith p' s'
  end.

(** [s.includes(sub)] *)
Fixpoint includes (s sub : string) : bool :=
  startsWith sub s ||
  match s with
  | EmptyString => false
  | String _ s' => includes s' sub
  end.

(** White space as [trim] and [parseInt] see it: the code units below
    256 that are WhiteSpace or LineTerminator, which are U+0009 to
    U+000D, U+0020 and U+00A0. *)
Definition isSpace (c : ascii) : bool :=
  let n := nat_of_ascii c in
  (n =? 32)%nat || ((9 <=? n)%nat && (n <=? 13)%nat) || (n =? 160)%nat.

Fixpoint trimStart (s : string) : string :=
  match s with
  | EmptyString => EmptyString
  | String c s' => if isSpace c then trimStart s' else s
  end.

Fixpoint allSpace (s : string) : bool :=
  match s with
  | EmptyString => true
  | String c s' => isSpace c && allSpace s'
  end.

Fixpoint trimEnd (s : string) : string :=
  match s with
  | EmptyString => EmptyString
  | String c s' => if allSpace s then EmptyString else String c (trimEnd s')
  end.

Definition trim (s : string) : string := trimEnd (trimStart s).

(** Truthiness of a string: only the empty string is falsy. *)
Definition truthy (s : string) : bool :=
  match s with EmptyString => false | _ => true end.

End JS.

(** ** JavaScript numbers as the sources print them

    A Number is an IEEE double, here a primitive [float].  The
    functions below follow the ECMAScript definitions of
    [Number::toString], [Number.prototype.toFixed] and [Math.round],
    which are stated on the real number a double stands for. *)
Module JSNumber.

(** The decimal numeral of an integer. *)
Definition showZ (z : Z) : string := DecimalString.NilZero.string_of_int (Z.to_int z).

(** The real number a finite double stands for; [None] for NaN and the
    infinities. *)
Definition value (x : float) : option Q :=
  match Prim2SF x with
  | S754_zero _ => Some 0%Q
  | S754_finite negative m e =>
      Some (Qred ((if negative then inject_Z (Zneg m) else inject_Z (Zpos m)) * Qpower 2 e))
  | S754_infinity _ | S754_nan => None
  end.

Definition pow10 (p : Z) : Q := Qpower 10 p.

Definition Qltb (a b : Q) : bool := negb (Qle_bool b a).

(** The [n] with [10^(n-1) <= v < 10^n] for [v > 0], looked for from a
    first guess [n]. *)
Fixpoint settle (fuel : nat) (v : Q) (n : Z) : Z :=
  match fuel with
  | O => n
  | S fuel' =>
      if Qle_bool (pow10 n) v then settle fuel' v (n + 1)
      else if Qle_bool (pow10 (n - 1)) v then n
      else settle fuel' v (n - 1)
  end.

Definition magnitude (v : Q) : Z :=
  let l := (Z.log2 (Qnum v) - Z.log2 (Zpos (Qden v)))%Z in
  settle 8 v (l * 30103 / 100000 + 1)%Z.

(** The reals that round to the positive finite double [x]: those
    between the midpoints to its two neighbours, the midpoints
    themselves included when the significand of [x] is even. *)
Definition roundsTo (x : float) (c : Q) : bool :=
  match Prim2SF x, value x, value (next_down x) with
  | S754_finite _ m _, Some v, Some below =>
      let lo := ((v + below) / 2)%Q in
      let hi := match value (next_up x) with
                | Some above => ((v + above) / 2)%Q
                | None => (v + (v - below) / 2)%Q
                end in
      let even := match m with xO _ => true | _ => false end in
      (Qltb lo c && Qltb c hi) || (even && (Qeq_bool c lo || Qeq_bool c hi))
  | _, _, _ => false
  end.

(** A significand [s] of [k] digits and an exponent [n] such that
    [s * 10^(n-k)] rounds to [x]: of the two such numbers around the
    value [v] of [x] the one nearer to it, the even one on a tie. *)
Definition candidate (x : float) (v : Q) (nv k : Z) : option (Z * Z) :=
  let p := (nv - k)%Z in
  let s1 := Qfloor (v / pow10 p) in
  let s2 := (s1 + 1)%Z in
  let c1 := (inject_Z s1 * pow10 p)%Q in
  let c2 := (inject_Z s2 * pow10 p)%Q in
  let pick (s : Z) := if (s =? 10 ^ k)%Z then ((10 ^ (k - 1))%Z, (nv + 1)%Z) else (s, nv) in
  match roundsTo x c1, roundsTo x c2 with
  | true, true =>
      match ((v - c1) ?= (c2 - v))%Q with
      | Lt => Some (pick s1)
      | Gt => Some (pick s2)
      | Eq => Some (pick (if Z.even s1 then s1 else s2))
      end
  | true, false => Some (pick s1)
  | false, true => Some (pick s2)
  | false, false => None
  end.

(** The [s], [k] and [n] of [Number::toString]: [k] is as small as
    possible; seventeen digits always suffice. *)
Fixpoint shortest (fuel : nat) (x : float) (v : Q) (nv k : Z) : Z * Z * Z :=
  match fuel with
  | O => (Qfloor (v / pow10 (nv - k)), k, nv)
  | S fuel' =>
      match candidate x v nv k with
      | Some (s, n) => (s, k, n)
      | None => shortest fuel' x v nv (k + 1)
      end
  end.

Fixpoint zeros (n : nat) : string :=
  match n with
  | O => EmptyString
  | S n' => String "0" (zeros n')
  end.

(** The digits of [s] laid out for the exponent [n]: plain up to
    [10^21], with leading zeros down to [10^-7], and in exponent
    notation beyond. *)
Definition layout (s k n : Z) : string :=
  let d := showZ s in
  if ((k <=? n) && (n <=? 21))%Z then d ++ zeros (Z.to_nat (n - k))
  else if ((0 <? n) && (n <=? 21))%Z then
    substring 0 (Z.to_nat n) d ++ "." ++ substring (Z.to_nat n) (Z.to_nat (k - n)) d
  else if ((-6 <? n) && (n <=? 0))%Z then "0." ++ zeros (Z.to_nat (- n)) ++ d
  else
    let e := (n - 1)%Z in
    let tail := "e" ++ (if (0 <=? e)%Z then "+" else "-") ++ showZ (Z.abs e) in
    if (k =? 1)%Z then d ++ tail
    else substring 0 1 d ++ "." ++ substring 1 (Z.to_nat (k - 1)) d ++ tail.

(** [Number::toString(x)] in radix 10, which is also what a template
    literal makes of a Number. *)
Definition toString (x : float) : string :=
  match Prim2SF x with
  | S754_nan => "NaN"
  | S754_zero _ => "0"
  | S754_infinity negative => if negative then "-Infinity" else "Infinity"
  | S754_finite negative _ _ =>
      let a := abs x in
      match value a with
      | Some v =>
          let '(s, k, n) := shortest 17 a v (magnitude v) 1 in
          (if negative then "-" else "") ++ layout s k n
      | None => EmptyString
      end
  end.

(** The integer [n] for which [n / 10 - a] is as close to zero as
    possible, the larger one if there are two. *)
Definition tenths (a : Q) : Z := Qfloor (a * 10 + (1 # 2))%Q.

(** The digits of [toFixed(1)] for a real [0 <= a < 10^21]. *)
Definition fixed1 (a : Q) : string :=
  let n := tenths a in showZ (n / 10) ++ "." ++ showZ (n mod 10).

(** [x.toFixed(1)] *)
Definition toFixed1 (x : float) : string :=
  match value x with
  | None => toString x
  | Some v =>
      if Qle_bool 0 v then
        if Qle_bool (pow10 21) v then toString x else fixed1 v
      else
        "-" ++ (if Qle_bool (pow10 21) (- v) then toString (abs x) else fixed1 (- v)%Q)
  end.

(** What [Math.round] returns: NaN, an infinity, or an integral double.
    An integral double is held by its integer while that is below 2^52
    in magnitude (every such integer is a double, and zero stands for
    both zeros, which print alike), and as the double itself from 2^52
    on, where every double is integral. *)
Inductive Integral :=
| NotANumber
| Infinite (negative : bool)
| Exact (z : Z)
| Large (x : float).

(** [Math.round(x)]: the integer nearest to [x], the one towards
    positive infinity if there are two. *)
Definition round (x : float) : Integral :=
  match value x with
  | Some v => if Qle_bool (Qpower 2 52) (Qabs v) then Large x else Exact (Qfloor (v + (1 # 2))%Q)
  | None =>
      match Prim2SF x with
      | S754_infinity negative => Infinite negative
      | _ => NotANumber
      end
  end.

(** [`${i}`] *)
Definition interpolate (i : Integral) : string :=
  match i with
  | NotANumber => "NaN"
  | Infinite negative => if negative then "-Infinity" else "Infinity"
  | Exact z => showZ z
  | Large x => toString x
  end.

End JSNumber.

(** ** Caller triage (CallerPage) *)
Module Triage.

Inductive Category := RED | YELLOW | GREEN.

Record TriageResult := {
  triage_category : Category;
  priority_rank : Z;
  short_reason : string;
  next_step : string
}.

Definition endStates (c : Category) : TriageResult :=
  match c with
  | RED => {| triage_category := RED; priority_rank := 1;
              short_reason := "Life-threatening condition detected. Immediate response required.";
              next_step := "Emergency logged. Ambulance dispatched based on priority." |}
  | YELLOW => {| triage_category := YELLOW; priority_rank := 2;
              short_reason := "Serious condition but currently stable. Priority response dispatched.";
              next_step := "Emergency logged. Ambulance dispatched based on priority." |}
  | GREEN => {| triage_category := GREEN; priority_rank := 3;
              short_reason := "Minor condition. Patient is alert and mobile.";
              next_step := "Emergency logged. Ambulance dispatched based on priority." |}
  end.

(** [const yes = answer.toLowerCase().includes('yes')] *)
Definition yes (answer : string) : bool :=
  JS.includes (JS.toLowerCase answer) "yes".

(** [None] is the source's [null]: continue with the next question. *)
Definition evaluateStep (step : nat) (answer : string) : option TriageResult :=
  let yes := yes answer in
  match step with
  | 0%nat => if yes then None else Some (endStates RED)
  | 1%nat => if yes then None else Some (endStates RED)
  | 2%nat => if yes then Some (endStates RED) else None
  | 3%nat => if yes then Some (endStates YELLOW) else None
  | 4%nat => if yes then Some (endStates GREEN) else Some (endStates YELLOW)
  | _ => None
  end.

(** The evaluator iterated over the answers given in order, starting at
    [step]: the step at which it stopped and the result, or [None] when
    the answers ran out before a terminal state. *)
Fixpoint iterate (step : nat) (answers : list string) : option (nat * TriageResult) :=
  match answers with
  | [] => None
  | a :: rest =>
      match evaluateStep step a with
      | Some r => Some (step, r)
      | None => iterate (S step) rest
      end
  end.


End Triage.

(** ** Dispatch queue ordering (DriverPage, three variants) *)
Module Queue.

(** Firestore [Timestamp]. *)
Record Timestamp := { seconds : Z; nanoseconds : Z }.

(** The fields of [interface Patient] that the logic reads; the display
    fields ([name], [hr], [bp], [spo2], [notes], [photoBase64], [id],
    [type]) play no part in any function modelled here.  [timestamp]
    is [None] when the field is missing or [null] (a server timestamp
    not yet resolved), and likewise for the other optional fields. *)
Record Patient := {
  docId : string;
  status : string;
  triage : option string;
  acuity : option string;
  timestamp : option Timestamp;
  patientLat : option Q;
  patientLng : option Q
}.

(** [field === 'literal'] on an optional string field. *)
Definition eqLit (field : option string) (literal : string) : bool :=
  match field with
  | Some s => String.eqb s literal
  | None => false
  end.

(** [tier] of src/pages/DriverPage.tsx (also [getTier] of the map variant). *)
Definition tier (p : Patient) : Z :=
  if eqLit (triage p) "RED" || eqLit (acuity p) "Critical" then 1
  else if eqLit (triage p) "YELLOW" || eqLit (acuity p) "Urgent" then 2
  else if eqLit (triage p) "GREEN" || eqLit (acuity p) "Routine" then 3
  else 5.

(** [getTier] of the list variant, whose [triage] admits ['BLACK']. *)
Definition getTier (p : Patient) : Z :=
  if eqLit (triage p) "RED" || eqLit (acuity p) "Critical" then 1
  else if eqLit (triage p) "YELLOW" || eqLit (acuity p) "Urgent" then 2
  else if eqLit (triage p) "GREEN" || eqLit (acuity p) "Routine" then 3
  else if eqLit (triage p) "BLACK" then 4
  else 5.

(** [x || y] on numbers: [y] when [x] is zero. *)
Definition orElse (x y : Z) : Z := if (x =? 0)%Z then y else x.

(** [a.timestamp?.seconds ?? 0] *)
Definition secondsOrZero (p : Patient) : Z :=
  match timestamp p with
  | Some t => seconds t
  | None => 0
  end.

(** [a.timestamp?.seconds || 0] *)
Definition secondsOrElseZero (p : Patient) : Z :=
  orElse (match timestamp p with Some t => seconds t | None => 0 end) 0.

(** Comparator of src/pages/DriverPage.tsx:
    [tier(a) - tier(b) || (a.timestamp?.seconds ?? 0) - (b.timestamp?.seconds ?? 0)] *)
Definition compare (a b : Patient) : Z :=
  orElse (tier a - tier b) (secondsOrZero a - secondsOrZero b).

(** Comparator of the list variant (with the BLACK tier). *)
Definition compareMci (a b : Patient) : Z :=
  let tierA := getTier a in
  let tierB := getTier b in
  if negb (tierA =? tierB)%Z then tierA - tierB
  else
    let timeA := secondsOrElseZero a in
    let timeB := secondsOrElseZero b in
    timeA - timeB.

(** Comparator of the map variant (tiers 1, 2, 3, 5 only). *)
Definition compareMap (a b : Patient) : Z :=
  let tierA := tier a in
  let tierB := tier b in
  if negb (tierA =? tierB)%Z then tierA - tierB
  else secondsOrElseZero a - secondsOrElseZero b.

(** [Array.prototype.sort] is stable; a stable insertion sort stands for it. *)
Section Sort.
Variable cmp : Patient -> Patient -> Z.

Fixpoint insert (x : Patient) (l : list Patient) : list Patient :=
  match l with
  | [] => [x]
  | y :: l' => if (cmp x y <=? 0)%Z then x :: l else y :: insert x l'
  end.

Definition sort (l : list Patient) : list Patient := fold_right insert [] l.
End Sort.

(** The order the specification describes: tier first, then time. *)
Definition before (t : Patient -> Z) (a b : Patient) : Prop :=
  (t a < t b)%Z \/ (t a = t b /\ (secondsOrZero a < secondsOrZero b)%Z).

Definition not_after (t : Patient -> Z) (a b : Patient) : Prop :=
  (t a < t b)%Z \/ (t a = t b /\ (secondsOrZero a <= secondsOrZero b)%Z).

(** The labels of the three severity levels. *)
Definition critical (p : Patient) : Prop := triage p = Some "RED" \/ acuity p = Some "Critical".
Definition urgent (p : Patient) : Prop := triage p = Some "YELLOW" \/ acuity p = Some "Urgent".
Definition routine (p : Patient) : Prop := triage p = Some "GREEN" \/ acuity p = Some "Routine".
Definition black (p : Patient) : Prop := triage p = Some "BLACK".

End Queue.

(** ** Effects: mutable state and exceptions

    A computation reads and writes a state of type [S] and either
    completes normally or throws; what it did to the state before a
    throw stays done, as in JavaScript.  [await] is sequencing. *)
Module Eff.

Inductive Completion (A : Type) :=
| Normal (a : A)
| Throw (error : string).
Arguments Normal {A} a.
Arguments Throw {A} error.

Definition M (S A : Type) : Type := S -> Completion A * S.

Definition ret {S A} (a : A) : M S A := fun s => (Normal a, s).
Definition throw {S A} (error : string) : M S A := fun s => (Throw error, s).

Definition bind {S A B} (m : M S A) (k : A -> M S B) : M S B :=
  fun s =>
    match m s with
    | (Normal a, s') => k a s'
    | (Throw e, s') => (Throw e, s')
    end.

(** [try { m } catch (e) { handler(e) }] *)
Definition tryCatch {S A} (m : M S A) (handler : string -> M S A) : M S A :=
  fun s =>
    match m s with
    | (Normal a, s') => (Normal a, s')
    | (Throw e, s') => handler e s'
    end.

(** [try { m } finally { f }] *)
Definition tryFinally {S A} (m : M S A) (f : M S unit) : M S A :=
  fun s =>
    match m s with
    | (r, s') =>
        match f s' with
        | (Normal _, s'') => (r, s'')
        | (Throw e, s'') => (Throw e, s'')
        end
    end.

Definition get {S} : M S S := fun s => (Normal s, s).
Definition modify {S} (f : S -> S) : M S unit := fun s => (Normal tt, f s).

(** Every run of [m] takes a state to one related to it by [R],
    whether it completes or throws. *)
Definition preserves {S : Type} (R : S -> S -> Prop) {A : Type} (m : M S A) : Prop :=
  forall s, R s (snd (m s)).

End Eff.

Declare Scope eff_scope.
Delimit Scope eff_scope with eff.
Notation "'let*' x ':=' m 'in' k" := (Eff.bind m (fun x => k))
  (at level 10, x name, m at level 100, k at level 200) : eff_scope.
Notation "'run' m 'then' k" := (Eff.bind m (fun _ => k))
  (at level 10, m at level 100, k at level 200) : eff_scope.

(** ** The shared record store (Firestore) *)
Module Firestore.

Inductive Value :=
| VNull
| VStr (s : string)
| VNum (q : Q)
| VTimestamp (t : Queue.Timestamp)
| VServerTimestamp.   (* the sentinel returned by [serverTimestamp()] *)

Abbreviation Doc := (gmap string Value).
Abbreviation Collection := (gmap string Doc).

(** The server replaces the sentinel by its clock when it stores a document. *)
Definition resolve (now : Z) (v : Value) : Value :=
  match v with
  | VServerTimestamp => VTimestamp {| Queue.seconds := now; Queue.nanoseconds := 0 |}
  | _ => v
  end.

(** [addDoc(collection(db, 'patients'), data)].  [newId] is the id the
    SDK generates (new to the collection), [now] the server clock and
    [ok] whether the write goes through; [None] is a rejected promise. *)
Definition addDoc (newId : string) (now : Z) (ok : bool) (data : Doc) (c : Collection)
  : option Collection :=
  if ok then
    match c !! newId with
    | None => Some (<[newId := resolve now <$> data]> c)
    | Some _ => None
    end
  else None.

(** [updateDoc(doc(db, 'patients', id), fields)]: the given fields are
    merged into the stored document, the others are kept; the promise is
    rejected when the document does not exist or the write fails.  No
    update in the sources passes a sentinel. *)
Definition updateDoc (id : string) (fields : Doc) (ok : bool) (c : Collection)
  : option Collection :=
  if ok then
    match c !! id with
    | Some d => Some (<[id := fields ∪ d]> c)
    | None => None
    end
  else None.

Definition str (d : Doc) (field : string) : option string :=
  match d !! field with
  | Some (VStr s) => Some s
  | _ => None
  end.

Definition num (d : Doc) (field : string) : option Q :=
  match d !! field with
  | Some (VNum q) => Some q
  | _ => None
  end.

Definition time (d : Doc) (field : string) : option Queue.Timestamp :=
  match d !! field with
  | Some (VTimestamp t) => Some t
  | _ => None
  end.

(** [where('status', '==', 'waiting')].  The documents come in the
    store's order; nothing below depends on it. *)
Definition isWaiting (d : Doc) : bool :=
  match str d "status" with
  | Some s => String.eqb s "waiting"
  | None => false
  end.

Definition queryWaiting (c : Collection) : list (string * Doc) :=
  List.filter (fun kd => isWaiting (snd kd)) (map_to_list c).

(** [{ ...d.data(), docId: d.id }] read at type [Patient]. *)
Definition toPatient (kd : string * Doc) : Queue.Patient :=
  let d := snd kd in
  {| Queue.docId := fst kd;
     Queue.status := match str d "status" with Some s => s | None => "" end;
     Queue.triage := str d "triage";
     Queue.acuity := str d "acuity";
     Queue.timestamp := time d "timestamp";
     Queue.patientLat := num d "patientLat";
     Queue.patientLng := num d "patientLng" |}.

(** What the [onSnapshot] callback stores in [patients]. *)
Definition snapshot (c : Collection) : list Queue.Patient :=
  Queue.sort Queue.compare (List.map toPatient (queryWaiting c)).

End Firestore.

(** ** The driver page (src/pages/DriverPage.tsx) *)
Module DriverPage.
Import Eff Firestore.
Local Open Scope eff_scope.

Record LatLng := { lat : Q; lng : Q }.

Definition DEMO_PICKUP : LatLng := {| lat := 18.5074; lng := 73.8077 |}.

(** [{ distance: string, time: string }] *)
Record ETA := { distance : string; time : string }.

(** The first route of a reply, as the page reads it: the Numbers that
    [routeData.distance / 1000] and [routeData.duration / 60] make of
    its fields [distance] (meters) and [duration] (seconds) before they
    divide, NaN standing for a field that is missing or no number.  Its
    path geometry is only drawn, and left out. *)
Record Route := { route_distance : float; route_duration : float }.

(** The parsed body of a reply: JSON [null], on which [data.routes]
    throws, or any other value, of which the page reads [routes?.[0]]
    only: [routes] is missing, or holds the routes.  A first route that
    is absent, [null] or falsy counts as none: the page shows no
    estimate for it. *)
Inductive Body :=
| BodyNull
| BodyObject (routes : option (list Route)).

(** What one [fetch] meets: the request fails, the body is not JSON, or
    the body parses. *)
Inductive Reply :=
| NetworkFailure
| Unparsable
| Parsed (data : Body).

(** React state of the page. *)
Record Page := {
  selectedPatient : option Queue.Patient;
  isNavigating : bool;
  navigationPhase : Z;
  driverLocation : option LatLng;
  dispatchETA : option ETA;
  isCalculatingETA : bool
}.

Definition initialPage : Page :=
  {| selectedPatient := None; isNavigating := false; navigationPhase := 1;
     driverLocation := None; dispatchETA := None; isCalculatingETA := false |}.

(** The page together with what it talks to: the shared store, the
    replies the routing service will give (in order), the requests sent
    to it so far, and the console. *)
Record World := {
  store : Collection;
  page : Page;
  replies : list Reply;
  requests : list (LatLng * LatLng);
  console : list string
}.

Definition setPage (f : Page -> Page) : M World unit :=
  modify (fun w => {| store := store w; page := f (page w); replies := replies w;
                      requests := requests w; console := console w |}).

Definition setSelectedPatient (v : option Queue.Patient) : M World unit :=
  setPage (fun p => {| selectedPatient := v; isNavigating := isNavigating p;
                       navigationPhase := navigationPhase p; driverLocation := driverLocation p;
                       dispatchETA := dispatchETA p; isCalculatingETA := isCalculatingETA p |}).

Definition setIsNavigating (v : bool) : M World unit :=
  setPage (fun p => {| selectedPatient := selectedPatient p; isNavigating := v;
                       navigationPhase := navigationPhase p; driverLocation := driverLocation p;
                       dispatchETA := dispatchETA p; isCalculatingETA := isCalculatingETA p |}).

Definition setNavigationPhase (v : Z) : M World unit :=
  setPage (fun p => {| selectedPatient := selectedPatient p; isNavigating := isNavigating p;
                       navigationPhase := v; driverLocation := driverLocation p;
                       dispatchETA := dispatchETA p; isCalculatingETA := isCalculatingETA p |}).

Definition setDriverLocation (v : option LatLng) : M World unit :=
  setPage (fun p => {| selectedPatient := selectedPatient p; isNavigating := isNavigating p;
                       navigationPhase := navigationPhase p; driverLocation := v;
                       dispatchETA := dispatchETA p; isCalculatingETA := isCalculatingETA p |}).

Definition setDispatchETA (v : option ETA) : M World unit :=
  setPage (fun p => {| selectedPatient := selectedPatient p; isNavigating := isNavigating p;
                       navigationPhase := navigationPhase p; driverLocation := driverLocation p;
                       dispatchETA := v; isCalculatingETA := isCalculatingETA p |}).

Definition setIsCalculatingETA (v : bool) : M World unit :=
  setPage (fun p => {| selectedPatient := selectedPatient p; isNavigating := isNavigating p;
                       navigationPhase := navigationPhase p; driverLocation := driverLocation p;
                       dispatchETA := dispatchETA p; isCalculatingETA := v |}).

Definition consoleError (msg : string) : M World unit :=
  modify (fun w => {| store := store w; page := page w; replies := replies w;
                      requests := requests w; console := console w ++ [msg] |}).

(** [await updateDoc(doc(db, 'patients', id), fields)] *)
Definition awaitUpdateDoc (id : string) (fields : Doc) (ok : bool) : M World unit :=
  fun w =>
    match updateDoc id fields ok (store w) with
    | Some c => (Normal tt, {| store := c; page := page w; replies := replies w;
                               requests := requests w; console := console w |})
    | None => (Throw "FirebaseError", w)
    end.

(** [await fetch(url)]: the request is sent and the next reply taken. *)
Definition fetch (from to : LatLng) : M World Reply :=
  fun w =>
    let w' := {| store := store w; page := page w; replies := tl (replies w);
                 requests := requests w ++ [(from, to)]; console := console w |} in
    match replies w with
    | [] | NetworkFailure :: _ => (Throw "TypeError: Failed to fetch", w')
    | r :: _ => (Normal r, w')
    end.

(** [await res.json()] *)
Definition json (res : Reply) : M World Body :=
  match res with
  | Parsed data => ret data
  | _ => throw "SyntaxError"
  end.

(** [data.routes], which throws on [null]. *)
Definition getRoutes (data : Body) : M World (option (list Route)) :=
  match data with
  | BodyNull => throw "TypeError"
  | BodyObject routes => ret routes
  end.

(** [routes?.[0] ?? null] *)
Definition first (routes : option (list Route)) : option Route :=
  match routes with
  | Some (r :: _) => Some r
  | _ => None
  end.

Definition fetchOsrmRoute (from to : LatLng) : M World (option Route) :=
  tryCatch
    (let* res := fetch from to in
     let* data := json res in
     let* routes := getRoutes data in
     ret (first routes))
    (fun e => run consoleError "OSRM error" then ret None).

(** [getPosition()]: the position the browser reports, or a rejection. *)
Definition getPosition (reported : option LatLng) : M World LatLng :=
  match reported with
  | Some p => ret p
  | None => throw "GeolocationPositionError"
  end.

(** [Math.round] of a real: the nearest integer, a tie going up. *)
Definition mathRound (x : Q) : Z := Qfloor (x + (1 # 2))%Q.

Definition patientPosOf (p : Queue.Patient) : LatLng :=
  {| lat := match Queue.patientLat p with Some v => v | None => lat DEMO_PICKUP end;
     lng := match Queue.patientLng p with Some v => v | None => lng DEMO_PICKUP end |}.

(** [calculateETA] for the selected patient.  [reported] is what
    [getPosition] yields if it is asked; [cancelledAtPosition] and
    [cancelled] are the effect's [cancelled] flag when the position
    arrives and when the invocation ends. *)
Definition calculateETA (selected : Queue.Patient) (reported : option LatLng)
    (cancelledAtPosition cancelled : bool) : M World unit :=
  let* w := get in
  let driverLocation := driverLocation (page w) in
  tryFinally
    (tryCatch
       (let* pos := match driverLocation with
                    | Some p => ret p
                    | None => getPosition reported
                    end in
        run (match driverLocation with
             | None => if negb cancelledAtPosition then setDriverLocation (Some pos) else ret tt
             | Some _ => ret tt
             end) then
        let patientPos := patientPosOf selected in
        let* routeData := fetchOsrmRoute pos patientPos in
        match routeData with
        | Some r =>
            if negb cancelled then
              let distKm := JSNumber.toFixed1 (route_distance r / 1000)%float in
              let timeMin := JSNumber.round (route_duration r / 60)%float in
              setDispatchETA (Some {| distance := distKm;
                                      time := JSNumber.interpolate timeMin |})
            else ret tt
        | None => ret tt
        end)
       (fun e => consoleError "ETA Calculation Error"))
    (if negb cancelled then setIsCalculatingETA false else ret tt).

(** The effect that runs when a patient is selected. *)
Definition etaEffect (reported : option LatLng) (cancelledAtPosition cancelled : bool)
  : M World unit :=
  let* w := get in
  match selectedPatient (page w), isNavigating (page w) with
  | Some selected, false =>
      run setDispatchETA None then
      run setIsCalculatingETA true then
      calculateETA selected reported cancelledAtPosition cancelled
  | _, _ => ret tt
  end.

(** *** Status handlers.  The toasts are left out. *)

Definition handleAcceptDispatch (ok : bool) : M World unit :=
  let* w := get in
  match selectedPatient (page w) with
  | None => ret tt
  | Some p =>
      tryCatch
        (run awaitUpdateDoc (Queue.docId p) {[ "status" := VStr "driver_en_route" ]} ok then
         run setNavigationPhase 1 then
         setIsNavigating true)
        (fun e => consoleError e)
  end.

Definition handlePatientLoaded (ok : bool) : M World unit :=
  let* w := get in
  match selectedPatient (page w) with
  | None => ret tt
  | Some p =>
      tryCatch
        (run awaitUpdateDoc (Queue.docId p) {[ "status" := VStr "en_route_to_hospital" ]} ok then
         setNavigationPhase 2)
        (fun e => consoleError e)
  end.

Definition handlePatientDelivered (ok : bool) : M World unit :=
  let* w := get in
  match selectedPatient (page w) with
  | None => ret tt
  | Some p =>
      tryCatch
        (run awaitUpdateDoc (Queue.docId p) {[ "status" := VStr "delivered" ]} ok then
         run setNavigationPhase 1 then
         run setIsNavigating false then
         run setSelectedPatient None then
         run setDriverLocation None then
         setDispatchETA None)
        (fun e => consoleError e)
  end.

(** One tick of the five-second tracking interval, started for
    [selected] when phase 1 of the navigation began. *)
Definition trackingTick (selected : Queue.Patient) (reported : option LatLng) (ok : bool)
  : M World unit :=
  tryCatch
    (let* driver := getPosition reported in
     run setDriverLocation (Some driver) then
     awaitUpdateDoc (Queue.docId selected)
       {[ "driverLat" := VNum (lat driver); "driverLng" := VNum (lng driver) ]} ok)
    (fun e => consoleError "Tracking error").

End DriverPage.

(** ** The two earlier driver pages (src/unnamed/part_002) *)
Module DriverList.
Import Eff Firestore DriverPage.
Local Open Scope eff_scope.

(** First page of part_002: a queue with a single action. *)
Definition handlePatientLoaded (ok : bool) : M World unit :=
  let* w := get in
  match selectedPatient (page w) with
  | None => ret tt
  | Some p =>
      tryCatch
        (run awaitUpdateDoc (Queue.docId p) {[ "status" := VStr "loaded" ]} ok then
         setSelectedPatient None)
        (fun e => consoleError "Error updating patient status:")
  end.

End DriverList.

Module DriverMap.
Import Eff Firestore DriverPage.
Local Open Scope eff_scope.

(** Second page of part_002: load, then navigate to a fixed destination. *)
Definition handlePatientLoaded (ok : bool) : M World unit :=
  let* w := get in
  match selectedPatient (page w) with
  | None => ret tt
  | Some p =>
      tryCatch
        (run awaitUpdateDoc (Queue.docId p) {[ "status" := VStr "loaded" ]} ok then
         setIsNavigating true)
        (fun e => consoleError "Error updating status:")
  end.

Definition completeTransport (ok : bool) : M World unit :=
  let* w := get in
  match selectedPatient (page w) with
  | None => ret tt
  | Some p =>
      tryCatch
        (run awaitUpdateDoc (Queue.docId p) {[ "status" := VStr "delivered" ]} ok then
         run setSelectedPatient None then
         run setIsNavigating false then
         setDriverLocation None)
        (fun e => consoleError "Error completing transport:")
  end.

End DriverMap.

(** ** Driver clients acting on the shared store *)
Module Dispatch.
Import Eff Firestore DriverPage.

Inductive Variant := Main | MapPage | ListPage.

(** What can happen at a driver client: a click the rendered page
    offers, an effect or timer of the page, or a record arriving from
    an intake page. *)
Inductive Action :=
| Select (id : string)
| Close
| EtaEffect (reported : option LatLng) (cancelledAtPosition cancelled : bool)
| Accept (ok : bool)
| Loaded (ok : bool)
| Delivered (ok : bool)
| Tick (reported : option LatLng) (ok : bool)
| Intake (newId : string) (now : Z) (data : Doc).

Definition findPatient (id : string) (c : Collection) : option Queue.Patient :=
  List.find (fun p => String.eqb (Queue.docId p) id) (snapshot c).

Definition withStore (c : Collection) (w : World) : World :=
  {| store := c; page := page w; replies := replies w;
     requests := requests w; console := console w |}.

Definition exec (m : M World unit) (w : World) : option World := Some (snd (m w)).

Definition hasEta (p : Page) : bool :=
  match dispatchETA p with Some _ => negb (isCalculatingETA p) | None => false end.

Definition hasSelection (p : Page) : bool :=
  match selectedPatient p with Some _ => true | None => false end.

(** One action at a client of the given variant; [None] when the page
    as rendered does not offer it.  The list of cards is the snapshot of
    the store (local writes reach the listener at once). *)
Definition step (v : Variant) (a : Action) (w : World) : option World :=
  let p := page w in
  match a with
  | Intake newId now data =>
      match addDoc newId now true data (store w) with
      | Some c => Some (withStore c w)
      | None => None
      end
  | Select id =>
      match v, isNavigating p with
      | ListPage, _ | _, false =>
          match findPatient id (store w) with
          | Some q => exec (setSelectedPatient (Some q)) w
          | None => None
          end
      | _, true => None
      end
  | Close =>
      match v, isNavigating p, selectedPatient p with
      | ListPage, _, Some _ | _, false, Some _ => exec (setSelectedPatient None) w
      | _, _, _ => None
      end
  | EtaEffect reported c1 c2 =>
      match v with
      | Main => exec (etaEffect reported c1 c2) w
      | _ => None
      end
  | Accept ok =>
      match v, isNavigating p, hasSelection p && hasEta p with
      | Main, false, true => exec (handleAcceptDispatch ok) w
      | _, _, _ => None
      end
  | Loaded ok =>
      match v with
      | Main =>
          if isNavigating p && (navigationPhase p =? 1)%Z
          then exec (DriverPage.handlePatientLoaded ok) w else None
      | MapPage =>
          if negb (isNavigating p) && hasSelection p
          then exec (DriverMap.handlePatientLoaded ok) w else None
      | ListPage =>
          if hasSelection p then exec (DriverList.handlePatientLoaded ok) w else None
      end
  | Delivered ok =>
      match v with
      | Main =>
          if isNavigating p && negb (navigationPhase p =? 1)%Z
          then exec (handlePatientDelivered ok) w else None
      | MapPage =>
          if isNavigating p then exec (DriverMap.completeTransport ok) w else None
      | ListPage => None
      end
  | Tick reported ok =>
      match v, isNavigating p && (navigationPhase p =? 1)%Z, selectedPatient p with
      | Main, true, Some q => exec (trackingTick q reported ok) w
      | _, _, _ => None
      end
  end.

Fixpoint runActions (v : Variant) (actions : list Action) (w : World) : option World :=
  match actions with
  | [] => Some w
  | a :: rest =>
      match step v a w with
      | Some w' => runActions v rest w'
      | None => None
      end
  end.

(** A client that has just opened the page, over any store. *)
Definition fresh (c : Collection) (routing : list Reply) : World :=
  {| store := c; page := initialPage; replies := routing; requests := []; console := [] |}.

(** Several clients over one store: a client's [store] is its view of
    the shared store, brought up to date when it acts. *)
Record Shared := {
  shared : Collection;
  clients : list World
}.

Definition sharedStep (v : Variant) (who : nat) (a : Action) (s : Shared) : option Shared :=
  match clients s !! who with
  | None => None
  | Some w =>
      match step v a (withStore (shared s) w) with
      | Some w' => Some {| shared := store w'; clients := <[who := w']> (clients s) |}
      | None => None
      end
  end.

Fixpoint sharedRun (v : Variant) (events : list (nat * Action)) (s : Shared) : option Shared :=
  match events with
  | [] => Some s
  | (who, a) :: rest =>
      match sharedStep v who a s with
      | Some s' => sharedRun v rest s'
      | None => None
      end
  end.

(** *** The chain of statuses *)

Definition stage (status : string) : option nat :=
  if String.eqb status "waiting" then Some 0%nat
  else if String.eqb status "driver_en_route" then Some 1%nat
  else if String.eqb status "en_route_to_hospital" || String.eqb status "loaded" then Some 2%nat
  else if String.eqb status "delivered" then Some 3%nat
  else None.

Definition statusOf (c : Collection) (id : string) : option string :=
  match c !! id with
  | Some d => str d "status"
  | None => None
  end.

(** The status of record [id] is the same in [c] and [c'], or it moved
    strictly forward along the chain. *)
Definition forward (c c' : Collection) (id : string) : Prop :=
  statusOf c' id = statusOf c id \/
  exists o n i j,
    statusOf c id = Some o /\ statusOf c' id = Some n /\
    stage o = Some i /\ stage n = Some j /\ (i < j)%nat.

(** The invariant as the specification words it: whatever the driver
    clients do, no record's status goes back. *)
Definition status_never_regresses (v : Variant) : Prop :=
  forall (c : Collection) (ws : list World) (events : list (nat * Action))
         (s : Shared) (who : nat) (a : Action) (s' : Shared) (id : string),
    Forall (fun w => page w = initialPage) ws ->
    sharedRun v events {| shared := c; clients := ws |} = Some s ->
    sharedStep v who a s = Some s' ->
    is_Some (statusOf (shared s) id) ->
    forward (shared s) (shared s') id.

(** Severity fields of a stored record. *)
Definition severityOf (c : Collection) (id : string) : option (option Value * option Value) :=
  match c !! id with
  | Some d => Some (d !! "triage", d !! "acuity")
  | None => None
  end.

(** Every record of [c] is in [c'] with the same severity fields. *)
Definition same_severity (c c' : Collection) : Prop :=
  forall id, is_Some (c !! id) -> severityOf c' id = severityOf c id.

(** The same, between two states of a client. *)
Definition keeps_severity (w w' : World) : Prop := same_severity (store w) (store w').

(** The status of [id] moved strictly forward along the chain. *)
Definition advanced (c c' : Collection) (id : string) : Prop :=
  exists o n i j,
    statusOf c id = Some o /\ statusOf c' id = Some n /\
    stage o = Some i /\ stage n = Some j /\ (i < j)%nat.

(** [w'] has the store, the selection and the navigation state of [w]. *)
Definition same_core (w w' : World) : Prop :=
  store w' = store w /\
  selectedPatient (page w') = selectedPatient (page w) /\
  isNavigating (page w') = isNavigating (page w) /\
  navigationPhase (page w') = navigationPhase (page w).

(** The status at which the page of variant [v], in the navigation state
    of [p], takes its selected record to stand. *)
Definition expected (v : Variant) (p : Page) : string :=
  match v, isNavigating p with
  | ListPage, _ | _, false => "waiting"
  | Main, true =>
      if (navigationPhase p =? 1)%Z then "driver_en_route" else "en_route_to_hospital"
  | MapPage, true => "loaded"
  end.

(** The selected record stands in the store where the page takes it to
    stand, and a page without a selection is not navigating. *)
Definition consistent (v : Variant) (w : World) : Prop :=
  match selectedPatient (page w) with
  | Some q => statusOf (store w) (Queue.docId q) = Some (expected v (page w))
  | None => v = ListPage \/ isNavigating (page w) = false
  end.

(** The status actions that go through. *)
Definition writes_status (a : Action) : bool :=
  match a with
  | Accept true | Loaded true | Delivered true => true
  | _ => false
  end.

(** [w] with its page changed by [f]. *)
Definition withPage (f : Page -> Page) (w : World) : World :=
  {| store := store w; page := f (page w); replies := replies w;
     requests := requests w; console := console w |}.

(** A handler of the common shape: one status write for the selected
    record, then changes to the page alone; a rejected write changes
    neither the store nor the page. *)
Definition status_handler (m : bool -> M World unit) (s : string) (f : Page -> Page) : Prop :=
  forall ok w q,
    selectedPatient (page w) = Some q ->
    match updateDoc (Queue.docId q) {[ "status" := VStr s ]} ok (store w) with
    | Some c => snd (m ok w) = withPage f (withStore c w)
    | None => store (snd (m ok w)) = store w /\ page (snd (m ok w)) = page w
    end.

(** What one step of a client in a consistent state achieves. *)
Definition step_ok (v : Variant) (a : Action) (w w' : World) : Prop :=
  consistent v w' /\
  (forall id, is_Some (store w !! id) -> forward (store w) (store w') id) /\
  (writes_status a = true ->
   exists q, selectedPatient (page w) = Some q /\
             advanced (store w) (store w') (Queue.docId q)).

End Dispatch.

(** ** Caller page: the dialogue and the record it files *)
Module CallerPage.
Import Eff Firestore Triage.
Local Open Scope eff_scope.

Record World := {
  store : Collection;
  currentStep : nat;
  triageResult : option TriageResult;
  console : list string
}.

Definition initial (c : Collection) : World :=
  {| store := c; currentStep := 0; triageResult := None; console := [] |}.

Definition categoryName (c : Category) : string :=
  match c with RED => "RED" | YELLOW => "YELLOW" | GREEN => "GREEN" end.

(** The object literal passed to [addDoc]. *)
Definition record (pId : string) (result : TriageResult) : Doc :=
  {[ "id" := VStr pId;
     "triage" := VStr (categoryName (triage_category result));
     "status" := VStr "waiting";
     "patientLat" := VNum 18.5074;
     "patientLng" := VNum 73.8077;
     "timestamp" := VServerTimestamp ]}.

Definition setTriageResult (r : TriageResult) : M World unit :=
  modify (fun w => {| store := store w; currentStep := currentStep w;
                      triageResult := Some r; console := console w |}).

Definition setCurrentStep (n : nat) : M World unit :=
  modify (fun w => {| store := store w; currentStep := n;
                      triageResult := triageResult w; console := console w |}).

Definition consoleError (msg : string) : M World unit :=
  modify (fun w => {| store := store w; currentStep := currentStep w;
                      triageResult := triageResult w; console := console w ++ [msg] |}).

Definition awaitAddDoc (newId : string) (now : Z) (ok : bool) (data : Doc) : M World unit :=
  fun w =>
    match addDoc newId now ok data (store w) with
    | Some c => (Normal tt, {| store := c; currentStep := currentStep w;
                               triageResult := triageResult w; console := console w |})
    | None => (Throw "FirebaseError", w)
    end.

(** [handleSendMessage] with its one-second timer run to completion (so
    [isTyping] is false when the next message is sent; the message list
    is only displayed).  [hhmmss] is the local clock, [newId], [now] and
    [ok] are the store's part in [addDoc]. *)
Definition handleSendMessage (text hhmmss newId : string) (now : Z) (ok : bool)
  : M World unit :=
  let trimmed := JS.trim text in
  let* w := get in
  match JS.truthy trimmed, triageResult w with
  | false, _ | _, Some _ => ret tt
  | true, None =>
      match evaluateStep (currentStep w) trimmed with
      | Some result =>
          run setTriageResult result then
          let pId := "CAL-" ++ hhmmss in
          tryCatch
            (awaitAddDoc newId now ok (record pId result))
            (fun e => consoleError "Failed to push triage to Firestore:")
      | None =>
          let nextStep := S (currentStep w) in
          setCurrentStep nextStep
      end
  end.

(** The page after one more message, the store's part being fixed. *)
Definition say (hhmmss newId : string) (now : Z) (ok : bool) (w : World) (text : string)
  : World :=
  snd (handleSendMessage text hhmmss newId now ok w).

End CallerPage.

(** ** Paramedic page (src/frontend/src/pages/paramedicPage.jsx) *)
Module ParamedicPage.
Import Eff Firestore.
Local Open Scope eff_scope.

Inductive MciColor := RED | YELLOW | GREEN | BLACK.

Definition colorName (c : MciColor) : string :=
  match c with RED => "RED" | YELLOW => "YELLOW" | GREEN => "GREEN" | BLACK => "BLACK" end.

Record Vitals := {
  name : string;
  hr : string;
  bp : string;
  spo2 : string;
  notes : string
}.

Definition emptyVitals : Vitals :=
  {| name := ""; hr := ""; bp := ""; spo2 := ""; notes := "" |}.

Inductive Toast :=
| ToastError (msg : string)
| ToastLoading (msg : string)
| ToastSuccess (msg : string).

Record World := {
  store : Collection;
  vitals : Vitals;
  selectedColor : option MciColor;
  isUploading : bool;
  toasts : list Toast;
  console : list string
}.

Definition toast (t : Toast) : M World unit :=
  modify (fun w => {| store := store w; vitals := vitals w; selectedColor := selectedColor w;
                      isUploading := isUploading w; toasts := toasts w ++ [t];
                      console := console w |}).

Definition consoleError (msg : string) : M World unit :=
  modify (fun w => {| store := store w; vitals := vitals w; selectedColor := selectedColor w;
                      isUploading := isUploading w; toasts := toasts w;
                      console := console w ++ [msg] |}).

Definition setIsUploading (v : bool) : M World unit :=
  modify (fun w => {| store := store w; vitals := vitals w; selectedColor := selectedColor w;
                      isUploading := v; toasts := toasts w; console := console w |}).

Definition setVitals (v : Vitals) : M World unit :=
  modify (fun w => {| store := store w; vitals := v; selectedColor := selectedColor w;
                      isUploading := isUploading w; toasts := toasts w; console := console w |}).

(** [stopCamera]: the stream is released and the colour cleared. *)
Definition stopCamera : M World unit :=
  modify (fun w => {| store := store w; vitals := vitals w; selectedColor := None;
                      isUploading := isUploading w; toasts := toasts w; console := console w |}).

Definition awaitAddDoc (newId : string) (now : Z) (ok : bool) (data : Doc) : M World unit :=
  fun w =>
    match addDoc newId now ok data (store w) with
    | Some c => (Normal tt, {| store := c; vitals := vitals w; selectedColor := selectedColor w;
                               isUploading := isUploading w; toasts := toasts w;
                               console := console w |})
    | None => (Throw "FirebaseError", w)
    end.

(** *** Mass-casualty capture *)

Definition mciRecord (mciId : string) (color : MciColor) (base64Image : string) : Doc :=
  {[ "id" := VStr mciId;
     "triage" := VStr (colorName color);
     "photoBase64" := VStr base64Image;
     "status" := VStr "waiting";
     "timestamp" := VServerTimestamp ]}.

(** [captureAndSubmit].  [video] is whether the video element is
    mounted, [context] whether the canvas gives a 2D context,
    [base64Image] the snapshot the browser encodes, [timeStr] the local
    clock as HHMMSS. *)
Definition captureAndSubmit (video context : bool) (base64Image timeStr newId : string)
    (now : Z) (ok : bool) : M World unit :=
  let* w := get in
  match selectedColor w, video with
  | Some color, true =>
      run setIsUploading true then
      run toast (ToastLoading ("Processing " ++ colorName color ++ " triage...")) then
      tryFinally
        (tryCatch
           (run (if context then ret tt else throw "Canvas context not found") then
            run stopCamera then
            let mciId := "MCI-" ++ colorName color ++ "-" ++ timeStr in
            let patientData := mciRecord mciId color base64Image in
            run awaitAddDoc newId now ok patientData then
            toast (ToastSuccess ("Patient Logged: " ++ mciId)))
           (fun e =>
              run consoleError "Error logging patient:" then
              run toast (ToastError "Failed to log patient") then
              stopCamera))
        (setIsUploading false)
  | _, _ => ret tt
  end.

(** *** Standard report *)

Definition digitValue (c : ascii) : option Z :=
  let n := nat_of_ascii c in
  if (48 <=? n)%nat && (n <=? 57)%nat then Some (Z.of_nat (n - 48)) else None.

(** The value of the longest run of decimal digits at the head of [s],
    continuing [acc]; [None] when there is none. *)
Fixpoint leadingDigits (s : string) (acc : option Z) : option Z :=
  match s with
  | EmptyString => acc
  | String c s' =>
      match digitValue c with
      | Some d => leadingDigits s' (Some (10 * match acc with Some a => a | None => 0 end + d)%Z)
      | None => acc
      end
  end.

(** [parseInt(s, 10)]; [None] is [NaN]. *)
Definition parseInt (s : string) : option Z :=
  match JS.trimStart s with
  | String "-"%char s' => option_map Z.opp (leadingDigits s' None)
  | String "+"%char s' => leadingDigits s' None
  | s' => leadingDigits s' None
  end.

Definition isNaN (x : option Z) : bool :=
  match x with None => true | Some _ => false end.

(** [x < n] and [x > n], false on [NaN]. *)
Definition lt (x : option Z) (n : Z) : bool :=
  match x with Some z => (z <? n)%Z | None => false end.
Definition gt (x : option Z) (n : Z) : bool :=
  match x with Some z => (n <? z)%Z | None => false end.

(** Reading an identifier that no scope binds. *)
Definition unbound {A} (identifier : string) : M World A :=
  throw ("ReferenceError: " ++ identifier ++ " is not defined").

(** [validateNormalForm].  Its third test reads [bp], which is bound
    neither in the function nor in the component nor in the module. *)
Definition validateNormalForm : M World bool :=
  let* w := get in
  let hr := parseInt (hr (vitals w)) in
  let spo2 := parseInt (spo2 (vitals w)) in
  if negb (JS.truthy (ParamedicPage.hr (vitals w))) || isNaN hr || lt hr 1 || gt hr 300 then
    run toast (ToastError "Heart Rate is required and must be between 1 and 300") then
    ret false
  else if negb (JS.truthy (ParamedicPage.spo2 (vitals w))) || isNaN spo2 || lt spo2 0 || gt spo2 100 then
    run toast (ToastError "SpO2 is required and must be between 0 and 100") then
    ret false
  else
    let* invalidBp :=
      if negb (JS.truthy (bp (vitals w))) then ret true
      else
        let* bp := unbound "bp" in
        ret (isNaN bp || (String.length (JS.trim (ParamedicPage.bp (vitals w))) =? 0)%nat) in
    if invalidBp then
      run toast (ToastError "Blood Pressure is required") then
      ret false
    else ret true.

(** [{ ...vitals, type: 'standard', status: 'waiting', timestamp: serverTimestamp() }] *)
Definition standardRecord (v : Vitals) : Doc :=
  <["timestamp" := VServerTimestamp]>
    (<["status" := VStr "waiting"]>
       (<["type" := VStr "standard"]>
          {[ "name" := VStr (name v); "hr" := VStr (hr v); "bp" := VStr (bp v);
             "spo2" := VStr (spo2 v); "notes" := VStr (notes v) ]})).

Definition submitStandardReport (newId : string) (now : Z) (ok : bool) : M World unit :=
  let* valid := validateNormalForm in
  if negb valid then ret tt
  else
    run setIsUploading true then
    run toast (ToastLoading "Submitting report...") then
    tryFinally
      (tryCatch
         (let* w := get in
          run awaitAddDoc newId now ok (standardRecord (vitals w)) then
          run toast (ToastSuccess "Report Submitted") then
          setVitals emptyVitals)
         (fun e =>
            run consoleError "Error submitting report:" then
            toast (ToastError "Failed to submit report")))
      (setIsUploading false).

(** What [parseInt] returned is NaN or not within [lo] to [hi]. *)
Definition outside (x : option Z) (lo hi : Z) : Prop :=
  match x with
  | Some z => (z < lo)%Z \/ (hi < z)%Z
  | None => True
  end.

(** The forms that one of the three tests of [validateNormalForm] stops
    before [bp] is read, in the code's own reading of the fields (the
    integer that [parseInt] finds at the head of the text). *)
Definition stopped_by_a_test (v : Vitals) : Prop :=
  (hr v = "" \/ outside (parseInt (hr v)) 1 300) \/
  (spo2 v = "" \/ outside (parseInt (spo2 v)) 0 100) \/
  bp v = "".

(** The world after one more toast. *)
Definition toasted (t : Toast) (w : World) : World := snd (toast t w).

End ParamedicPage.

(** ** Camera image compressor (src/unnamed/part_000) *)
Module Compressor.

(** A canvas: its size, and the base64 text of the JPEG the browser
    encodes from it at a given quality. *)
Record Canvas := {
  width : N;
  height : N;
  jpegBase64 : float -> string
}.

(** [canvas.toDataURL("image/jpeg", quality)]: a canvas without pixels
    yields ["data:,"], any other a JPEG data URL. *)
Definition toDataURL (canvas : Canvas) (quality : float) : string :=
  if (width canvas =? 0)%N || (height canvas =? 0)%N then "data:,"
  else "data:image/jpeg;base64," ++ jpegBase64 canvas quality.

Definition MAX_SIZE : Z := 100 * 1024.

(** [Math.round((dataURL.length * 3) / 4)]: the quotient is a multiple
    of a quarter, and a half rounds up. *)
Definition estimate (dataURL : string) : Z :=
  (Z.of_nat (String.length dataURL) * 3 + 2) / 4.

(** The test that ends the recursion. *)
Definition stop (size : Z) (quality : float) : bool :=
  (size <=? MAX_SIZE)%Z || (quality <=? 0.1)%float.

(** The inner [compress], with [quality] as an argument; the result is
    the pair handed to the callback.  [fuel] bounds the depth of the
    recursion. *)
Fixpoint compress (fuel : nat) (canvas : Canvas) (quality : float) : option (string * Z) :=
  match fuel with
  | O => None
  | S fuel' =>
      let dataURL := toDataURL canvas quality in
      let size := estimate dataURL in
      if stop size quality then Some (dataURL, size)
      else compress fuel' canvas (quality - 0.05)%float
  end.

Definition compressToUnder100KB (canvas : Canvas) : option (string * Z) :=
  compress 32 canvas 0.9%float.

(** The quality after [k] decrements. *)
Fixpoint qualityAt (k : nat) : float :=
  match k with
  | O => 0.9%float
  | S k' => (qualityAt k' - 0.05)%float
  end.

Definition isJpegDataURL (s : string) : bool := JS.startsWith "data:image/jpeg;base64," s.

(** What the callback receives when the recursion stops after [k]
    decrements. *)
Definition outcome (canvas : Canvas) (k : nat) : string * Z :=
  (toDataURL canvas (qualityAt k), estimate (toDataURL canvas (qualityAt k))).

Definition stops (canvas : Canvas) (k : nat) : bool :=
  stop (estimate (toDataURL canvas (qualityAt k))) (qualityAt k).

End Compressor.

(** ** Nearest hospital (src/pages/DriverPage.tsx), over the reals *)
Module Hospitals.
Local Open Scope R_scope.

Record LatLng := { lat : R; lng : R }.

Record Hospital := { name : string; hlat : R; hlng : R }.

Definition Deenanath : Hospital :=
  {| name := "Deenanath Mangeshkar Hospital"; hlat := 18.5028; hlng := 73.8365 |}.
Definition Sahyadri : Hospital :=
  {| name := "Sahyadri Hospital Kothrud"; hlat := 18.5050; hlng := 73.8024 |}.
Definition Shashwat : Hospital :=
  {| name := "Shashwat Hospital"; hlat := 18.4965; hlng := 73.8202 |}.

Definition HOSPITALS : list Hospital := [Deenanath; Sahyadri; Shashwat].

(** [Math.atan2(y, x)] *)
Definition atan2 (y x : R) : R :=
  if Rlt_dec 0 x then atan (y / x)
  else if Rlt_dec x 0 then
    if Rle_dec 0 y then atan (y / x) + PI else atan (y / x) - PI
  else if Rlt_dec 0 y then PI / 2
  else if Rlt_dec y 0 then - (PI / 2)
  else 0.

Definition haversineKm (a b : LatLng) : R :=
  let R := 6371 in
  let dLat := ((lat b - lat a) * PI) / 180 in
  let dLng := ((lng b - lng a) * PI) / 180 in
  let h :=
    sin (dLat / 2) ^ 2 +
    cos ((lat a * PI) / 180) *
    cos ((lat b * PI) / 180) *
    sin (dLng / 2) ^ 2 in
  R * 2 * atan2 (R_sqrt.sqrt h) (R_sqrt.sqrt (1 - h)).

Definition position (h : Hospital) : LatLng := {| lat := hlat h; lng := hlng h |}.

(** The callback of [reduce]. *)
Definition closer (to : LatLng) (best h : Hospital) : Hospital :=
  if Rlt_dec (haversineKm (position h) to) (haversineKm (position best) to)
  then h else best.

(** [array.reduce(f)] without an initial value, on a list that is not
    empty ([default] stands for the exception thrown on an empty one). *)
Definition reduce {A} (f : A -> A -> A) (default : A) (l : list A) : A :=
  match l with
  | [] => default
  | x :: rest => fold_left f rest x
  end.

Definition closestHospital (to : LatLng) : Hospital :=
  reduce (closer to) Deenanath HOSPITALS.

(** The quantity under the square roots. *)
Definition hav (a b : LatLng) : R :=
  sin ((lat b - lat a) * PI / 180 / 2) ^ 2 +
  cos (lat a * PI / 180) * cos (lat b * PI / 180) *
  sin ((lng b - lng a) * PI / 180 / 2) ^ 2.

(** The distance the selection compares: from the hospital to the pickup. *)
Definition distanceTo (to : LatLng) (h : Hospital) : R := haversineKm (position h) to.

End Hospitals.

(** ** What the ETA advisory is meant to show *)
Module Advisory.
Import DriverPage.

(** The route a reply of the routing service carries, if any: no reply,
    a failed request, a body that is not JSON, a [null] body, or a body
    without a first route carry none. *)
Definition routeOf (incoming : list Reply) : option Route :=
  match incoming with
  | Parsed (BodyObject (Some (r :: _))) :: _ => Some r
  | _ => None
  end.

(** The origin of the request: the driver location the page already
    has, or else the position the browser reports. *)
Definition originOf (w : World) (reported : option LatLng) : option LatLng :=
  match driverLocation (page w) with
  | Some p => Some p
  | None => reported
  end.

(** The estimate shown for a route. *)
Definition estimate (r : Route) : ETA :=
  {| distance := JSNumber.toFixed1 (route_distance r / 1000)%float;
     time := JSNumber.interpolate (JSNumber.round (route_duration r / 60)%float) |}.

End Advisory.

(** ** Records filed by the intake pages *)
Module Intake.
Import Firestore.

(** The object literals that the three intake paths hand to [addDoc]. *)
Definition intake_record (data : Doc) : Prop :=
  (exists pId result, data = CallerPage.record pId result) \/
  (exists mciId color base64Image, data = ParamedicPage.mciRecord mciId color base64Image) \/
  (exists v, data = ParamedicPage.standardRecord v).

(** Record [id] of [c] is waiting, stamped by the server at [now], and
    returned by the dispatch queue's query. *)
Definition filed_waiting (c : Collection) (id : string) (now : Z) : Prop :=
  exists d,
    c !! id = Some d /\
    d !! "status" = Some (VStr "waiting") /\
    d !! "timestamp" = Some (VTimestamp {| Queue.seconds := now; Queue.nanoseconds := 0 |}) /\
    In (id, d) (queryWaiting c).

(** A handler run either leaves the store alone or adds one intake
    record to it. *)
Definition files_at_most_one (c c' : Collection) (newId : string) (now : Z) (ok : bool) : Prop :=
  c' = c \/ exists data, intake_record data /\ addDoc newId now ok data c = Some c'.

End Intake.

(** ** A small scenario used by the examples *)
Module Scenario.
Import Firestore DriverPage Dispatch.

(** One record filed by the caller page and resolved by the server. *)
Definition filed : Doc :=
  {[ "id" := VStr "CAL-101500";
     "triage" := VStr "RED";
     "status" := VStr "waiting";
     "patientLat" := VNum 18.5074;
     "patientLng" := VNum 73.8077;
     "timestamp" := VTimestamp {| Queue.seconds := 100; Queue.nanoseconds := 0 |} ]}.

Definition queue : Collection := {[ "d1" := filed ]}.

Definition driverAt : LatLng := {| lat := 18.5; lng := 73.8 |}.

Definition route : Route := {| route_distance := 1234; route_duration := 200 |}%float.

Definition routing : list Reply :=
  [Parsed (BodyObject (Some [route])); Parsed (BodyObject (Some [route]))].

(** A driver opens the card of the record.  The ETA effect runs twice:
    its first run stores the driver's position, which makes the effect
    run again and cancels the first run before its route comes back;
    the second run shows the estimate. *)
Definition openCard : list Action :=
  [Select "d1"; EtaEffect (Some driverAt) false true; EtaEffect None false false].

(** Two drivers open the same card; the first then takes the patient
    all the way to the hospital. *)
Definition twoDrivers : list (nat * Action) :=
  [(0%nat, Select "d1");
   (0%nat, EtaEffect (Some driverAt) false true); (0%nat, EtaEffect None false false);
   (1%nat, Select "d1");
   (1%nat, EtaEffect (Some driverAt) false true); (1%nat, EtaEffect None false false);
   (0%nat, Accept true); (0%nat, Loaded true); (0%nat, Delivered true)].

(** The driver page with the card of the record open. *)
Definition carded : World :=
  {| store := queue;
     page := {| selectedPatient := Some (toPatient ("d1", filed));
                isNavigating := false; navigationPhase := 1;
                driverLocation := Some driverAt;
                dispatchETA := Some {| distance := "1.2"; time := "3" |};
                isCalculatingETA := false |};
     replies := []; requests := []; console := [] |}.

(** A paramedic form with a heart rate out of range. *)
Definition tachycardic : ParamedicPage.World :=
  {| ParamedicPage.store := queue;
     ParamedicPage.vitals :=
       {| ParamedicPage.name := "A. Rao"; ParamedicPage.hr := "400";
          ParamedicPage.bp := "120/80"; ParamedicPage.spo2 := "97";
          ParamedicPage.notes := "" |};
     ParamedicPage.selectedColor := None;
     ParamedicPage.isUploading := false;
     ParamedicPage.toasts := [];
     ParamedicPage.console := [] |}.



End Scenario.

(** ** Colour coding of the queue cards (DriverPage and its list variant) *)
Module Colours.
Import Queue.

(** [getBorderColor] of src/pages/DriverPage.tsx (and of the map variant). *)
Definition getBorderColor (p : Patient) : string :=
  if eqLit (triage p) "RED" || eqLit (acuity p) "Critical" then "border-red-500"
  else if eqLit (triage p) "YELLOW" || eqLit (acuity p) "Urgent" then "border-yellow-500"
  else if eqLit (triage p) "GREEN" || eqLit (acuity p) "Routine" then "border-green-500"
  else "border-slate-500".

(** [getBadgeColor] of src/pages/DriverPage.tsx. *)
Definition getBadgeColor (p : Patient) : string :=
  if eqLit (triage p) "RED" || eqLit (acuity p) "Critical" then "bg-red-500 text-white"
  else if eqLit (triage p) "YELLOW" || eqLit (acuity p) "Urgent" then "bg-yellow-500 text-black"
  else if eqLit (triage p) "GREEN" || eqLit (acuity p) "Routine" then "bg-green-500 text-black"
  else "bg-slate-500 text-white".

(** [getBorderColor] of the list variant, with a colour for BLACK. *)
Definition getBorderColorMci (p : Patient) : string :=
  if eqLit (triage p) "RED" || eqLit (acuity p) "Critical" then "border-red-500"
  else if eqLit (triage p) "YELLOW" || eqLit (acuity p) "Urgent" then "border-yellow-500"
  else if eqLit (triage p) "GREEN" || eqLit (acuity p) "Routine" then "border-green-500"
  else if eqLit (triage p) "BLACK" then "border-gray-900"
  else "border-slate-500".

(** [getBadgeColor] of the list variant. *)
Definition getBadgeColorMci (p : Patient) : string :=
  if eqLit (triage p) "RED" || eqLit (acuity p) "Critical" then "bg-red-500 text-white"
  else if eqLit (triage p) "YELLOW" || eqLit (acuity p) "Urgent" then "bg-yellow-500 text-white"
  else if eqLit (triage p) "GREEN" || eqLit (acuity p) "Routine" then "bg-green-500 text-white"
  else if eqLit (triage p) "BLACK" then "bg-gray-900 text-slate-300"
  else "bg-slate-500 text-white".

End Colours.

(** ** The caller's dialogue as a sequence of messages *)
Module Dialogue.

(** One message with the store's part in the [addDoc] it may cause. *)
Record Message := {
  text : string;
  hhmmss : string;
  newId : string;
  now : Z;
  ok : bool
}.

Definition send (w : CallerPage.World) (m : Message) : CallerPage.World :=
  snd (CallerPage.handleSendMessage (text m) (hhmmss m) (newId m) (now m) (ok m) w).

Definition dialogue (messages : list Message) (w : CallerPage.World) : CallerPage.World :=
  fold_left send messages w.

(** A message that [handleSendMessage] does not drop for being blank. *)
Definition nonblank (m : Message) : bool := JS.truthy (JS.trim (text m)).

End Dialogue.

(** ** The dispatch PIN pad (DispatchLogin in src/pages/DriverPage.tsx) *)
Module DispatchLogin.

(** [pin] and [isShaking] are the component's state; [route] is where
    [navigate] was last sent, [errors] counts the error toasts and
    [timers] the pending 500 ms resets. *)
Record State := {
  pin : string;
  isShaking : bool;
  route : option string;
  errors : nat;
  timers : nat
}.

Definition initial : State :=
  {| pin := ""; isShaking := false; route := None; errors := 0; timers := 0 |}.

Definition keys : list string :=
  ["1"; "2"; "3"; "4"; "5"; "6"; "7"; "8"; "9"; ""; "0"; "delete"].

(** [prev.slice(0, -1)] *)
Fixpoint dropLast (s : string) : string :=
  match s with
  | EmptyString => EmptyString
  | String c EmptyString => EmptyString
  | String c s' => String c (dropLast s')
  end.

(** The effect on [pin]. *)
Definition pinEffect (st : State) : State :=
  if (String.length (pin st) =? 4)%nat then
    if String.eqb (pin st) "1111" then
      {| pin := pin st; isShaking := isShaking st; route := Some "/paramedic";
         errors := errors st; timers := timers st |}
    else if String.eqb (pin st) "2222" then
      {| pin := pin st; isShaking := isShaking st; route := Some "/driver";
         errors := errors st; timers := timers st |}
    else
      {| pin := pin st; isShaking := true; route := route st;
         errors := S (errors st); timers := S (timers st) |}
  else st.

(** [setPin] followed by the effect, which runs when [pin] changed. *)
Definition setPin (v : string) (st : State) : State :=
  if String.eqb v (pin st) then st
  else pinEffect {| pin := v; isShaking := isShaking st; route := route st;
                    errors := errors st; timers := timers st |}.

Definition handleKeyPress (num : string) (st : State) : State :=
  if (String.length (pin st) <? 4)%nat then setPin (pin st ++ num) st else st.

Definition handleDelete (st : State) : State := setPin (dropLast (pin st)) st.

(** A pending reset fires: [setIsShaking(false); setPin('')]. *)
Definition timerFires (st : State) : State :=
  match timers st with
  | O => st
  | S n =>
      setPin "" {| pin := pin st; isShaking := false; route := route st;
                   errors := errors st; timers := n |}
  end.

(** What the pad offers: a digit key, the delete key, and time passing. *)
Inductive Event :=
| Key (digit : string)
| Delete
| Timer.

Definition isDigitKey (k : string) : bool :=
  existsb (String.eqb k) ["1"; "2"; "3"; "4"; "5"; "6"; "7"; "8"; "9"; "0"].

(** One event; a key that is not on the pad is no event. *)
Definition step (e : Event) (st : State) : option State :=
  match e with
  | Key k => if isDigitKey k then Some (handleKeyPress k st) else None
  | Delete => Some (handleDelete st)
  | Timer => Some (timerFires st)
  end.

Fixpoint runEvents (events : list Event) (st : State) : option State :=
  match events with
  | [] => Some st
  | e :: rest =>
      match step e st with
      | Some st' => runEvents rest st'
      | None => None
      end
  end.

(** Where [navigate] was sent by a step from [st] to [st'], and when. *)
Definition routed (st st' : State) : Prop :=
  route st' = route st \/
  (pin st' = "1111" /\ route st' = Some "/paramedic") \/
  (pin st' = "2222" /\ route st' = Some "/driver").

End DispatchLogin.

(** ** The frame taken for a mass-casualty record (captureAndSubmit) *)
Module Capture.

Definition maxWidth : Z := 600.

(** The size of the canvas for a video of the given size:
    [if (width > maxWidth) { height = Math.round((height * maxWidth) / width); width = maxWidth }] *)
Definition canvasSize (width height : Z) : Z * Z :=
  if (maxWidth <? width)%Z then
    (maxWidth, DriverPage.mathRound (inject_Z (height * maxWidth) / inject_Z width)%Q)
  else (width, height).

End Capture.

(** ** The status handlers of the three driver pages *)
Module Handlers.
Import Eff DriverPage.

(** Each handler with the status it writes. *)
Definition statusHandlers : list ((bool -> M World unit) * string) :=
  [(handleAcceptDispatch, "driver_en_route");
   (DriverPage.handlePatientLoaded, "en_route_to_hospital");
   (handlePatientDelivered, "delivered");
   (DriverList.handlePatientLoaded, "loaded");
   (DriverMap.handlePatientLoaded, "loaded");
   (DriverMap.completeTransport, "delivered")].

End Handlers.

(** ** A driver whose routing service gives no route *)
Module Offline.
Import Firestore DriverPage Advisory.

(** The replies still to come carry no route. *)
Definition routeless (incoming : list Reply) : Prop :=
  Forall (fun r => routeOf [r] = None) incoming.

(** A main page that has no estimate and is not navigating, over a
    store that still holds the records of [c] as they were. *)
Definition offline (c : Collection) (w : World) : Prop :=
  routeless (replies w) /\ isNavigating (page w) = false /\ dispatchETA (page w) = None /\
  (forall id d, c !! id = Some d -> store w !! id = Some d).

End Offline.

(** * Properties *)

(** ** The triage decision tree *)
Module TriageProps.
Import JS Triage.







Example yes_mixed_case : yes "Oh YeS, he is" = true.
Proof. reflexivity. Qed.

Example yes_absent : yes "yep" = false.
Proof. reflexivity. Qed.


Lemma evaluateStep_table (step : nat) (answer : string) :
  evaluateStep step answer =
  match step, yes answer with
  | 0%nat, false | 1%nat, false | 2%nat, true => Some (endStates RED)
  | 3%nat, true | 4%nat, false => Some (endStates YELLOW)
  | 4%nat, true => Some (endStates GREEN)
  | _, _ => None
  end.
Proof.
  unfold evaluateStep.
  destruct step as [|[|[|[|[|n]]]]]; destruct (yes answer); reflexivity.
Qed.

(** C1.  Whatever the five answers, the iteration from step 0 stops at
    one of the steps 0 to 4 with the category and rank of the table: a
    non-yes at step 0 or 1 gives RED (rank 1), a yes at step 2 RED, a
    yes at step 3 YELLOW (rank 2), and step 4 gives GREEN (rank 3) on
    a yes and YELLOW otherwise.  The answers yes, yes, no, no, yes end
    in GREEN, and a first answer "no" ends in RED at step 0 whatever
    follows. *)
Theorem triage_terminates_with_table_category :
  (forall a0 a1 a2 a3 a4 : string,
      iterate 0 [a0; a1; a2; a3; a4] =
      Some (if negb (yes a0) then (0%nat, endStates RED)
            else if negb (yes a1) then (1%nat, endStates RED)
            else if yes a2 then (2%nat, endStates RED)
            else if yes a3 then (3%nat, endStates YELLOW)
            else if yes a4 then (4%nat, endStates GREEN)
            else (4%nat, endStates YELLOW))) /\
  (forall a0 a1 a2 a3 a4 : string,
      exists step result,
        iterate 0 [a0; a1; a2; a3; a4] = Some (step, result) /\
        (step <= 4)%nat /\
        result = endStates (triage_category result)) /\
  (priority_rank (endStates RED) = 1%Z /\
   priority_rank (endStates YELLOW) = 2%Z /\
   priority_rank (endStates GREEN) = 3%Z) /\
  iterate 0 ["yes"; "yes"; "no"; "no"; "yes"] = Some (4%nat, endStates GREEN) /\
  (forall later : list string,
      iterate 0 ("no" :: later) = Some (0%nat, endStates RED)).
Proof.
  assert (Htable : forall a0 a1 a2 a3 a4 : string,
      iterate 0 [a0; a1; a2; a3; a4] =
      Some (if negb (yes a0) then (0%nat, endStates RED)
            else if negb (yes a1) then (1%nat, endStates RED)
            else if yes a2 then (2%nat, endStates RED)
            else if yes a3 then (3%nat, endStates YELLOW)
            else if yes a4 then (4%nat, endStates GREEN)
            else (4%nat, endStates YELLOW))).
  { intros a0 a1 a2 a3 a4. cbn [iterate]. rewrite !evaluateStep_table.
    destruct (yes a0), (yes a1), (yes a2), (yes a3), (yes a4); reflexivity. }
  split; [exact Htable|]. split.
  - intros a0 a1 a2 a3 a4. rewrite Htable.
    destruct (yes a0), (yes a1), (yes a2), (yes a3), (yes a4); simpl;
      eexists _, _; (split; [reflexivity|]); (split; [lia | reflexivity]).
  - repeat split; reflexivity.
Qed.

(** The page's dialogue is that iteration: over messages that are not
    blank, the result it settles on is the one the iteration stops
    with, and later messages change nothing. *)
Lemma say_cases hhmmss newId now ok (w : CallerPage.World) (text : string) :
  CallerPage.triageResult w = None ->
  JS.truthy (JS.trim text) = true ->
  match evaluateStep (CallerPage.currentStep w) (JS.trim text) with
  | Some r =>
      CallerPage.triageResult (CallerPage.say hhmmss newId now ok w text) = Some r
  | None =>
      CallerPage.triageResult (CallerPage.say hhmmss newId now ok w text) = None /\
      CallerPage.currentStep (CallerPage.say hhmmss newId now ok w text)
      = S (CallerPage.currentStep w)
  end.
Proof.
  intros Hnone Htext.
  cbv [CallerPage.say CallerPage.handleSendMessage Eff.bind Eff.get Eff.tryCatch Eff.ret
       CallerPage.setTriageResult CallerPage.setCurrentStep Eff.modify
       CallerPage.awaitAddDoc CallerPage.consoleError].
  rewrite Htext, Hnone.
  destruct (evaluateStep (CallerPage.currentStep w) (JS.trim text)) as [r|]; cbn.
  - destruct (Firestore.addDoc newId now ok _ (CallerPage.store w)); reflexivity.
  - split; [exact Hnone | reflexivity].
Qed.

Lemma say_settled hhmmss newId now ok (w : CallerPage.World) (text : string) r :
  CallerPage.triageResult w = Some r ->
  CallerPage.say hhmmss newId now ok w text = w.
Proof.
  intros Hsome.
  cbv [CallerPage.say CallerPage.handleSendMessage Eff.bind Eff.get Eff.ret].
  rewrite Hsome. destruct (JS.truthy (JS.trim text)); reflexivity.
Qed.

Lemma dialogue_follows_iterate hhmmss newId now ok (answers : list string) :
  forall w : CallerPage.World,
    CallerPage.triageResult w = None ->
    Forall (fun text => JS.truthy (JS.trim text) = true) answers ->
    CallerPage.triageResult (fold_left (CallerPage.say hhmmss newId now ok) answers w)
    = option_map snd (iterate (CallerPage.currentStep w) (List.map JS.trim answers)).
Proof.
  induction answers as [|text rest IH]; intros w Hnone Hall.
  - exact Hnone.
  - inversion Hall as [|? ? Htext Hrest]; subst.
    pose proof (say_cases hhmmss newId now ok w text Hnone Htext) as Hsay.
    cbn [fold_left List.map iterate].
    destruct (evaluateStep (CallerPage.currentStep w) (JS.trim text)) as [r|].
    + clear IH. cbn [option_map snd].
      generalize dependent (CallerPage.say hhmmss newId now ok w text).
      intros w1 Hw1. clear Hnone Hall Htext.
      induction rest as [|t rest IHr]; [exact Hw1|].
      inversion Hrest; subst. cbn [fold_left].
      rewrite (say_settled hhmmss newId now ok w1 t r Hw1). auto.
    + destruct Hsay as [Hn Hstep]. rewrite (IH _ Hn Hrest), Hstep. reflexivity.
Qed.

End TriageProps.

(** ** The dispatch queue comparator *)
Module QueueProps.
Import Queue.
Local Open Scope Z_scope.

Lemma orElse_spec (x y : Z) :
  (x <> 0 /\ orElse x y = x) \/ (x = 0 /\ orElse x y = y).
Proof. unfold orElse. destruct (Z.eqb_spec x 0); auto. Qed.

Lemma secondsOrElseZero_eq (p : Patient) : secondsOrElseZero p = secondsOrZero p.
Proof.
  unfold secondsOrElseZero, secondsOrZero.
  destruct (orElse_spec (match timestamp p with Some t => seconds t | None => 0 end) 0)
    as [[_ ->] | [H ->]]; congruence.
Qed.

Lemma compare_key (a b : Patient) :
  compare a b = orElse (tier a - tier b) (secondsOrZero a - secondsOrZero b).
Proof. reflexivity. Qed.

Lemma compareMci_key (a b : Patient) :
  compareMci a b = orElse (getTier a - getTier b) (secondsOrZero a - secondsOrZero b).
Proof.
  unfold compareMci. cbv zeta. rewrite !secondsOrElseZero_eq.
  destruct (orElse_spec (getTier a - getTier b) (secondsOrZero a - secondsOrZero b))
    as [[H ->] | [H ->]];
    destruct (Z.eqb_spec (getTier a) (getTier b)); simpl; lia.
Qed.

Lemma compareMap_key (a b : Patient) :
  compareMap a b = orElse (tier a - tier b) (secondsOrZero a - secondsOrZero b).
Proof.
  unfold compareMap. cbv zeta. rewrite !secondsOrElseZero_eq.
  destruct (orElse_spec (tier a - tier b) (secondsOrZero a - secondsOrZero b))
    as [[H ->] | [H ->]];
    destruct (Z.eqb_spec (tier a) (tier b)); simpl; lia.
Qed.

(** A comparator that is the tier difference, or else the time
    difference, orders by tier and then by time. *)
Section Keyed.
Variable cmp : Patient -> Patient -> Z.
Variable t : Patient -> Z.
Hypothesis cmp_key :
  forall a b, cmp a b = orElse (t a - t b) (secondsOrZero a - secondsOrZero b).

Lemma keyed_lt (a b : Patient) : cmp a b < 0 <-> before t a b.
Proof.
  rewrite cmp_key. unfold before.
  destruct (orElse_spec (t a - t b) (secondsOrZero a - secondsOrZero b))
    as [[H ->] | [H ->]]; lia.
Qed.

Lemma keyed_le (a b : Patient) : cmp a b <= 0 <-> not_after t a b.
Proof.
  rewrite cmp_key. unfold not_after.
  destruct (orElse_spec (t a - t b) (secondsOrZero a - secondsOrZero b))
    as [[H ->] | [H ->]]; lia.
Qed.

Lemma keyed_eq (a b : Patient) :
  cmp a b = 0 <-> t a = t b /\ secondsOrZero a = secondsOrZero b.
Proof.
  rewrite cmp_key.
  destruct (orElse_spec (t a - t b) (secondsOrZero a - secondsOrZero b))
    as [[H ->] | [H ->]]; lia.
Qed.

Lemma not_after_trans (a b c : Patient) :
  not_after t a b -> not_after t b c -> not_after t a c.
Proof. unfold not_after. lia. Qed.

Lemma not_after_total (a b : Patient) : not_after t a b \/ not_after t b a.
Proof. unfold not_after. lia. Qed.

Lemma insert_perm (x : Patient) (l : list Patient) :
  Permutation (insert cmp x l) (x :: l).
Proof.
  induction l as [|y l IH]; simpl.
  - apply Permutation_refl.
  - destruct (cmp x y <=? 0).
    + apply Permutation_refl.
    + eapply perm_trans; [apply perm_skip, IH | apply perm_swap].
Qed.

Lemma sort_perm (l : list Patient) : Permutation (sort cmp l) l.
Proof.
  induction l as [|x l IH]; simpl.
  - apply perm_nil.
  - eapply perm_trans; [apply insert_perm | apply perm_skip, IH].
Qed.

Lemma insert_sorted (x : Patient) (l : list Patient) :
  StronglySorted (not_after t) l -> StronglySorted (not_after t) (insert cmp x l).
Proof.
  induction 1 as [|y l Hs IH Hall]; simpl.
  - constructor; [constructor | constructor].
  - destruct (Z.leb_spec (cmp x y) 0) as [Hle | Hgt].
    + apply keyed_le in Hle.
      constructor; [constructor; assumption|].
      constructor; [assumption|].
      eapply List.Forall_impl; [|exact Hall].
      intros z Hz. eapply not_after_trans; eassumption.
    + assert (Hyx : not_after t y x).
      { destruct (not_after_total x y) as [H | H]; [|exact H].
        apply keyed_le in H. lia. }
      constructor; [exact IH|].
      eapply Permutation_Forall; [symmetry; apply insert_perm|].
      constructor; assumption.
Qed.

Lemma sort_sorted (l : list Patient) : StronglySorted (not_after t) (sort cmp l).
Proof.
  induction l as [|x l IH]; simpl.
  - constructor.
  - apply insert_sorted, IH.
Qed.

Lemma sort_two (a b : Patient) : t a < t b -> sort cmp [b; a] = [a; b].
Proof.
  intros H. simpl.
  destruct (Z.leb_spec (cmp b a) 0) as [Hle | Hgt]; [|reflexivity].
  apply keyed_le in Hle. unfold not_after in Hle. lia.
Qed.

End Keyed.

Lemma eqLit_true (f : option string) (s : string) : eqLit f s = true <-> f = Some s.
Proof.
  unfold eqLit. destruct f as [x|]; [|split; discriminate].
  rewrite String.eqb_eq. split; congruence.
Qed.

Lemma label_dec (x y : option string) (s u : string) :
  eqLit x s || eqLit y u = true <-> x = Some s \/ y = Some u.
Proof. rewrite orb_true_iff, !eqLit_true. reflexivity. Qed.

Lemma getTier_cases (p : Patient) :
  (critical p -> getTier p = 1) /\
  (~ critical p -> urgent p -> getTier p = 2) /\
  (~ critical p -> ~ urgent p -> routine p -> getTier p = 3) /\
  (~ critical p -> ~ urgent p -> ~ routine p -> black p -> getTier p = 4) /\
  (~ critical p -> ~ urgent p -> ~ routine p -> ~ black p -> getTier p = 5).
Proof.
  unfold critical, urgent, routine, black, getTier.
  rewrite <- !label_dec, <- eqLit_true.
  destruct (eqLit (triage p) "RED" || eqLit (acuity p) "Critical")%bool;
  destruct (eqLit (triage p) "YELLOW" || eqLit (acuity p) "Urgent")%bool;
  destruct (eqLit (triage p) "GREEN" || eqLit (acuity p) "Routine")%bool;
  destruct (eqLit (triage p) "BLACK"); intuition congruence.
Qed.

Lemma tier_cases (p : Patient) :
  (critical p -> tier p = 1) /\
  (~ critical p -> urgent p -> tier p = 2) /\
  (~ critical p -> ~ urgent p -> routine p -> tier p = 3) /\
  (~ critical p -> ~ urgent p -> ~ routine p -> tier p = 5).
Proof.
  unfold critical, urgent, routine, tier.
  rewrite <- !label_dec.
  destruct (eqLit (triage p) "RED" || eqLit (acuity p) "Critical")%bool;
  destruct (eqLit (triage p) "YELLOW" || eqLit (acuity p) "Urgent")%bool;
  destruct (eqLit (triage p) "GREEN" || eqLit (acuity p) "Routine")%bool;
  intuition congruence.
Qed.

(** C2.  The tier is 1 for RED or Critical, else 2 for YELLOW or
    Urgent, else 3 for GREEN or Routine, else 4 for BLACK in the
    mass-casualty variant, else 5.  Each comparator puts [a] before [b]
    exactly when [a] has the lower tier, or the same tier and the
    earlier creation time (0 when the timestamp is absent), and ties
    exactly on equal tier and time; so the sorted queue is a
    rearrangement in that order, and a tier-1 record filed after a
    tier-2 record comes out first. *)
Theorem queue_ordered_by_tier_then_time :
  (forall p : Patient,
      (critical p -> tier p = 1 /\ getTier p = 1) /\
      (~ critical p -> urgent p -> tier p = 2 /\ getTier p = 2) /\
      (~ critical p -> ~ urgent p -> routine p -> tier p = 3 /\ getTier p = 3) /\
      (~ critical p -> ~ urgent p -> ~ routine p -> black p -> getTier p = 4) /\
      (~ critical p -> ~ urgent p -> ~ routine p -> ~ black p -> getTier p = 5) /\
      (~ critical p -> ~ urgent p -> ~ routine p -> tier p = 5) /\
      secondsOrZero p = match timestamp p with Some ts => seconds ts | None => 0 end) /\
  (forall a b : Patient,
      (compare a b < 0 <-> before tier a b) /\
      (compare a b = 0 <-> tier a = tier b /\ secondsOrZero a = secondsOrZero b) /\
      (compareMap a b < 0 <-> before tier a b) /\
      (compareMap a b = 0 <-> tier a = tier b /\ secondsOrZero a = secondsOrZero b) /\
      (compareMci a b < 0 <-> before getTier a b) /\
      (compareMci a b = 0 <-> getTier a = getTier b /\ secondsOrZero a = secondsOrZero b)) /\
  (forall data : list Patient,
      Permutation (sort compare data) data /\
      StronglySorted (not_after tier) (sort compare data) /\
      Permutation (sort compareMap data) data /\
      StronglySorted (not_after tier) (sort compareMap data) /\
      Permutation (sort compareMci data) data /\
      StronglySorted (not_after getTier) (sort compareMci data)) /\
  (forall a b : Patient,
      tier a = 1 -> tier b = 2 ->
      secondsOrZero b < secondsOrZero a ->
      sort compare [b; a] = [a; b] /\ sort compareMap [b; a] = [a; b]).
Proof.
  split; [|split; [|split]].
  - intros p.
    pose proof (tier_cases p) as (T1 & T2 & T3 & T5).
    pose proof (getTier_cases p) as (G1 & G2 & G3 & G4 & G5).
    repeat split; auto.
  - intros a b.
    pose proof (keyed_lt compare tier compare_key a b).
    pose proof (keyed_eq compare tier compare_key a b).
    pose proof (keyed_lt compareMap tier compareMap_key a b).
    pose proof (keyed_eq compareMap tier compareMap_key a b).
    pose proof (keyed_lt compareMci getTier compareMci_key a b).
    pose proof (keyed_eq compareMci getTier compareMci_key a b).
    tauto.
  - intros data.
    pose proof (sort_perm compare data).
    pose proof (sort_sorted compare tier compare_key data).
    pose proof (sort_perm compareMap data).
    pose proof (sort_sorted compareMap tier compareMap_key data).
    pose proof (sort_perm compareMci data).
    pose proof (sort_sorted compareMci getTier compareMci_key data).
    tauto.
  - intros a b Ha Hb _. split.
    + apply (sort_two compare tier compare_key). lia.
    + apply (sort_two compareMap tier compareMap_key). lia.
Qed.

Lemma queue_scenario_witness :
  let urgent_first :=
    {| docId := "b"; status := "waiting"; triage := Some "YELLOW"; acuity := None;
       timestamp := Some {| seconds := 100; nanoseconds := 0 |};
       patientLat := None; patientLng := None |} in
  let critical_later :=
    {| docId := "a"; status := "waiting"; triage := None; acuity := Some "Critical";
       timestamp := Some {| seconds := 200; nanoseconds := 0 |};
       patientLat := None; patientLng := None |} in
  tier critical_later = 1 /\ tier urgent_first = 2 /\
  secondsOrZero urgent_first < secondsOrZero critical_later /\
  sort compare [urgent_first; critical_later] = [critical_later; urgent_first].
Proof.
  cbv zeta. split; [reflexivity|]. split; [reflexivity|]. split; [reflexivity|].
  exact (proj1 (proj2 (proj2 (proj2 queue_ordered_by_tier_then_time))
                  {| docId := "a"; status := "waiting"; triage := None;
                     acuity := Some "Critical";
                     timestamp := Some {| seconds := 200; nanoseconds := 0 |};
                     patientLat := None; patientLng := None |}
                  {| docId := "b"; status := "waiting"; triage := Some "YELLOW";
                     acuity := None;
                     timestamp := Some {| seconds := 100; nanoseconds := 0 |};
                     patientLat := None; patientLng := None |}
                  eq_refl eq_refl eq_refl)).
Defined.

End QueueProps.

(** ** Reasoning about effectful code: what every run preserves *)
Module EffProps.
Import Eff.

Section Preserve.
Context {S : Type} (R : S -> S -> Prop).
Hypothesis R_refl : forall s, R s s.
Hypothesis R_trans : forall a b c, R a b -> R b c -> R a c.

Lemma preserves_ret {A} (a : A) : preserves R (ret a).
Proof. intros s. apply R_refl. Qed.

Lemma preserves_throw {A} (e : string) : preserves R (@throw S A e).
Proof. intros s. apply R_refl. Qed.

Lemma preserves_get : preserves R (@get S).
Proof. intros s. apply R_refl. Qed.

Lemma preserves_modify (f : S -> S) : (forall s, R s (f s)) -> preserves R (modify f).
Proof. intros H s. apply H. Qed.

Lemma preserves_bind {A B} (m : M S A) (k : A -> M S B) :
  preserves R m -> (forall a, preserves R (k a)) -> preserves R (bind m k).
Proof.
  intros Hm Hk s. unfold bind. specialize (Hm s).
  destruct (m s) as [[a | e] s']; simpl in *; [|exact Hm].
  eapply R_trans; [exact Hm | apply Hk].
Qed.

Lemma preserves_tryCatch {A} (m : M S A) (h : string -> M S A) :
  preserves R m -> (forall e, preserves R (h e)) -> preserves R (tryCatch m h).
Proof.
  intros Hm Hh s. unfold tryCatch. specialize (Hm s).
  destruct (m s) as [[a | e] s']; simpl in *; [exact Hm|].
  eapply R_trans; [exact Hm | apply Hh].
Qed.

Lemma preserves_tryFinally {A} (m : M S A) (f : M S unit) :
  preserves R m -> preserves R f -> preserves R (tryFinally m f).
Proof.
  intros Hm Hf s. unfold tryFinally. specialize (Hm s).
  destruct (m s) as [r s']. specialize (Hf s').
  destruct (f s') as [[u | e] s'']; simpl in *; eapply R_trans; eassumption.
Qed.

End Preserve.

End EffProps.

(** ** Driver updates and the severity fields *)
Module SeverityProps.
Import Eff EffProps Firestore DriverPage Dispatch.

Lemma keeps_refl w : keeps_severity w w.
Proof. intros id _. reflexivity. Qed.

Lemma keeps_trans a b c : keeps_severity a b -> keeps_severity b c -> keeps_severity a c.
Proof.
  intros Hab Hbc id Hid.
  assert (Hb : is_Some (store b !! id)).
  { specialize (Hab id Hid). unfold severityOf in Hab.
    destruct Hid as [d Hd]. rewrite Hd in Hab.
    destruct (store b !! id); [eauto | discriminate]. }
  rewrite (Hbc id Hb). apply Hab, Hid.
Qed.

Abbreviation keeps := (preserves keeps_severity).

Lemma keeps_setPage f : keeps (setPage f).
Proof. apply preserves_modify. intros w id _. reflexivity. Qed.

Lemma keeps_consoleError msg : keeps (consoleError msg).
Proof. apply preserves_modify. intros w id _. reflexivity. Qed.

(** An update that names neither severity field leaves both as they
    were, in the updated record and in every other. *)
Lemma updateDoc_severity id fields ok c c' :
  fields !! "triage" = None -> fields !! "acuity" = None ->
  updateDoc id fields ok c = Some c' ->
  forall id', severityOf c' id' = severityOf c id'.
Proof.
  intros Ht Ha Hup id'. unfold updateDoc in Hup.
  destruct ok; [|discriminate].
  destruct (c !! id) as [d|] eqn:Hd; [|discriminate].
  injection Hup as <-. unfold severityOf.
  destruct (decide (id = id')) as [<- | Hne].
  - rewrite lookup_insert_eq, Hd.
    rewrite !lookup_union_r by assumption. reflexivity.
  - rewrite lookup_insert_ne by assumption. reflexivity.
Qed.

Lemma keeps_awaitUpdateDoc id fields ok :
  fields !! "triage" = None -> fields !! "acuity" = None ->
  keeps (awaitUpdateDoc id fields ok).
Proof.
  intros Ht Ha w. unfold awaitUpdateDoc.
  destruct (updateDoc id fields ok (store w)) as [c|] eqn:Hup; simpl.
  - intros id' _. eapply updateDoc_severity; eassumption.
  - apply keeps_refl.
Qed.

(** A new record does not touch the ones already stored. *)
Lemma addDoc_severity newId now ok data c c' :
  addDoc newId now ok data c = Some c' -> same_severity c c'.
Proof.
  unfold addDoc. destruct ok; [|discriminate].
  destruct (c !! newId) eqn:Hnew; [discriminate|].
  injection 1 as <-. intros id [d Hid]. unfold severityOf.
  rewrite lookup_insert_ne by congruence. reflexivity.
Qed.

Lemma keeps_fetch from to : keeps (fetch from to).
Proof.
  intros w. unfold fetch. destruct (replies w) as [|[] ?]; intros id _; reflexivity.
Qed.

Ltac keeps_step :=
  lazymatch goal with
  | |- preserves _ (setPage _) => apply keeps_setPage
  | |- preserves _ (consoleError _) => apply keeps_consoleError
  | |- preserves _ (fetch _ _) => apply keeps_fetch
  | |- preserves _ (awaitUpdateDoc _ _ _) => apply keeps_awaitUpdateDoc; reflexivity
  | |- preserves _ (ret _) => apply (preserves_ret keeps_severity keeps_refl)
  | |- preserves _ (throw _) => apply (preserves_throw keeps_severity keeps_refl)
  | |- preserves _ get => apply (preserves_get keeps_severity keeps_refl)
  | |- preserves _ (bind _ _) => apply (preserves_bind keeps_severity keeps_trans); [|intros ?]
  | |- preserves _ (tryCatch _ _) =>
      apply (preserves_tryCatch keeps_severity keeps_trans); [|intros ?]
  | |- preserves _ (tryFinally _ _) => apply (preserves_tryFinally keeps_severity keeps_trans)
  | |- preserves _ (match ?x with _ => _ end) => destruct x
  end.

Ltac keeps_all := repeat keeps_step.

Lemma keeps_accept ok : keeps (handleAcceptDispatch ok).
Proof.
  unfold handleAcceptDispatch, setNavigationPhase, setIsNavigating. keeps_all.
Qed.

Lemma keeps_loaded ok : keeps (DriverPage.handlePatientLoaded ok).
Proof. unfold DriverPage.handlePatientLoaded, setNavigationPhase. keeps_all. Qed.

Lemma keeps_delivered ok : keeps (handlePatientDelivered ok).
Proof.
  unfold handlePatientDelivered, setNavigationPhase, setIsNavigating,
    setSelectedPatient, setDriverLocation, setDispatchETA. keeps_all.
Qed.

Lemma keeps_tick q reported ok : keeps (trackingTick q reported ok).
Proof. unfold trackingTick, getPosition, setDriverLocation. keeps_all. Qed.

Lemma keeps_list_loaded ok : keeps (DriverList.handlePatientLoaded ok).
Proof. unfold DriverList.handlePatientLoaded, setSelectedPatient. keeps_all. Qed.

Lemma keeps_map_loaded ok : keeps (DriverMap.handlePatientLoaded ok).
Proof. unfold DriverMap.handlePatientLoaded, setIsNavigating. keeps_all. Qed.

Lemma keeps_complete ok : keeps (DriverMap.completeTransport ok).
Proof.
  unfold DriverMap.completeTransport, setSelectedPatient, setIsNavigating,
    setDriverLocation. keeps_all.
Qed.

Lemma keeps_etaEffect reported c1 c2 : keeps (etaEffect reported c1 c2).
Proof.
  unfold etaEffect, calculateETA, fetchOsrmRoute, json, getRoutes, getPosition,
    setDispatchETA, setIsCalculatingETA, setDriverLocation.
  keeps_all.
Qed.

Lemma exec_keeps (m : M World unit) (w w' : World) :
  keeps m -> exec m w = Some w' -> keeps_severity w w'.
Proof. intros Hm H. injection H as <-. apply Hm. Qed.

Ltac keeps_handler :=
  lazymatch goal with
  | |- keeps (setSelectedPatient _) => apply keeps_setPage
  | |- keeps (etaEffect _ _ _) => apply keeps_etaEffect
  | |- keeps (handleAcceptDispatch _) => apply keeps_accept
  | |- keeps (DriverPage.handlePatientLoaded _) => apply keeps_loaded
  | |- keeps (handlePatientDelivered _) => apply keeps_delivered
  | |- keeps (trackingTick _ _ _) => apply keeps_tick
  | |- keeps (DriverList.handlePatientLoaded _) => apply keeps_list_loaded
  | |- keeps (DriverMap.handlePatientLoaded _) => apply keeps_map_loaded
  | |- keeps (DriverMap.completeTransport _) => apply keeps_complete
  end.

Lemma step_keeps v a w w' : step v a w = Some w' -> keeps_severity w w'.
Proof.
  destruct a; cbn [step]; intros H.
  1-7: repeat case_match; try discriminate H;
       (eapply exec_keeps; [|exact H]); keeps_handler.
  destruct (addDoc newId now true data (store w)) as [c|] eqn:Hadd; [|discriminate].
  injection H as <-. unfold keeps_severity. simpl.
  eapply addDoc_severity; eassumption.
Qed.

Lemma sharedStep_keeps_severity v who a s s' :
  sharedStep v who a s = Some s' -> same_severity (shared s) (shared s').
Proof.
  unfold sharedStep. destruct (clients s !! who) as [w|]; [|discriminate].
  destruct (step v a (withStore (shared s) w)) as [w'|] eqn:Hstep; [|discriminate].
  injection 1 as <-. apply step_keeps in Hstep. exact Hstep.
Qed.

(** C9.  Whatever record is in the store, accepting a dispatch, marking
    the patient loaded or delivered (in each of the three driver pages)
    and the live position update leave its triage and acuity fields as
    they were; so does every step a driver client can take, a newly
    filed record included. *)
Theorem severity_untouched_after_creation :
  forall (w : World) (id : string),
    is_Some (store w !! id) ->
    (forall ok, severityOf (store (snd (handleAcceptDispatch ok w))) id
                = severityOf (store w) id) /\
    (forall ok, severityOf (store (snd (DriverPage.handlePatientLoaded ok w))) id
                = severityOf (store w) id) /\
    (forall ok, severityOf (store (snd (handlePatientDelivered ok w))) id
                = severityOf (store w) id) /\
    (forall q reported ok, severityOf (store (snd (trackingTick q reported ok w))) id
                           = severityOf (store w) id) /\
    (forall ok, severityOf (store (snd (DriverList.handlePatientLoaded ok w))) id
                = severityOf (store w) id) /\
    (forall ok, severityOf (store (snd (DriverMap.handlePatientLoaded ok w))) id
                = severityOf (store w) id) /\
    (forall ok, severityOf (store (snd (DriverMap.completeTransport ok w))) id
                = severityOf (store w) id) /\
    (forall v a w', step v a w = Some w' ->
                    severityOf (store w') id = severityOf (store w) id).
Proof.
  intros w id Hid. repeat split.
  - intros ok. apply keeps_accept, Hid.
  - intros ok. apply keeps_loaded, Hid.
  - intros ok. apply keeps_delivered, Hid.
  - intros q reported ok. apply keeps_tick, Hid.
  - intros ok. apply keeps_list_loaded, Hid.
  - intros ok. apply keeps_map_loaded, Hid.
  - intros ok. apply keeps_complete, Hid.
  - intros v a w' Hstep. apply (step_keeps v a w w' Hstep), Hid.
Qed.

Lemma severity_witness :
  is_Some (store Scenario.carded !! "d1") /\
  severityOf (store (snd (handleAcceptDispatch true Scenario.carded))) "d1"
  = severityOf (store Scenario.carded) "d1".
Proof.
  assert (Hid : is_Some (store Scenario.carded !! "d1")).
  { exists Scenario.filed. apply lookup_singleton_eq. }
  split; [exact Hid|].
  exact (proj1 (severity_untouched_after_creation Scenario.carded "d1" Hid) true).
Defined.

Example accept_keeps_triage :
  severityOf (store (snd (handleAcceptDispatch true Scenario.carded))) "d1"
  = Some (Some (VStr "RED"), None) /\
  statusOf (store (snd (handleAcceptDispatch true Scenario.carded))) "d1"
  = Some "driver_en_route".
Proof. vm_compute. split; reflexivity. Qed.

End SeverityProps.

(** ** Status updates by driver clients *)
Module DispatchProps.
Import Eff EffProps Firestore DriverPage Dispatch.

Lemma advanced_forward c c' id : advanced c c' id -> forward c c' id.
Proof. intros H. right. exact H. Qed.

(** *** The store operations and the status field *)

Lemma updateDoc_exists id fields c :
  is_Some (c !! id) -> is_Some (updateDoc id fields true c).
Proof. intros [d Hd]. unfold updateDoc. rewrite Hd. eauto. Qed.

Lemma statusOf_is_Some c id : is_Some (statusOf c id) -> is_Some (c !! id).
Proof. unfold statusOf. destruct (c !! id); [eauto | intros [? H]; discriminate H]. Qed.

Lemma updateDoc_status id s ok c c' :
  updateDoc id {[ "status" := VStr s ]} ok c = Some c' ->
  statusOf c' id = Some s /\
  forall id', id' <> id -> statusOf c' id' = statusOf c id'.
Proof.
  unfold updateDoc. destruct ok; [|discriminate].
  destruct (c !! id) as [d|] eqn:Hd; [|discriminate].
  injection 1 as <-. unfold statusOf, str. split.
  - rewrite lookup_insert_eq.
    rewrite (lookup_union_Some_l _ d "status" (VStr s)); [reflexivity|].
    apply lookup_singleton_eq.
  - intros id' Hne. rewrite lookup_insert_ne by congruence. reflexivity.
Qed.

Lemma updateDoc_keeps_status id fields ok c c' :
  fields !! "status" = None ->
  updateDoc id fields ok c = Some c' ->
  forall id', statusOf c' id' = statusOf c id'.
Proof.
  intros Hf. unfold updateDoc. destruct ok; [|discriminate].
  destruct (c !! id) as [d|] eqn:Hd; [|discriminate].
  injection 1 as <-. intros id'. unfold statusOf, str.
  destruct (decide (id = id')) as [<- | Hne].
  - rewrite lookup_insert_eq, Hd, lookup_union_r by assumption. reflexivity.
  - rewrite lookup_insert_ne by assumption. reflexivity.
Qed.

Lemma addDoc_keeps_status newId now ok data c c' id :
  addDoc newId now ok data c = Some c' ->
  is_Some (c !! id) -> statusOf c' id = statusOf c id.
Proof.
  unfold addDoc. destruct ok; [|discriminate].
  destruct (c !! newId) eqn:Hnew; [discriminate|].
  injection 1 as <-. intros [d Hd]. unfold statusOf.
  rewrite lookup_insert_ne by congruence. reflexivity.
Qed.

(** A card of the queue shows a record whose stored status is waiting. *)
Lemma findPatient_waiting id c q :
  findPatient id c = Some q -> statusOf c (Queue.docId q) = Some "waiting".
Proof.
  unfold findPatient. intros H. apply List.find_some in H as [Hin _].
  unfold snapshot in Hin.
  eapply Permutation_in in Hin; [|apply QueueProps.sort_perm].
  apply List.in_map_iff in Hin as ([k d] & <- & Hin).
  unfold queryWaiting in Hin. apply List.filter_In in Hin as [Hin Hw].
  apply list_elem_of_In, elem_of_map_to_list in Hin.
  simpl in *. unfold statusOf. rewrite Hin.
  unfold isWaiting in Hw. destruct (str d "status") as [s|]; [|discriminate].
  apply String.eqb_eq in Hw. congruence.
Qed.

(** *** What the ETA effect leaves alone *)

Lemma same_core_refl w : same_core w w.
Proof. repeat split. Qed.

Lemma same_core_trans a b c : same_core a b -> same_core b c -> same_core a c.
Proof. unfold same_core. intuition congruence. Qed.

Lemma fetch_core from to : preserves same_core (fetch from to).
Proof.
  intros w. unfold fetch. destruct (replies w) as [|[] ?]; repeat split.
Qed.

Ltac core_step :=
  lazymatch goal with
  | |- preserves _ (ret _) => apply (preserves_ret same_core same_core_refl)
  | |- preserves _ (throw _) => apply (preserves_throw same_core same_core_refl)
  | |- preserves _ get => apply (preserves_get same_core same_core_refl)
  | |- preserves _ (modify _) => apply (preserves_modify same_core); intros ?; repeat split
  | |- preserves _ (fetch _ _) => apply fetch_core
  | |- preserves _ (bind _ _) => apply (preserves_bind same_core same_core_trans); [|intros ?]
  | |- preserves _ (tryCatch _ _) =>
      apply (preserves_tryCatch same_core same_core_trans); [|intros ?]
  | |- preserves _ (tryFinally _ _) => apply (preserves_tryFinally same_core same_core_trans)
  | |- preserves _ (match ?x with _ => _ end) => destruct x
  end.

Lemma etaEffect_core reported c1 c2 : preserves same_core (etaEffect reported c1 c2).
Proof.
  unfold etaEffect, calculateETA, fetchOsrmRoute, json, getRoutes, getPosition,
    setDispatchETA, setIsCalculatingETA, setDriverLocation, setPage, consoleError.
  repeat core_step.
Qed.

(** *** One client: the handlers and the invariant *)

Ltac status_handler_tac :=
  intros ok w q Hsel;
  cbv [handleAcceptDispatch DriverPage.handlePatientLoaded handlePatientDelivered
       DriverList.handlePatientLoaded DriverMap.handlePatientLoaded
       DriverMap.completeTransport
       bind get tryCatch ret awaitUpdateDoc setNavigationPhase setIsNavigating
       setSelectedPatient setDriverLocation setDispatchETA setPage modify consoleError
       withPage withStore];
  rewrite Hsel;
  destruct (updateDoc (Queue.docId q) _ ok (store w)); cbn; [reflexivity | split; reflexivity].

Lemma accept_shape :
  status_handler handleAcceptDispatch "driver_en_route"
    (fun p => {| selectedPatient := selectedPatient p; isNavigating := true;
                 navigationPhase := 1; driverLocation := driverLocation p;
                 dispatchETA := dispatchETA p; isCalculatingETA := isCalculatingETA p |}).
Proof. status_handler_tac. Qed.

Lemma loaded_shape :
  status_handler DriverPage.handlePatientLoaded "en_route_to_hospital"
    (fun p => {| selectedPatient := selectedPatient p; isNavigating := isNavigating p;
                 navigationPhase := 2; driverLocation := driverLocation p;
                 dispatchETA := dispatchETA p; isCalculatingETA := isCalculatingETA p |}).
Proof. status_handler_tac. Qed.

Lemma delivered_shape :
  status_handler handlePatientDelivered "delivered"
    (fun p => {| selectedPatient := None; isNavigating := false;
                 navigationPhase := 1; driverLocation := None;
                 dispatchETA := None; isCalculatingETA := isCalculatingETA p |}).
Proof. status_handler_tac. Qed.

Lemma list_loaded_shape :
  status_handler DriverList.handlePatientLoaded "loaded"
    (fun p => {| selectedPatient := None; isNavigating := isNavigating p;
                 navigationPhase := navigationPhase p; driverLocation := driverLocation p;
                 dispatchETA := dispatchETA p; isCalculatingETA := isCalculatingETA p |}).
Proof. status_handler_tac. Qed.

Lemma map_loaded_shape :
  status_handler DriverMap.handlePatientLoaded "loaded"
    (fun p => {| selectedPatient := selectedPatient p; isNavigating := true;
                 navigationPhase := navigationPhase p; driverLocation := driverLocation p;
                 dispatchETA := dispatchETA p; isCalculatingETA := isCalculatingETA p |}).
Proof. status_handler_tac. Qed.

Lemma complete_shape :
  status_handler DriverMap.completeTransport "delivered"
    (fun p => {| selectedPatient := None; isNavigating := false;
                 navigationPhase := navigationPhase p; driverLocation := None;
                 dispatchETA := dispatchETA p; isCalculatingETA := isCalculatingETA p |}).
Proof. status_handler_tac. Qed.

Lemma status_handler_step m s f ok w w' q o i j :
  status_handler m s f ->
  selectedPatient (page w) = Some q ->
  statusOf (store w) (Queue.docId q) = Some o ->
  stage o = Some i -> stage s = Some j -> (i < j)%nat ->
  exec (m ok) w = Some w' ->
  (forall id, forward (store w) (store w') id) /\
  (if ok
   then advanced (store w) (store w') (Queue.docId q) /\
        page w' = f (page w) /\ statusOf (store w') (Queue.docId q) = Some s
   else store w' = store w /\ page w' = page w).
Proof.
  intros Hm Hsel Ho Hi Hj Hlt Hexec. injection Hexec as <-.
  specialize (Hm ok w q Hsel).
  destruct ok.
  - destruct (updateDoc_exists (Queue.docId q) {[ "status" := VStr s ]} (store w))
      as [c Hc].
    { apply statusOf_is_Some. rewrite Ho. eauto. }
    rewrite Hc in Hm. rewrite Hm. simpl.
    apply updateDoc_status in Hc as [Hnew Hother].
    assert (Hadv : advanced (store w) c (Queue.docId q)).
    { exists o, s, i, j. auto. }
    repeat split; auto.
    intros id. destruct (decide (id = Queue.docId q)) as [-> | Hne].
    + right. exact Hadv.
    + left. apply Hother, Hne.
  - unfold updateDoc in Hm. destruct Hm as [Hst Hpg].
    repeat split; auto. intros id. left. rewrite Hst. reflexivity.
Qed.

Lemma trackingTick_statuses q reported ok w :
  (forall id, statusOf (store (snd (trackingTick q reported ok w))) id = statusOf (store w) id) /\
  selectedPatient (page (snd (trackingTick q reported ok w))) = selectedPatient (page w) /\
  isNavigating (page (snd (trackingTick q reported ok w))) = isNavigating (page w) /\
  navigationPhase (page (snd (trackingTick q reported ok w))) = navigationPhase (page w).
Proof.
  cbv [trackingTick getPosition bind tryCatch ret throw setDriverLocation setPage modify
       awaitUpdateDoc consoleError].
  destruct reported as [driver|]; cbn; [|repeat split].
  destruct (updateDoc (Queue.docId q) _ ok (store w)) as [c|] eqn:Hup; cbn;
    repeat split.
  intros id. eapply updateDoc_keeps_status; [|exact Hup]. reflexivity.
Qed.

(** [consistent] reads the statuses, the selection and the navigation
    state only. *)
Lemma consistent_transfer v w w' :
  (forall q, selectedPatient (page w) = Some q ->
             statusOf (store w') (Queue.docId q) = statusOf (store w) (Queue.docId q)) ->
  selectedPatient (page w') = selectedPatient (page w) ->
  isNavigating (page w') = isNavigating (page w) ->
  navigationPhase (page w') = navigationPhase (page w) ->
  consistent v w -> consistent v w'.
Proof.
  unfold consistent, expected. intros Hst Hsel Hnav Hph.
  rewrite Hsel, Hnav, Hph.
  destruct (selectedPatient (page w)) as [q|]; [|auto].
  rewrite (Hst q eq_refl). auto.
Qed.

Lemma consistent_selected v w :
  consistent v w -> v <> ListPage -> isNavigating (page w) = true ->
  exists q, selectedPatient (page w) = Some q /\
            statusOf (store w) (Queue.docId q) = Some (expected v (page w)).
Proof.
  unfold consistent. intros H Hv Hnav.
  destruct (selectedPatient (page w)) as [q|]; [eauto|].
  destruct H; congruence.
Qed.

Lemma quiet_step_ok v a w w' :
  writes_status a = false ->
  (forall id, is_Some (store w !! id) -> statusOf (store w') id = statusOf (store w) id) ->
  consistent v w' -> step_ok v a w w'.
Proof.
  intros Ha Hst Hc. split; [exact Hc|]. split.
  - intros id Hid. left. apply Hst, Hid.
  - rewrite Ha. discriminate.
Qed.

(** A status action whose handler has the common shape, taken from a
    state where the selected record stands at [o], earlier than [s]. *)
Lemma status_step_ok v a m s f ok w w' q o i j :
  status_handler m s f ->
  selectedPatient (page w) = Some q ->
  statusOf (store w) (Queue.docId q) = Some o ->
  stage o = Some i -> stage s = Some j -> (i < j)%nat ->
  (writes_status a = true -> ok = true) ->
  consistent v w ->
  (forall w1, page w1 = f (page w) ->
              statusOf (store w1) (Queue.docId q) = Some s -> consistent v w1) ->
  exec (m ok) w = Some w' ->
  step_ok v a w w'.
Proof.
  intros Hm Hsel Ho Hi Hj Hlt Hok Hc Hafter Hexec.
  destruct (status_handler_step m s f ok w w' q o i j Hm Hsel Ho Hi Hj Hlt Hexec)
    as [Hfw Hres].
  split; [|split].
  - destruct ok.
    + destruct Hres as (_ & Hpage & Hst). apply Hafter; assumption.
    + destruct Hres as [Hst Hpage].
      eapply consistent_transfer; [| | | |exact Hc]; try (rewrite Hpage; reflexivity).
      intros. rewrite Hst. reflexivity.
  - intros id _. apply Hfw.
  - intros Ha. rewrite (Hok Ha) in Hres. destruct Hres as [Hadv _]. eauto.
Qed.

Lemma step_consistent v a w w' :
  consistent v w -> step v a w = Some w' -> step_ok v a w w'.
Proof.
  intros Hc Hstep. pose proof Hc as Hc0. destruct a; cbn [step] in Hstep.
  - (* Select *)
    assert (Hsel : exists q, findPatient id (store w) = Some q /\
                     (v = ListPage \/ isNavigating (page w) = false) /\
                     w' = snd (setSelectedPatient (Some q) w)).
    { destruct v, (isNavigating (page w)); try discriminate Hstep;
        destruct (findPatient id (store w)) as [q|]; try discriminate Hstep;
        injection Hstep as <-; eauto. }
    destruct Hsel as (q & Hfind & Hv & ->).
    apply quiet_step_ok; [reflexivity | reflexivity |].
    unfold consistent, expected. cbn.
    rewrite (findPatient_waiting _ _ _ Hfind).
    destruct Hv as [-> | ->]; [reflexivity | destruct v; reflexivity].
  - (* Close *)
    assert (Hcl : (v = ListPage \/ isNavigating (page w) = false) /\
                  w' = snd (setSelectedPatient None w)).
    { destruct v, (isNavigating (page w)), (selectedPatient (page w));
        try discriminate Hstep; injection Hstep as <-; auto. }
    destruct Hcl as (Hv & ->).
    apply quiet_step_ok; [reflexivity | reflexivity |].
    unfold consistent. cbn. exact Hv.
  - (* EtaEffect *)
    destruct v; try discriminate Hstep. injection Hstep as <-.
    destruct (etaEffect_core reported cancelledAtPosition cancelled w)
      as (Hst & Hsel & Hnav & Hph).
    apply quiet_step_ok; [reflexivity | intros; rewrite Hst; reflexivity |].
    eapply consistent_transfer; [| | | |exact Hc]; try assumption.
    intros. rewrite Hst. reflexivity.
  - (* Accept *)
    destruct v; try discriminate Hstep.
    destruct (isNavigating (page w)) eqn:Hnav; try discriminate Hstep.
    destruct (hasSelection (page w) && hasEta (page w)) eqn:Hen; try discriminate Hstep.
    unfold hasSelection in Hen. unfold consistent, expected in Hc. rewrite Hnav in Hc.
    destruct (selectedPatient (page w)) as [q|] eqn:Hsel; [|discriminate Hen].
    eapply (status_step_ok Main (Accept ok) _ _ _ ok w w' q "waiting" 0 1 accept_shape);
      try eassumption; try reflexivity; try lia.
    + destruct ok; [reflexivity | discriminate].
    + intros w1 Hp Hs. unfold consistent, expected. rewrite Hp. cbn.
      rewrite Hsel. exact Hs.
  - (* Loaded *)
    destruct v.
    + destruct (isNavigating (page w)) eqn:Hnav; try discriminate Hstep.
      destruct (navigationPhase (page w) =? 1)%Z eqn:Hph; try discriminate Hstep.
      destruct (consistent_selected Main w Hc ltac:(discriminate) Hnav) as (q & Hsel & Hst).
      unfold expected in Hst. rewrite Hnav, Hph in Hst. cbn in Hstep.
      eapply (status_step_ok Main (Loaded ok) _ _ _ ok w w' q "driver_en_route" 1 2
                loaded_shape);
        try eassumption; try reflexivity; try lia.
      * destruct ok; [reflexivity | discriminate].
      * intros w1 Hp Hs. unfold consistent, expected. rewrite Hp. cbn.
        rewrite Hsel, Hnav. exact Hs.
    + destruct (isNavigating (page w)) eqn:Hnav; try discriminate Hstep.
      unfold hasSelection in Hstep. unfold consistent, expected in Hc. rewrite Hnav in Hc.
      destruct (selectedPatient (page w)) as [q|] eqn:Hsel; [|discriminate Hstep].
      cbn in Hstep.
      eapply (status_step_ok MapPage (Loaded ok) _ _ _ ok w w' q "waiting" 0 2
                map_loaded_shape);
        try eassumption; try reflexivity; try lia.
      * destruct ok; [reflexivity | discriminate].
      * intros w1 Hp Hs. unfold consistent, expected. rewrite Hp. cbn.
        rewrite Hsel. exact Hs.
    + unfold hasSelection in Hstep. unfold consistent, expected in Hc.
      destruct (selectedPatient (page w)) as [q|] eqn:Hsel; [|discriminate Hstep].
      eapply (status_step_ok ListPage (Loaded ok) _ _ _ ok w w' q "waiting" 0 2
                list_loaded_shape);
        try eassumption; try reflexivity; try lia.
      * destruct ok; [reflexivity | discriminate].
      * intros w1 Hp Hs. unfold consistent. rewrite Hp. cbn. auto.
  - (* Delivered *)
    destruct v; try discriminate Hstep.
    + destruct (isNavigating (page w)) eqn:Hnav; try discriminate Hstep.
      destruct (navigationPhase (page w) =? 1)%Z eqn:Hph; try discriminate Hstep.
      destruct (consistent_selected Main w Hc ltac:(discriminate) Hnav) as (q & Hsel & Hst).
      unfold expected in Hst. rewrite Hnav, Hph in Hst. cbn in Hstep.
      eapply (status_step_ok Main (Delivered ok) _ _ _ ok w w' q "en_route_to_hospital" 2 3
                delivered_shape);
        try eassumption; try reflexivity; try lia.
      * destruct ok; [reflexivity | discriminate].
      * intros w1 Hp Hs. unfold consistent. rewrite Hp. cbn. auto.
    + destruct (isNavigating (page w)) eqn:Hnav; try discriminate Hstep.
      destruct (consistent_selected MapPage w Hc ltac:(discriminate) Hnav) as (q & Hsel & Hst).
      unfold expected in Hst. rewrite Hnav in Hst.
      eapply (status_step_ok MapPage (Delivered ok) _ _ _ ok w w' q "loaded" 2 3
                complete_shape);
        try eassumption; try reflexivity; try lia.
      * destruct ok; [reflexivity | discriminate].
      * intros w1 Hp Hs. unfold consistent. rewrite Hp. cbn. auto.
  - (* Tick *)
    destruct v; try discriminate Hstep.
    destruct (isNavigating (page w) && (navigationPhase (page w) =? 1)%Z);
      try discriminate Hstep.
    destruct (selectedPatient (page w)) as [q|] eqn:Hsel; try discriminate Hstep.
    injection Hstep as <-.
    destruct (trackingTick_statuses q reported ok w) as (Hst & Hsel' & Hnav & Hph).
    apply quiet_step_ok; [reflexivity | intros; apply Hst |].
    eapply consistent_transfer; [| | | |exact Hc]; try congruence.
    all: intros; apply Hst.
  - (* Intake *)
    destruct (addDoc newId now true data (store w)) as [c|] eqn:Hadd; [|discriminate].
    injection Hstep as <-.
    apply quiet_step_ok; [reflexivity | |].
    + intros id Hid. cbn. eapply addDoc_keeps_status; eassumption.
    + eapply consistent_transfer; [| | | |exact Hc]; try reflexivity.
      intros q Hq. cbn. eapply addDoc_keeps_status; [eassumption|].
      unfold consistent in Hc. rewrite Hq in Hc.
      apply statusOf_is_Some. rewrite Hc. eauto.
Qed.

Lemma fresh_consistent v c routing : consistent v (fresh c routing).
Proof. unfold consistent. cbn. auto. Qed.

Lemma runActions_consistent v actions w w' :
  consistent v w -> runActions v actions w = Some w' -> consistent v w'.
Proof.
  revert w. induction actions as [|a rest IH]; intros w Hc Hrun; simpl in Hrun.
  - injection Hrun as <-. exact Hc.
  - destruct (step v a w) as [w1|] eqn:Hstep; [|discriminate].
    apply (IH w1); [|exact Hrun].
    apply (step_consistent v a w w1 Hc Hstep).
Qed.

(** C3, as amended.  With a single driver client writing the statuses,
    from a freshly opened page and whatever it does, no stored status
    ever goes back, and every status action that goes through moves the
    selected record strictly forward along waiting, driver_en_route,
    en_route_to_hospital (or loaded), delivered. *)
Theorem single_client_status_moves_forward :
  forall (v : Variant) (c : Collection) (routing : list Reply) (actions : list Action)
         (w : World) (a : Action) (w' : World),
    runActions v actions (fresh c routing) = Some w ->
    step v a w = Some w' ->
    (forall id, is_Some (store w !! id) -> forward (store w) (store w') id) /\
    (writes_status a = true ->
     exists q, selectedPatient (page w) = Some q /\
               advanced (store w) (store w') (Queue.docId q)).
Proof.
  intros v c routing actions w a w' Hrun Hstep.
  assert (Hc : consistent v w).
  { eapply runActions_consistent; [apply fresh_consistent | exact Hrun]. }
  destruct (step_consistent v a w w' Hc Hstep) as (_ & Hfw & Hadv).
  split; assumption.
Qed.

Lemma single_client_witness :
  match runActions Main Scenario.openCard (fresh Scenario.queue Scenario.routing) with
  | Some w =>
      match step Main (Accept true) w with
      | Some w' =>
          (forall id, is_Some (store w !! id) -> forward (store w) (store w') id) /\
          (writes_status (Accept true) = true ->
           exists q, selectedPatient (page w) = Some q /\
                     advanced (store w) (store w') (Queue.docId q))
      | None => False
      end
  | None => False
  end.
Proof.
  destruct (runActions Main Scenario.openCard (fresh Scenario.queue Scenario.routing))
    as [w|] eqn:Hrun; [|vm_compute in Hrun; discriminate Hrun].
  destruct (step Main (Accept true) w) as [w'|] eqn:Hstep.
  - exact (single_client_status_moves_forward Main Scenario.queue Scenario.routing
             Scenario.openCard w (Accept true) w' Hrun Hstep).
  - vm_compute in Hrun. injection Hrun as <-. vm_compute in Hstep. discriminate Hstep.
Defined.

Example open_card_then_accept :
  match runActions Main Scenario.openCard (fresh Scenario.queue Scenario.routing) with
  | Some w =>
      statusOf (store w) "d1" = Some "waiting" /\
      match step Main (Accept true) w with
      | Some w' => statusOf (store w') "d1" = Some "driver_en_route"
      | None => False
      end
  | None => False
  end.
Proof. vm_compute. split; reflexivity. Qed.

(** The second driver's late acceptance, evaluated. *)
Lemma late_acceptance :
  match sharedRun Main Scenario.twoDrivers
          {| shared := Scenario.queue;
             clients := [fresh Scenario.queue Scenario.routing;
                         fresh Scenario.queue Scenario.routing] |} with
  | Some s =>
      statusOf (shared s) "d1" = Some "delivered" /\
      match sharedStep Main 1 (Accept true) s with
      | Some s' => statusOf (shared s') "d1" = Some "driver_en_route"
      | None => False
      end
  | None => False
  end.
Proof. vm_compute. split; reflexivity. Qed.

(** C3, as stated, fails: a second driver who still has the card of a
    delivered record open accepts it, and the status goes from
    delivered back to driver_en_route. *)
Lemma status_regresses_with_two_clients : ~ status_never_regresses Main.
Proof.
  intros H. pose proof late_acceptance as L.
  destruct (sharedRun Main Scenario.twoDrivers _) as [s|] eqn:Hrun; [|exact L].
  destruct L as [Hbefore L].
  destruct (sharedStep Main 1 (Accept true) s) as [s'|] eqn:Hstep; [|exact L].
  assert (Hinit : Forall (fun w => page w = initialPage)
                    [fresh Scenario.queue Scenario.routing;
                     fresh Scenario.queue Scenario.routing])
    by (repeat constructor).
  assert (Hs : is_Some (statusOf (shared s) "d1")) by (exists "delivered"; exact Hbefore).
  pose proof (H Scenario.queue _ Scenario.twoDrivers s 1%nat (Accept true) s' "d1"
                Hinit Hrun Hstep Hs) as [Heq | (o & n & i & j & Ho & Hn & Hi & Hj & Hlt)].
  - congruence.
  - assert (o = "delivered") by congruence.
    assert (n = "driver_en_route") by congruence. subst o n.
    vm_compute in Hi, Hj. injection Hi as <-. injection Hj as <-. lia.
Qed.

End DispatchProps.

(** ** The intake pages *)
Module IntakeProps.
Import Eff Firestore Intake.

Lemma intake_record_fields data :
  intake_record data ->
  data !! "status" = Some (VStr "waiting") /\ data !! "timestamp" = Some VServerTimestamp.
Proof.
  intros [(pId & result & ->) | [(mciId & color & img & ->) | (v & ->)]];
    split; reflexivity.
Qed.

Lemma addDoc_filed newId now ok data c c' :
  data !! "status" = Some (VStr "waiting") ->
  data !! "timestamp" = Some VServerTimestamp ->
  addDoc newId now ok data c = Some c' ->
  filed_waiting c' newId now.
Proof.
  intros Hs Ht. unfold addDoc. destruct ok; [|discriminate].
  destruct (c !! newId) eqn:Hnew; [discriminate|]. injection 1 as <-.
  exists (resolve now <$> data).
  assert (Hst : (resolve now <$> data) !! "status" = Some (VStr "waiting")).
  { rewrite lookup_fmap, Hs. reflexivity. }
  split; [apply lookup_insert_eq|]. split; [exact Hst|]. split.
  - rewrite lookup_fmap, Ht. reflexivity.
  - unfold queryWaiting. apply List.filter_In. split.
    + apply list_elem_of_In, elem_of_map_to_list, lookup_insert_eq.
    + unfold isWaiting, str. simpl. rewrite Hst. reflexivity.
Qed.

Lemma caller_files text hhmmss newId now ok w :
  files_at_most_one (CallerPage.store w)
    (CallerPage.store (snd (CallerPage.handleSendMessage text hhmmss newId now ok w)))
    newId now ok.
Proof.
  cbv [CallerPage.handleSendMessage bind get tryCatch ret CallerPage.setTriageResult
       CallerPage.setCurrentStep modify CallerPage.awaitAddDoc CallerPage.consoleError].
  destruct (JS.truthy (JS.trim text)); [|left; reflexivity].
  destruct (CallerPage.triageResult w); [left; reflexivity|].
  destruct (Triage.evaluateStep (CallerPage.currentStep w) (JS.trim text)) as [result|];
    [|left; reflexivity].
  cbn.
  destruct (addDoc newId now ok (CallerPage.record ("CAL-" ++ hhmmss) result)
              (CallerPage.store w)) as [c|] eqn:Hadd; cbn; [|left; reflexivity].
  right. eexists. split; [|exact Hadd]. left. eauto.
Qed.

Lemma mci_files video context img timeStr newId now ok w :
  files_at_most_one (ParamedicPage.store w)
    (ParamedicPage.store
       (snd (ParamedicPage.captureAndSubmit video context img timeStr newId now ok w)))
    newId now ok.
Proof.
  cbv [ParamedicPage.captureAndSubmit bind get tryCatch tryFinally ret throw modify
       ParamedicPage.setIsUploading ParamedicPage.toast ParamedicPage.stopCamera
       ParamedicPage.awaitAddDoc ParamedicPage.consoleError].
  destruct (ParamedicPage.selectedColor w) as [color|]; [|left; reflexivity].
  destruct video; [|left; reflexivity].
  destruct context; cbn; [|left; reflexivity].
  destruct (addDoc newId now ok _ (ParamedicPage.store w)) as [c|] eqn:Hadd; cbn;
    [|left; reflexivity].
  right. eexists. split; [|exact Hadd]. right. left. eauto.
Qed.

(** *** The standard report *)

Import ParamedicPage.

Example parseInt_plain : parseInt "85" = Some 85%Z.
Proof. reflexivity. Qed.

Example parseInt_prefix : parseInt "  300.7 bpm" = Some 300%Z.
Proof. reflexivity. Qed.

Example parseInt_negative : parseInt "-3" = Some (-3)%Z.
Proof. reflexivity. Qed.

Example parseInt_nan : parseInt "abc" = None.
Proof. reflexivity. Qed.

(** The range test of the source fires on an empty, non-numeric or
    out-of-range field. *)
Lemma range_test (s : string) (lo hi : Z) :
  s = "" \/ outside (parseInt s) lo hi ->
  negb (JS.truthy s) || isNaN (parseInt s) || lt (parseInt s) lo || gt (parseInt s) hi = true.
Proof.
  intros [-> | H]; [reflexivity|].
  unfold outside in H. destruct (parseInt s) as [z|]; simpl.
  - destruct H as [H | H].
    + apply Z.ltb_lt in H. rewrite H. rewrite orb_true_r. reflexivity.
    + apply Z.ltb_lt in H. rewrite H. rewrite !orb_true_r. reflexivity.
  - rewrite orb_true_r. reflexivity.
Qed.

Lemma validate_rejects w :
  stopped_by_a_test (vitals w) ->
  exists msg, validateNormalForm w = (Normal false, toasted (ToastError msg) w).
Proof.
  intros Hrej. unfold validateNormalForm.
  cbv [bind get ret toast modify unbound throw toasted snd].
  destruct (negb (JS.truthy (hr (vitals w))) || isNaN (parseInt (hr (vitals w)))
            || lt (parseInt (hr (vitals w))) 1 || gt (parseInt (hr (vitals w))) 300)
    eqn:Hhr; [eauto|].
  destruct (negb (JS.truthy (spo2 (vitals w))) || isNaN (parseInt (spo2 (vitals w)))
            || lt (parseInt (spo2 (vitals w))) 0 || gt (parseInt (spo2 (vitals w))) 100)
    eqn:Hspo2; [eauto|].
  destruct Hrej as [H | [H | H]].
  - apply (range_test _ 1 300) in H. congruence.
  - apply (range_test _ 0 100) in H. congruence.
  - rewrite H. cbn. eauto.
Qed.

(** The third test reads an unbound identifier whenever the blood
    pressure is filled in, so the validation never returns [true]. *)
Lemma validate_never_passes w : fst (validateNormalForm w) <> Normal true.
Proof.
  unfold validateNormalForm.
  cbv [bind get ret toast modify unbound throw].
  destruct (negb (JS.truthy (hr (vitals w))) || isNaN (parseInt (hr (vitals w)))
            || lt (parseInt (hr (vitals w))) 1 || gt (parseInt (hr (vitals w))) 300);
    [discriminate|].
  destruct (negb (JS.truthy (spo2 (vitals w))) || isNaN (parseInt (spo2 (vitals w)))
            || lt (parseInt (spo2 (vitals w))) 0 || gt (parseInt (spo2 (vitals w))) 100);
    [discriminate|].
  destruct (JS.truthy (bp (vitals w))); cbn; discriminate.
Qed.

Example filled_form_throws :
  fst (validateNormalForm
         {| store := ∅;
            vitals := {| name := "A"; hr := "85"; bp := "120/80"; spo2 := "97"; notes := "" |};
            selectedColor := None; isUploading := false; toasts := []; console := [] |})
  = Throw "ReferenceError: bp is not defined".
Proof. reflexivity. Qed.

(** A blood pressure of blanks, which the trim of the third test was
    written for, ends in the same exception, without a toast. *)
Example blank_bp_throws :
  validateNormalForm
    {| store := ∅;
       vitals := {| name := "A"; hr := "85"; bp := "  "; spo2 := "97"; notes := "" |};
       selectedColor := None; isUploading := false; toasts := []; console := [] |}
  = (Throw "ReferenceError: bp is not defined",
     {| store := ∅;
        vitals := {| name := "A"; hr := "85"; bp := "  "; spo2 := "97"; notes := "" |};
        selectedColor := None; isUploading := false; toasts := []; console := [] |}).
Proof. reflexivity. Qed.

(** Validation shows toasts and touches nothing else of the store. *)
Lemma validate_store w : store (snd (validateNormalForm w)) = store w.
Proof.
  unfold validateNormalForm.
  cbv [bind get ret toast modify unbound throw].
  destruct (negb (JS.truthy (hr (vitals w))) || isNaN (parseInt (hr (vitals w)))
            || lt (parseInt (hr (vitals w))) 1 || gt (parseInt (hr (vitals w))) 300);
    [reflexivity|].
  destruct (negb (JS.truthy (spo2 (vitals w))) || isNaN (parseInt (spo2 (vitals w)))
            || lt (parseInt (spo2 (vitals w))) 0 || gt (parseInt (spo2 (vitals w))) 100);
    [reflexivity|].
  destruct (JS.truthy (bp (vitals w))); reflexivity.
Qed.

Lemma standard_store_unchanged newId now ok w :
  store (snd (submitStandardReport newId now ok w)) = store w.
Proof.
  pose proof (validate_store w) as Hst.
  pose proof (validate_never_passes w) as Hnever.
  unfold submitStandardReport, bind.
  destruct (validateNormalForm w) as [[[|] | e] w1]; cbn in *;
    [destruct (Hnever eq_refl) | exact Hst | exact Hst].
Qed.

Lemma standard_files newId now ok w :
  files_at_most_one (store w) (store (snd (submitStandardReport newId now ok w))) newId now ok.
Proof. left. apply standard_store_unchanged. Qed.

(** What the tests do stop: when the heart rate is empty or [parseInt]
    finds no integer within 1 to 300 at its head, or the same for the
    SpO2 and 0 to 100, or the blood pressure is the empty string, the
    submission returns after one error toast and nothing else. *)
Lemma stopped_form_gets_one_toast (w : World) (newId : string) (now : Z) (ok : bool) :
  stopped_by_a_test (vitals w) ->
  exists msg, submitStandardReport newId now ok w = (Normal tt, toasted (ToastError msg) w).
Proof.
  intros Hrej. destruct (validate_rejects w Hrej) as [msg Hv].
  exists msg. unfold submitStandardReport, bind. rewrite Hv. reflexivity.
Qed.



(** The same end for an SpO2 of 100.9, for a heart rate written 1e3,
    and for a blood pressure of blanks. *)
Example other_unreported_forms :
  List.map
    (fun v => fst (submitStandardReport "n1" 5 true
                     {| store := Scenario.queue; vitals := v; selectedColor := None;
                        isUploading := false; toasts := []; console := [] |}))
    [{| name := ""; hr := "85"; bp := "120/80"; spo2 := "100.9"; notes := "" |};
     {| name := ""; hr := "1e3"; bp := "120/80"; spo2 := "97"; notes := "" |};
     {| name := ""; hr := "85"; bp := "   "; spo2 := "97"; notes := "" |}]
  = [Throw "ReferenceError: bp is not defined";
     Throw "ReferenceError: bp is not defined";
     Throw "ReferenceError: bp is not defined"].
Proof. reflexivity. Qed.

(** The no-break space is white space to [parseInt]. *)
Example parseInt_skips_no_break_space :
  parseInt (String (ascii_of_nat 160) "85") = Some 85%Z.
Proof. reflexivity. Qed.

Example heart_rate_400_is_refused :
  toasts (snd (submitStandardReport "n1" 5 true Scenario.tachycardic))
  = [ToastError "Heart Rate is required and must be between 1 and 300"].
Proof. reflexivity. Qed.

(** C10.  A record literal of any of the three intake paths, once
    [addDoc] has stored it, has status waiting and the server's time as
    its timestamp, and is returned by the queue's waiting query; the
    store takes it whenever the write goes through with a new id; and a
    run of each intake handler changes the store by at most one such
    [addDoc]. *)
Theorem intake_records_are_filed_waiting :
  (forall (data : Doc) (c c' : Collection) (newId : string) (now : Z) (ok : bool),
      intake_record data ->
      addDoc newId now ok data c = Some c' ->
      filed_waiting c' newId now) /\
  (forall (data : Doc) (c : Collection) (newId : string) (now : Z),
      c !! newId = None -> is_Some (addDoc newId now true data c)) /\
  (forall text hhmmss newId now ok (w : CallerPage.World),
      files_at_most_one (CallerPage.store w)
        (CallerPage.store (snd (CallerPage.handleSendMessage text hhmmss newId now ok w)))
        newId now ok) /\
  (forall video context img timeStr newId now ok (w : World),
      files_at_most_one (store w)
        (store (snd (captureAndSubmit video context img timeStr newId now ok w)))
        newId now ok) /\
  (forall newId now ok (w : World),
      files_at_most_one (store w)
        (store (snd (submitStandardReport newId now ok w))) newId now ok).
Proof.
  split; [|split; [|split; [|split]]].
  - intros data c c' newId now ok Hdata Hadd.
    destruct (intake_record_fields data Hdata) as [Hs Ht].
    eapply addDoc_filed; eassumption.
  - intros data c newId now Hnew. unfold addDoc. rewrite Hnew. eauto.
  - intros. apply caller_files.
  - intros. apply mci_files.
  - intros. apply standard_files.
Qed.

Lemma intake_witness :
  let data := CallerPage.record "CAL-101500" (Triage.endStates Triage.RED) in
  intake_record data /\
  (∅ : Collection) !! "d1" = None /\
  exists c', addDoc "d1" 100 true data ∅ = Some c' /\ filed_waiting c' "d1" 100.
Proof.
  cbv zeta.
  assert (H : intake_record (CallerPage.record "CAL-101500" (Triage.endStates Triage.RED))).
  { left. eauto. }
  assert (Hnew : (∅ : Collection) !! "d1" = None) by apply lookup_empty.
  split; [exact H|]. split; [exact Hnew|].
  destruct (proj1 (proj2 intake_records_are_filed_waiting)
              (CallerPage.record "CAL-101500" (Triage.endStates Triage.RED))
              ∅ "d1" 100%Z Hnew) as [c' Hadd].
  exists c'. split; [exact Hadd|].
  exact (proj1 intake_records_are_filed_waiting _ ∅ c' "d1" 100%Z true H Hadd).
Defined.

Example caller_record_reaches_the_queue :
  let answers := ["yes"; "yes"; "no"; "yes"] in
  let w :=
    fold_left (fun w text => snd (CallerPage.handleSendMessage text "101500" "d7" 42 true w))
      answers (CallerPage.initial ∅) in
  List.map Queue.docId (snapshot (CallerPage.store w)) = ["d7"] /\
  List.map Queue.triage (snapshot (CallerPage.store w)) = [Some "YELLOW"].
Proof. vm_compute. split; reflexivity. Qed.

End IntakeProps.

(** ** The ETA advisory *)
Module EtaProps.
Import Eff DriverPage Advisory JSNumber.

Lemma mathRound_nearest (x : Q) :
  (inject_Z (mathRound x) <= x + (1 # 2) /\ x + (1 # 2) < inject_Z (mathRound x + 1))%Q.
Proof.
  unfold mathRound. split.
  - apply Qfloor_le.
  - apply Qlt_floor.
Qed.

Lemma tenths_nearest (x : Q) :
  (inject_Z (tenths x) <= x * 10 + (1 # 2) /\ x * 10 + (1 # 2) < inject_Z (tenths x + 1))%Q.
Proof.
  unfold tenths. split.
  - apply Qfloor_le.
  - apply Qlt_floor.
Qed.

(** [showZ z] is the decimal numeral of [z]: it reads back as [z]. *)
Lemma showZ_reads_back (z : Z) :
  option_map Z.of_int (DecimalString.NilZero.int_of_string (showZ z)) = Some z.
Proof.
  unfold showZ. rewrite DecimalString.NilZero.isi.
  - cbn [option_map]. rewrite DecimalZ.of_to. reflexivity.
  - destruct z; cbn; try discriminate.
    intros H. injection H as H. exact (DecimalPos.Unsigned.to_uint_nonnil _ H).
  - destruct z; cbn; try discriminate.
    intros H. injection H as H. exact (DecimalPos.Unsigned.to_uint_nonnil _ H).
Qed.

(** 1234 m is 1.234 km. *)
Example toFixed1_down : toFixed1 (1234 / 1000)%float = "1.2".
Proof. vm_compute. reflexivity. Qed.

(** 1250 m: the double 1.25 is exact, and the tie goes up. *)
Example toFixed1_tie : toFixed1 (1250 / 1000)%float = "1.3".
Proof. vm_compute. reflexivity. Qed.

(** 1450 m: the double nearest to 1.45 lies below it. *)
Example toFixed1_below_tie : toFixed1 (1450 / 1000)%float = "1.4".
Proof. vm_compute. reflexivity. Qed.

Example toFixed1_carry : toFixed1 (99960 / 1000)%float = "100.0".
Proof. vm_compute. reflexivity. Qed.

(** A route without a numeric distance. *)
Example toFixed1_nan : toFixed1 (nan / 1000)%float = "NaN".
Proof. vm_compute. reflexivity. Qed.

Example toFixed1_huge : toFixed1 1e21%float = "1e+21".
Proof. vm_compute. reflexivity. Qed.

Example toString_shortest :
  List.map toString [0.1; 1.5; 100; 1e21; 18446744073709551616; 123456789012345680000; 1e-7]%float
  = ["0.1"; "1.5"; "100"; "1e+21"; "18446744073709552000"; "123456789012345680000"; "1e-7"].
Proof. vm_compute. reflexivity. Qed.

(** The double quotient is the double nearest to the quotient of the
    values, here on some distances in meters. *)
Example kilometers_are_the_nearest_double :
  forallb
    (fun meters : float =>
       match value meters with
       | Some m => roundsTo (meters / 1000) (m / 1000)%Q
       | None => false
       end)
    [150; 1234; 1234.5; 1450; 99960; 12345678.9]%float
  = true.
Proof. vm_compute. reflexivity. Qed.

Example round_tie : interpolate (round (150 / 60)%float) = "3".
Proof. vm_compute. reflexivity. Qed.

Example round_negative : interpolate (round (-2.5)%float) = "-2".
Proof. vm_compute. reflexivity. Qed.

Example round_beyond_digits : interpolate (round 1e21%float) = "1e+21".
Proof. vm_compute. reflexivity. Qed.

(** The single request: it never throws, it sends exactly one request
    and takes exactly one reply, and it yields the route the reply
    carries. *)
Lemma fetchOsrmRoute_once from to w :
  fst (fetchOsrmRoute from to w) = Normal (routeOf (replies w)) /\
  requests (snd (fetchOsrmRoute from to w)) = (requests w ++ [(from, to)])%list /\
  replies (snd (fetchOsrmRoute from to w)) = tl (replies w) /\
  page (snd (fetchOsrmRoute from to w)) = page w /\
  store (snd (fetchOsrmRoute from to w)) = store w.
Proof.
  cbv [fetchOsrmRoute fetch json getRoutes first bind tryCatch ret throw consoleError modify
       routeOf].
  destruct (replies w) as [|[| |[|[[|r rest]|]]] more]; cbn; repeat split.
Qed.

Lemma calculateETA_outcome selected reported c1 c2 w :
  fst (calculateETA selected reported c1 c2 w) = Normal tt /\
  store (snd (calculateETA selected reported c1 c2 w)) = store w /\
  match originOf w reported with
  | Some origin =>
      requests (snd (calculateETA selected reported c1 c2 w))
      = (requests w ++ [(origin, patientPosOf selected)])%list /\
      dispatchETA (page (snd (calculateETA selected reported c1 c2 w)))
      = match routeOf (replies w), c2 with
        | Some r, false => Some (estimate r)
        | _, _ => dispatchETA (page w)
        end
  | None =>
      requests (snd (calculateETA selected reported c1 c2 w)) = requests w /\
      dispatchETA (page (snd (calculateETA selected reported c1 c2 w))) = dispatchETA (page w)
  end.
Proof.
  cbv [calculateETA fetchOsrmRoute fetch json getRoutes first getPosition
       bind tryCatch tryFinally get ret throw consoleError modify
       setDriverLocation setDispatchETA setIsCalculatingETA setPage
       routeOf originOf estimate].
  destruct (driverLocation (page w)) as [p|]; [|destruct reported as [p|]; [destruct c1|]];
    cbn;
    try (destruct (replies w) as [|[| |[|[[|r rest]|]]] more]); destruct c2; cbn;
    repeat split.
Qed.

Lemma etaEffect_outcome reported c1 c2 w :
  fst (etaEffect reported c1 c2 w) = Normal tt /\
  match selectedPatient (page w), isNavigating (page w) with
  | Some selected, false =>
      dispatchETA (page (snd (etaEffect reported c1 c2 w)))
      = match originOf w reported, routeOf (replies w), c2 with
        | Some _, Some r, false => Some (estimate r)
        | _, _, _ => None
        end
  | _, _ => snd (etaEffect reported c1 c2 w) = w
  end.
Proof.
  cbv [etaEffect calculateETA fetchOsrmRoute fetch json getRoutes first getPosition
       bind tryCatch tryFinally get ret throw consoleError modify
       setDriverLocation setDispatchETA setIsCalculatingETA setPage
       routeOf originOf estimate].
  destruct (selectedPatient (page w)) as [selected|]; [|split; reflexivity].
  destruct (isNavigating (page w)); [split; reflexivity|]. cbn.
  destruct (driverLocation (page w)) as [p|]; [|destruct reported as [p|]; [destruct c1|]];
    cbn;
    try (destruct (replies w) as [|[| |[|[[|r rest]|]]] more]); destruct c2; cbn;
    repeat split.
Qed.

Lemma estimate_rounds (r : Route) :
  (forall km : Q,
      value (route_distance r / 1000) = Some km -> (0 <= km)%Q -> (km < 10 ^ 21)%Q ->
      distance (estimate r) = showZ (tenths km / 10) ++ "." ++ showZ (tenths km mod 10) /\
      (inject_Z (tenths km) <= km * 10 + (1 # 2) < inject_Z (tenths km + 1))%Q) /\
  (forall minutes : Q,
      value (route_duration r / 60) = Some minutes -> (Qabs minutes < 2 ^ 52)%Q ->
      time (estimate r) = showZ (mathRound minutes) /\
      (inject_Z (mathRound minutes) <= minutes + (1 # 2)
       < inject_Z (mathRound minutes + 1))%Q).
Proof.
  split.
  - intros km Hkm Hpos Hbelow. split; [|apply tenths_nearest].
    unfold estimate, toFixed1. cbn [distance]. rewrite Hkm.
    apply Qle_bool_iff in Hpos. rewrite Hpos.
    destruct (Qle_bool (pow10 21) km) eqn:Hbig; [|reflexivity].
    apply Qle_bool_iff in Hbig. destruct (Qlt_not_le _ _ Hbelow Hbig).
  - intros minutes Hmin Hbelow. split; [|apply mathRound_nearest].
    unfold estimate, round. cbn [time]. rewrite Hmin.
    destruct (Qle_bool (2 ^ 52) (Qabs minutes)) eqn:Hbig; [|reflexivity].
    apply Qle_bool_iff in Hbig. destruct (Qlt_not_le _ _ Hbelow Hbig).
Qed.

(** C5.  One call of the route fetch never throws, sends one request
    and takes one reply, and yields the first route of a well-formed
    reply and null otherwise.  [calculateETA] never throws either; when
    an origin is at hand it asks exactly once, and it sets the estimate
    to the distance in kilometers to one decimal and the duration in
    whole minutes when a route came back (and the effect was not
    cancelled), leaving it as it was (null, as the effect set it)
    otherwise; without an origin it asks nothing.  The kilometers are
    the double [distance / 1000] and the minutes the double
    [duration / 60]: for kilometers from 0 to below 10^21 the shown
    distance is the decimal numeral, with one digit after the point, of
    the number of tenths nearest to them, and for minutes below 2^52 in
    magnitude the shown time is the decimal numeral of the integer
    nearest to them. *)
Theorem eta_is_rounded_route_or_unavailable :
  (forall from to w,
      fst (fetchOsrmRoute from to w) = Normal (routeOf (replies w)) /\
      requests (snd (fetchOsrmRoute from to w)) = (requests w ++ [(from, to)])%list /\
      replies (snd (fetchOsrmRoute from to w)) = tl (replies w)) /\
  (forall selected reported cancelledAtPosition cancelled w,
      fst (calculateETA selected reported cancelledAtPosition cancelled w) = Normal tt /\
      match originOf w reported with
      | Some origin =>
          requests (snd (calculateETA selected reported cancelledAtPosition cancelled w))
          = (requests w ++ [(origin, patientPosOf selected)])%list /\
          dispatchETA (page (snd (calculateETA selected reported cancelledAtPosition
                                    cancelled w)))
          = match routeOf (replies w), cancelled with
            | Some r, false => Some (estimate r)
            | _, _ => dispatchETA (page w)
            end
      | None =>
          requests (snd (calculateETA selected reported cancelledAtPosition cancelled w))
          = requests w /\
          dispatchETA (page (snd (calculateETA selected reported cancelledAtPosition
                                    cancelled w)))
          = dispatchETA (page w)
      end) /\
  (forall reported cancelledAtPosition cancelled w,
      fst (etaEffect reported cancelledAtPosition cancelled w) = Normal tt /\
      match selectedPatient (page w), isNavigating (page w) with
      | Some selected, false =>
          dispatchETA (page (snd (etaEffect reported cancelledAtPosition cancelled w)))
          = match originOf w reported, routeOf (replies w), cancelled with
            | Some _, Some r, false => Some (estimate r)
            | _, _, _ => None
            end
      | _, _ => snd (etaEffect reported cancelledAtPosition cancelled w) = w
      end) /\
  (forall r : Route,
      (forall km : Q,
          value (route_distance r / 1000) = Some km -> (0 <= km)%Q -> (km < 10 ^ 21)%Q ->
          distance (estimate r)
          = showZ (tenths km / 10) ++ "." ++ showZ (tenths km mod 10) /\
          (inject_Z (tenths km) <= km * 10 + (1 # 2) < inject_Z (tenths km + 1))%Q) /\
      (forall minutes : Q,
          value (route_duration r / 60) = Some minutes -> (Qabs minutes < 2 ^ 52)%Q ->
          time (estimate r) = showZ (mathRound minutes) /\
          (inject_Z (mathRound minutes) <= minutes + (1 # 2)
           < inject_Z (mathRound minutes + 1))%Q)) /\
  (forall z : Z,
      option_map Z.of_int (DecimalString.NilZero.int_of_string (showZ z)) = Some z).
Proof.
  split; [|split; [|split; [|split]]].
  - intros from to w.
    destruct (fetchOsrmRoute_once from to w) as (H1 & H2 & H3 & _). auto.
  - intros selected reported c1 c2 w.
    destruct (calculateETA_outcome selected reported c1 c2 w) as (H1 & _ & H3). auto.
  - apply etaEffect_outcome.
  - apply estimate_rounds.
  - apply showZ_reads_back.
Qed.

Example eta_of_scenario :
  match Dispatch.runActions Dispatch.Main Scenario.openCard
          (Dispatch.fresh Scenario.queue Scenario.routing) with
  | Some w =>
      dispatchETA (page w) = Some {| distance := "1.2"; time := "3" |} /\
      length (requests w) = 2%nat
  | None => False
  end.
Proof. vm_compute. split; reflexivity. Qed.

Example eta_unavailable_offline :
  match Dispatch.runActions Dispatch.Main Scenario.openCard
          (Dispatch.fresh Scenario.queue [NetworkFailure]) with
  | Some w => dispatchETA (page w) = None /\ length (requests w) = 2%nat
  | None => False
  end.
Proof. vm_compute. split; reflexivity. Qed.

Lemma eta_witness :
  match value (route_distance Scenario.route / 1000), value (route_duration Scenario.route / 60)
  with
  | Some km, Some minutes =>
      ((0 <= km)%Q /\ (km < 10 ^ 21)%Q /\ (Qabs minutes < 2 ^ 52)%Q) /\
      estimate Scenario.route
      = {| distance := showZ (tenths km / 10) ++ "." ++ showZ (tenths km mod 10);
           time := showZ (mathRound minutes) |} /\
      estimate Scenario.route = {| distance := "1.2"; time := "3" |}
  | _, _ => False
  end.
Proof.
  destruct (value (route_distance Scenario.route / 1000)) as [km|] eqn:Hkm;
    [|vm_compute in Hkm; discriminate Hkm].
  destruct (value (route_duration Scenario.route / 60)) as [minutes|] eqn:Hmin;
    [|vm_compute in Hmin; discriminate Hmin].
  assert (Hrange : (0 <= km)%Q /\ (km < 10 ^ 21)%Q /\ (Qabs minutes < 2 ^ 52)%Q).
  { vm_compute in Hkm, Hmin. injection Hkm as <-. injection Hmin as <-.
    repeat split; vm_compute; congruence. }
  split; [exact Hrange|]. destruct Hrange as (Hpos & Hbelow & Hsmall).
  destruct (proj1 (proj2 (proj2 (proj2 eta_is_rounded_route_or_unavailable)))
              Scenario.route) as [Hd Ht].
  destruct (Hd km Hkm Hpos Hbelow) as [Hdist _].
  destruct (Ht minutes Hmin Hsmall) as [Htime _].
  split.
  - destruct (estimate Scenario.route) as [d t]. cbn [distance time] in Hdist, Htime.
    rewrite Hdist, Htime. reflexivity.
  - vm_compute. reflexivity.
Defined.

End EtaProps.

(** ** The compression loop *)
Module CompressorProps.
Import Compressor.

Example quality_sequence :
  List.map qualityAt [0; 1; 2; 15; 16]%nat
  = [0.9; 0.85; 0.79999999999999993; 0.1499999999999998; 0.099999999999999797]%float.
Proof. reflexivity. Qed.

(** Sixteen decrements bring the quality to the floor. *)
Lemma floor_reached : (qualityAt 16 <=? 0.1)%float = true.
Proof. reflexivity. Qed.

Lemma floor_not_before :
  forallb (fun k => negb (qualityAt k <=? 0.1)%float) (seq 0 16) = true.
Proof. reflexivity. Qed.

Lemma compress_unfold fuel canvas k :
  compress (S fuel) canvas (qualityAt k)
  = if stops canvas k then Some (outcome canvas k)
    else compress fuel canvas (qualityAt (S k)).
Proof. reflexivity. Qed.

Lemma compress_from canvas (n : nat) :
  forall k fuel : nat,
    (k + n = 16)%nat -> (n < fuel)%nat ->
    exists k',
      (k <= k' <= 16)%nat /\
      compress fuel canvas (qualityAt k) = Some (outcome canvas k') /\
      stops canvas k' = true /\
      (forall j, (k <= j < k')%nat -> stops canvas j = false).
Proof.
  induction n as [|n IH]; intros k fuel Hk Hfuel;
    (destruct fuel as [|fuel]; [lia|]); rewrite compress_unfold.
  - assert (k = 16)%nat by lia. subst k.
    assert (Hstop : stops canvas 16 = true).
    { unfold stops, stop. rewrite floor_reached. apply orb_true_r. }
    rewrite Hstop. exists 16%nat. repeat split; try lia. exact Hstop.
  - destruct (stops canvas k) eqn:Hstop.
    + exists k. repeat split; try lia. exact Hstop.
    + destruct (IH (S k) fuel) as (k' & Hk' & Hrun & Hs & Hbefore); try lia.
      exists k'. repeat split; try lia; try assumption.
      intros j Hj. destruct (Nat.eq_dec j k) as [-> | Hne]; [exact Hstop|].
      apply Hbefore. lia.
Qed.

Lemma startsWith_app (p s : string) : JS.startsWith p (p ++ s) = true.
Proof.
  induction p as [|c p IH]; simpl; [reflexivity|].
  rewrite Ascii.eqb_refl. exact IH.
Qed.

Lemma toDataURL_jpeg canvas q :
  width canvas <> 0%N -> height canvas <> 0%N ->
  isJpegDataURL (toDataURL canvas q) = true.
Proof.
  intros Hw Hh. unfold toDataURL, isJpegDataURL.
  apply N.eqb_neq in Hw, Hh. rewrite Hw, Hh. cbn [orb].
  apply startsWith_app.
Qed.

(** C6.  For every canvas the loop returns: it stops after some [k <=
    16] decrements of 0.05 from 0.9, at the first quality of that
    sequence whose payload is estimated at no more than 100 KB or which
    is at most 0.1, and hands the callback the data URL encoded at that
    quality with its estimate; the URL is a JPEG data URL whenever the
    canvas has pixels. *)
Theorem compression_stops_under_limit_or_at_floor :
  forall canvas : Canvas,
    exists k : nat,
      (k <= 16)%nat /\
      compressToUnder100KB canvas = Some (outcome canvas k) /\
      ((snd (outcome canvas k) <= MAX_SIZE)%Z \/ (qualityAt k <=? 0.1)%float = true) /\
      (forall j, (j < k)%nat ->
                 (MAX_SIZE < snd (outcome canvas j))%Z /\ (qualityAt j <=? 0.1)%float = false) /\
      (width canvas <> 0%N -> height canvas <> 0%N ->
       isJpegDataURL (fst (outcome canvas k)) = true).
Proof.
  intros canvas.
  destruct (compress_from canvas 16 0 32) as (k & Hk & Hrun & Hstop & Hbefore); try lia.
  exists k. split; [lia|]. split; [exact Hrun|]. split; [|split].
  - unfold stops, stop in Hstop. apply orb_true_iff in Hstop as [H | H].
    + left. apply Z.leb_le in H. exact H.
    + right. exact H.
  - intros j Hj. specialize (Hbefore j ltac:(lia)).
    unfold stops, stop in Hbefore. apply orb_false_iff in Hbefore as [H1 H2].
    apply Z.leb_gt in H1. split; assumption.
  - intros Hw Hh. apply toDataURL_jpeg; assumption.
Qed.

Lemma compression_witness :
  let canvas := {| width := 640; height := 480; jpegBase64 := fun _ => "/9j/4AAQSkZJRg==" |} in
  width canvas <> 0%N /\ height canvas <> 0%N /\
  exists k : nat,
    compressToUnder100KB canvas = Some (outcome canvas k) /\
    isJpegDataURL (fst (outcome canvas k)) = true.
Proof.
  cbv zeta.
  destruct (compression_stops_under_limit_or_at_floor
              {| width := 640; height := 480; jpegBase64 := fun _ => "/9j/4AAQSkZJRg==" |})
    as (k & _ & Hrun & _ & _ & Hjpeg).
  split; [discriminate|]. split; [discriminate|].
  exists k. split; [exact Hrun|]. apply Hjpeg; discriminate.
Defined.

Example small_frame_kept_at_first_quality :
  compressToUnder100KB
    {| width := 640; height := 480; jpegBase64 := fun _ => "/9j/4AAQSkZJRg==" |}
  = Some ("data:image/jpeg;base64,/9j/4AAQSkZJRg==", 29%Z).
Proof. reflexivity. Qed.

End CompressorProps.

(** ** Nearest hospital *)
Module HospitalProps.
Import Hospitals.
Local Open Scope R_scope.

Lemma atan_nonneg (x : R) : 0 <= x -> 0 <= atan x.
Proof.
  intros [H | <-].
  - left. rewrite <- atan_0. apply atan_increasing, H.
  - rewrite atan_0. lra.
Qed.

Lemma atan2_nonneg (y x : R) : 0 <= y -> 0 <= x -> 0 <= atan2 y x.
Proof.
  intros Hy Hx. unfold atan2. pose proof PI_RGT_0.
  destruct (Rlt_dec 0 x) as [Hpos | _].
  - apply atan_nonneg. apply Rmult_le_pos; [exact Hy|].
    left. apply Rinv_0_lt_compat, Hpos.
  - destruct (Rlt_dec x 0); [lra|].
    destruct (Rlt_dec 0 y); [lra|].
    destruct (Rlt_dec y 0); lra.
Qed.

Lemma atan2_pos (y x : R) : 0 < y -> 0 <= x -> 0 < atan2 y x.
Proof.
  intros Hy Hx. unfold atan2. pose proof PI_RGT_0.
  destruct (Rlt_dec 0 x) as [Hpos | _].
  - rewrite <- atan_0. apply atan_increasing.
    apply Rmult_lt_0_compat; [exact Hy|]. apply Rinv_0_lt_compat, Hpos.
  - destruct (Rlt_dec x 0); [lra|].
    destruct (Rlt_dec 0 y); lra.
Qed.

Lemma haversineKm_hav (a b : LatLng) :
  haversineKm a b = 6371 * 2 * atan2 (R_sqrt.sqrt (hav a b)) (R_sqrt.sqrt (1 - hav a b)).
Proof. reflexivity. Qed.

Lemma haversineKm_nonneg (a b : LatLng) : 0 <= haversineKm a b.
Proof.
  rewrite haversineKm_hav.
  apply Rmult_le_pos; [lra|]. apply atan2_nonneg; apply R_sqrt.sqrt_pos.
Qed.

Lemma haversineKm_same (a : LatLng) : haversineKm a a = 0.
Proof.
  rewrite haversineKm_hav. unfold hav.
  replace ((lat a - lat a) * PI / 180 / 2) with 0 by lra.
  replace ((lng a - lng a) * PI / 180 / 2) with 0 by lra.
  rewrite sin_0. replace (0 ^ 2) with 0 by ring.
  rewrite Rmult_0_r, Rplus_0_l, R_sqrt.sqrt_0, Rminus_0_r, R_sqrt.sqrt_1.
  unfold atan2. destruct (Rlt_dec 0 1); [|lra].
  replace (0 / 1) with 0 by lra. rewrite atan_0. ring.
Qed.

Lemma sin_nonzero (x : R) : x <> 0 -> - PI < x < PI -> sin x <> 0.
Proof.
  intros Hx [Hlo Hhi].
  destruct (Rlt_dec 0 x).
  - pose proof (sin_gt_0 x). lra.
  - pose proof (sin_lt_0_var x). lra.
Qed.

(** Two points at different latitudes, both between the poles, are at
    a positive distance. *)
Lemma haversineKm_pos (a b : LatLng) :
  lat a <> lat b -> -90 < lat a < 90 -> -90 < lat b < 90 -> 0 < haversineKm a b.
Proof.
  intros Hne Ha Hb. rewrite haversineKm_hav. pose proof PI_RGT_0 as Hpi.
  apply Rmult_lt_0_compat; [lra|].
  apply atan2_pos; [|apply R_sqrt.sqrt_pos].
  apply R_sqrt.sqrt_lt_R0. unfold hav.
  assert (Hs : sin ((lat b - lat a) * PI / 180 / 2) <> 0).
  { apply sin_nonzero.
    - intros H0. apply Hne.
      assert (Hz : (lat b - lat a) * PI = 0) by lra.
      apply Rmult_integral in Hz. lra.
    - split; nra. }
  assert (Hsq : 0 < sin ((lat b - lat a) * PI / 180 / 2) ^ 2).
  { rewrite <- Rsqr_pow2. apply Rsqr_pos_lt, Hs. }
  assert (Hca : 0 < cos (lat a * PI / 180)) by (apply cos_gt_0; nra).
  assert (Hcb : 0 < cos (lat b * PI / 180)) by (apply cos_gt_0; nra).
  assert (Hsl : 0 <= sin ((lng b - lng a) * PI / 180 / 2) ^ 2) by apply pow2_ge_0.
  assert (0 <= cos (lat a * PI / 180) * cos (lat b * PI / 180)
               * sin ((lng b - lng a) * PI / 180 / 2) ^ 2).
  { apply Rmult_le_pos; [|exact Hsl]. left. apply Rmult_lt_0_compat; assumption. }
  lra.
Qed.

Lemma closer_spec (to : LatLng) (best h : Hospital) :
  (closer to best h = h /\ distanceTo to h < distanceTo to best) \/
  (closer to best h = best /\ distanceTo to best <= distanceTo to h).
Proof.
  unfold closer, distanceTo.
  destruct (Rlt_dec (haversineKm (position h) to) (haversineKm (position best) to));
    [left | right]; split; auto; lra.
Qed.

Lemma closestHospital_unfold (to : LatLng) :
  closestHospital to = closer to (closer to Deenanath Sahyadri) Shashwat.
Proof. reflexivity. Qed.

Lemma closestHospital_cases (to : LatLng) :
  In (closestHospital to) HOSPITALS /\
  distanceTo to (closestHospital to) <= distanceTo to Deenanath /\
  distanceTo to (closestHospital to) <= distanceTo to Sahyadri /\
  distanceTo to (closestHospital to) <= distanceTo to Shashwat.
Proof.
  rewrite closestHospital_unfold. unfold HOSPITALS.
  destruct (closer_spec to Deenanath Sahyadri) as [[-> H1] | [-> H1]];
    match goal with
    | |- context [closer to ?b Shashwat] =>
        destruct (closer_spec to b Shashwat) as [[-> H2] | [-> H2]]
    end;
    (split; [simpl; auto | repeat split; lra]).
Qed.

Lemma hospitals_apart :
  0 < haversineKm (position Deenanath) (position Sahyadri) /\
  0 < haversineKm (position Deenanath) (position Shashwat) /\
  0 < haversineKm (position Sahyadri) (position Shashwat).
Proof.
  repeat split; apply haversineKm_pos; cbn; lra.
Qed.

Lemma distanceTo_nonneg to h : 0 <= distanceTo to h.
Proof. apply haversineKm_nonneg. Qed.

Lemma coincident_selected (h : Hospital) :
  In h HOSPITALS ->
  closestHospital (position h) = h /\ haversineKm (position h) (position h) = 0.
Proof.
  intros Hin. split; [|apply haversineKm_same].
  destruct hospitals_apart as (HDS & HDSh & HSSh).
  rewrite closestHospital_unfold.
  pose proof (haversineKm_same (position Deenanath)) as ZD.
  pose proof (haversineKm_same (position Sahyadri)) as ZS.
  pose proof (haversineKm_same (position Shashwat)) as ZSh.
  pose proof (distanceTo_nonneg (position h)) as Hpos.
  pose proof (Hpos Deenanath) as PD.
  pose proof (Hpos Sahyadri) as PS.
  pose proof (Hpos Shashwat) as PSh.
  unfold HOSPITALS in Hin. simpl in Hin.
  destruct Hin as [<- | [<- | [<- | []]]];
    match goal with
    | |- closer ?p _ _ = _ =>
        destruct (closer_spec p Deenanath Sahyadri) as [[-> H1] | [-> H1]]
    end;
    match goal with
    | |- context [closer ?p ?b Shashwat] =>
        destruct (closer_spec p b Shashwat) as [[-> H2] | [-> H2]]
    end;
    unfold distanceTo in *; try reflexivity; exfalso; lra.
Qed.

(** C8.  For every pickup point the selected hospital is one of the
    list and no listed hospital is nearer by haversine distance; and at
    a pickup point that is the position of a listed hospital, that
    hospital is selected and its distance is zero. *)
Theorem closest_hospital_is_haversine_argmin :
  (forall (to : LatLng) (h : Hospital),
      In h HOSPITALS ->
      In (closestHospital to) HOSPITALS /\
      haversineKm (position (closestHospital to)) to <= haversineKm (position h) to) /\
  (forall h : Hospital,
      In h HOSPITALS ->
      closestHospital (position h) = h /\
      haversineKm (position h) (position h) = 0).
Proof.
  split.
  - intros to h Hin.
    destruct (closestHospital_cases to) as (Hmem & HD & HS & HSh).
    split; [exact Hmem|].
    unfold HOSPITALS in Hin. simpl in Hin.
    destruct Hin as [<- | [<- | [<- | []]]]; assumption.
  - apply coincident_selected.
Qed.

Lemma closest_hospital_witness :
  In Sahyadri HOSPITALS /\
  closestHospital (position Sahyadri) = Sahyadri /\
  haversineKm (position Sahyadri) (position Sahyadri) = 0.
Proof.
  assert (H : In Sahyadri HOSPITALS) by (right; left; reflexivity).
  split; [exact H|].
  exact (proj2 closest_hospital_is_haversine_argmin Sahyadri H).
Defined.

End HospitalProps.

(** ** The comparators and the colours of the cards *)
Module ComparatorProps.
Import Queue Colours.
Local Open Scope Z_scope.

Lemma orElse_opp (x y : Z) : orElse (- x) (- y) = - orElse x y.
Proof.
  unfold orElse. destruct (Z.eqb_spec x 0), (Z.eqb_spec (- x) 0); lia.
Qed.

Lemma keyed_antisym (cmp : Patient -> Patient -> Z) (t : Patient -> Z) :
  (forall a b, cmp a b = orElse (t a - t b) (secondsOrZero a - secondsOrZero b)) ->
  forall a b, cmp a b = - cmp b a.
Proof.
  intros Hkey a b. rewrite !Hkey, <- orElse_opp. f_equal; lia.
Qed.

(** X1.  Each queue comparator is a consistent comparator, as
    [Array.prototype.sort] requires: swapping the arguments negates the
    result, a record compares equal to itself, and "not after" is
    transitive. *)
Theorem comparators_are_consistent :
  forall a b c : Patient,
    (compare a b = - compare b a /\ compare a a = 0 /\
     (compare a b <= 0 -> compare b c <= 0 -> compare a c <= 0)) /\
    (compareMap a b = - compareMap b a /\ compareMap a a = 0 /\
     (compareMap a b <= 0 -> compareMap b c <= 0 -> compareMap a c <= 0)) /\
    (compareMci a b = - compareMci b a /\ compareMci a a = 0 /\
     (compareMci a b <= 0 -> compareMci b c <= 0 -> compareMci a c <= 0)).
Proof.
  intros a b c.
  assert (H : forall cmp t,
             (forall a b, cmp a b = orElse (t a - t b) (secondsOrZero a - secondsOrZero b)) ->
             cmp a b = - cmp b a /\ cmp a a = 0 /\
             (cmp a b <= 0 -> cmp b c <= 0 -> cmp a c <= 0)).
  { intros cmp t Hkey. split; [apply (keyed_antisym cmp t Hkey)|]. split.
    - pose proof (keyed_antisym cmp t Hkey a a). lia.
    - rewrite !(QueueProps.keyed_le cmp t Hkey). apply QueueProps.not_after_trans. }
  split; [|split].
  - apply (H compare tier QueueProps.compare_key).
  - apply (H compareMap tier QueueProps.compareMap_key).
  - apply (H compareMci getTier QueueProps.compareMci_key).
Qed.

Lemma comparators_witness :
  let a := {| docId := "a"; status := "waiting"; triage := Some "RED"; acuity := None;
              timestamp := None; patientLat := None; patientLng := None |} in
  let b := {| docId := "b"; status := "waiting"; triage := Some "RED"; acuity := None;
              timestamp := Some {| seconds := 7; nanoseconds := 0 |};
              patientLat := None; patientLng := None |} in
  let c := {| docId := "c"; status := "waiting"; triage := Some "BLACK"; acuity := None;
              timestamp := None; patientLat := None; patientLng := None |} in
  compare a b <= 0 /\ compare b c <= 0 /\ compare a c <= 0.
Proof.
  intros a b c.
  assert (Hab : compare a b <= 0) by (vm_compute; discriminate).
  assert (Hbc : compare b c <= 0) by (vm_compute; discriminate).
  split; [exact Hab|]. split; [exact Hbc|].
  exact (proj2 (proj2 (proj1 (comparators_are_consistent a b c))) Hab Hbc).
Defined.

(** X2.  The colours of a card follow the tier by which it is sorted:
    red border and badge for tier 1, yellow for 2, green for 3 and
    slate otherwise; in the list variant BLACK (tier 4) has gray-900
    and only tier 5 is slate. *)
Theorem card_colours_follow_tier :
  forall p : Patient,
    getBorderColor p =
      (if tier p =? 1 then "border-red-500" else if tier p =? 2 then "border-yellow-500"
       else if tier p =? 3 then "border-green-500" else "border-slate-500") /\
    getBadgeColor p =
      (if tier p =? 1 then "bg-red-500 text-white"
       else if tier p =? 2 then "bg-yellow-500 text-black"
       else if tier p =? 3 then "bg-green-500 text-black" else "bg-slate-500 text-white") /\
    getBorderColorMci p =
      (if getTier p =? 1 then "border-red-500" else if getTier p =? 2 then "border-yellow-500"
       else if getTier p =? 3 then "border-green-500"
       else if getTier p =? 4 then "border-gray-900" else "border-slate-500") /\
    getBadgeColorMci p =
      (if getTier p =? 1 then "bg-red-500 text-white"
       else if getTier p =? 2 then "bg-yellow-500 text-white"
       else if getTier p =? 3 then "bg-green-500 text-white"
       else if getTier p =? 4 then "bg-gray-900 text-slate-300" else "bg-slate-500 text-white").
Proof.
  intros p.
  unfold getBorderColor, getBadgeColor, getBorderColorMci, getBadgeColorMci, tier, getTier.
  destruct (eqLit (triage p) "RED" || eqLit (acuity p) "Critical")%bool;
  destruct (eqLit (triage p) "YELLOW" || eqLit (acuity p) "Urgent")%bool;
  destruct (eqLit (triage p) "GREEN" || eqLit (acuity p) "Routine")%bool;
  destruct (eqLit (triage p) "BLACK"); repeat split; reflexivity.
Qed.

End ComparatorProps.

(** ** The dispatch PIN pad *)
Module DispatchLoginProps.
Import DispatchLogin.

Lemma digit_key_length (k : string) : isDigitKey k = true -> String.length k = 1%nat.
Proof.
  unfold isDigitKey. cbn [existsb]. rewrite !orb_true_iff, !String.eqb_eq.
  intuition (subst; reflexivity || discriminate).
Qed.

Lemma length_app (s t : string) : String.length (s ++ t) = (String.length s + String.length t)%nat.
Proof. induction s as [|c s IH]; simpl; [reflexivity | rewrite IH; reflexivity]. Qed.

Lemma dropLast_app (s : string) (c : ascii) : dropLast (s ++ String c "") = s.
Proof.
  induction s as [|d s IH]; [reflexivity|].
  change (dropLast (String d (s ++ String c "")) = String d s).
  destruct (s ++ String c "") as [|e r] eqn:Heq.
  - destruct s; discriminate Heq.
  - change (String d (dropLast (String e r)) = String d s). rewrite IH. reflexivity.
Qed.

Lemma dropLast_length (s : string) : String.length (dropLast s) = Nat.pred (String.length s).
Proof.
  induction s as [|c s IH]; [reflexivity|].
  destruct s as [|d s]; [reflexivity|].
  change (dropLast (String c (String d s))) with (String c (dropLast (String d s))).
  cbn [String.length]. rewrite IH. reflexivity.
Qed.

Lemma pinEffect_pin st : pin (pinEffect st) = pin st.
Proof.
  unfold pinEffect. destruct (String.length (pin st) =? 4)%nat; [|reflexivity].
  destruct (pin st =? "1111"); [reflexivity|]. destruct (pin st =? "2222"); reflexivity.
Qed.

Lemma setPin_pin v st : pin (setPin v st) = v.
Proof.
  unfold setPin. destruct (String.eqb_spec v (pin st)) as [-> | _]; [reflexivity|].
  apply pinEffect_pin.
Qed.

Lemma pinEffect_routed st : routed st (pinEffect st).
Proof.
  unfold routed, pinEffect. destruct (String.length (pin st) =? 4)%nat; [|auto].
  destruct (String.eqb_spec (pin st) "1111"); [cbn; auto|].
  destruct (String.eqb_spec (pin st) "2222"); cbn; auto.
Qed.

Lemma setPin_routed v st : routed st (setPin v st).
Proof.
  unfold setPin. destruct (v =? pin st); [left; reflexivity|].
  apply (pinEffect_routed {| pin := v; isShaking := isShaking st; route := route st;
                             errors := errors st; timers := timers st |}).
Qed.

Lemma step_routed e st st' : step e st = Some st' -> routed st st'.
Proof.
  destruct e; cbn [step].
  - destruct (isDigitKey digit); [|discriminate]. injection 1 as <-.
    unfold handleKeyPress. destruct (String.length (pin st) <? 4)%nat;
      [apply setPin_routed | left; reflexivity].
  - injection 1 as <-. apply setPin_routed.
  - injection 1 as <-. unfold timerFires. destruct (timers st); [left; reflexivity|].
    apply (setPin_routed "" {| pin := pin st; isShaking := false; route := route st;
                               errors := errors st; timers := n |}).
Qed.

Lemma step_length e st st' :
  step e st = Some st' -> (String.length (pin st) <= 4)%nat ->
  (String.length (pin st') <= 4)%nat.
Proof.
  destruct e; cbn [step].
  - destruct (isDigitKey digit) eqn:Hk; [|discriminate]. injection 1 as <-.
    unfold handleKeyPress. destruct (Nat.ltb_spec (String.length (pin st)) 4); [|auto].
    intros _. rewrite setPin_pin, length_app, (digit_key_length _ Hk). lia.
  - injection 1 as <-. intros H. unfold handleDelete.
    rewrite setPin_pin, dropLast_length. lia.
  - injection 1 as <-. intros H. unfold timerFires. destruct (timers st); [exact H|].
    rewrite setPin_pin. cbn. lia.
Qed.

(** X3.  On the PIN pad the PIN never grows beyond four digits; the
    only places [navigate] is ever sent are /paramedic, when the PIN
    has just become 1111, and /driver, when it has just become 2222;
    and the delete key undoes a digit key. *)
Theorem pin_pad_is_bounded_and_routes_two_pins :
  (forall (events : list Event) (st : State),
      runEvents events initial = Some st ->
      (String.length (pin st) <= 4)%nat /\
      (route st = None \/ route st = Some "/paramedic" \/ route st = Some "/driver")) /\
  (forall (e : Event) (st st' : State),
      step e st = Some st' ->
      route st' = route st \/
      (pin st' = "1111" /\ route st' = Some "/paramedic") \/
      (pin st' = "2222" /\ route st' = Some "/driver")) /\
  (forall (k : string) (st : State),
      isDigitKey k = true -> (String.length (pin st) < 4)%nat ->
      pin (handleDelete (handleKeyPress k st)) = pin st).
Proof.
  split; [|split].
  - assert (H : forall events st0 st,
               (String.length (pin st0) <= 4)%nat ->
               (route st0 = None \/ route st0 = Some "/paramedic" \/ route st0 = Some "/driver") ->
               runEvents events st0 = Some st ->
               (String.length (pin st) <= 4)%nat /\
               (route st = None \/ route st = Some "/paramedic" \/ route st = Some "/driver")).
    { induction events as [|e rest IH]; intros st0 st Hlen Hroute Hrun; cbn in Hrun.
      - injection Hrun as <-. auto.
      - destruct (step e st0) as [st1|] eqn:Hstep; [|discriminate].
        apply (IH st1 st); [eapply step_length; eassumption | | exact Hrun].
        destruct (step_routed e st0 st1 Hstep) as [-> | [[_ ->] | [_ ->]]]; auto. }
    intros events st. apply H; cbn; auto. 
  - apply step_routed.
  - intros k st Hk Hlen. unfold handleDelete. rewrite setPin_pin.
    unfold handleKeyPress. apply Nat.ltb_lt in Hlen. rewrite Hlen. rewrite setPin_pin.
    pose proof (digit_key_length k Hk) as Hl.
    destruct k as [|c [|d k]]; try discriminate Hl. apply dropLast_app.
Qed.

Lemma pin_pad_witness :
  match runEvents [Key "2"; Key "2"; Key "3"; Delete; Key "2"; Key "2"] initial with
  | Some st =>
      ((String.length (pin st) <= 4)%nat /\
       (route st = None \/ route st = Some "/paramedic" \/ route st = Some "/driver")) /\
      route st = Some "/driver"
  | None => False
  end.
Proof.
  destruct (runEvents [Key "2"; Key "2"; Key "3"; Delete; Key "2"; Key "2"] initial)
    as [st|] eqn:Hrun.
  - split; [exact (proj1 pin_pad_is_bounded_and_routes_two_pins _ st Hrun)|].
    vm_compute in Hrun. injection Hrun as <-. reflexivity.
  - vm_compute in Hrun. discriminate Hrun.
Defined.

Example wrong_pin_is_cleared :
  option_map (fun st => (pin st, route st, errors st))
    (runEvents [Key "1"; Key "2"; Key "3"; Key "4"; Key "5"; Timer] initial)
  = Some ("", None, 1%nat).
Proof. reflexivity. Qed.

End DispatchLoginProps.

(** ** The canvas of a mass-casualty capture *)
Module CaptureProps.
Import Capture.
Local Open Scope Z_scope.

(** [Math.round] of a quotient of integers, in integer arithmetic. *)
Lemma mathRound_quotient (a b : Z) :
  0 < b -> DriverPage.mathRound (inject_Z a / inject_Z b)%Q = (2 * a + b) / (2 * b).
Proof.
  intros Hb. unfold DriverPage.mathRound.
  destruct b as [|p|p]; try lia.
  unfold Qdiv, Qinv, Qmult, Qplus, Qfloor, inject_Z. cbn [Qnum Qden].
  f_equal; lia.
Qed.

(** X4.  The canvas of a mass-casualty capture is never wider than
    600 pixels and never larger than the video; a video of at most 600
    pixels keeps its size, and a wider one is scaled to width 600 with
    the height that is proportional up to rounding. *)
Theorem canvas_is_at_most_600_wide_and_proportional :
  forall width height : Z,
    0 < width -> 0 <= height ->
    let (w, h) := canvasSize width height in
    w <= 600 /\ w <= width /\ 0 <= h <= height /\
    (width <= 600 -> w = width /\ h = height) /\
    (600 < width -> w = 600 /\ Z.abs (2 * (h * width - height * 600)) <= width).
Proof.
  intros width height Hw Hh. unfold canvasSize, maxWidth.
  destruct (Z.ltb_spec 600 width) as [Hlt | Hle].
  - rewrite (mathRound_quotient _ _ Hw).
    set (h := (2 * (height * 600) + width) / (2 * width)).
    assert (Hdiv : 2 * width * h <= 2 * (height * 600) + width < 2 * width * (h + 1)).
    { pose proof (Z.mul_div_le (2 * (height * 600) + width) (2 * width) ltac:(lia)).
      pose proof (Z.mul_succ_div_gt (2 * (height * 600) + width) (2 * width) ltac:(lia)).
      fold h in H, H0. lia. }
    assert (0 <= h) by (apply Z.div_pos; lia).
    repeat split; try lia; try nia.
  - repeat split; lia.
Qed.

Lemma canvas_witness :
  canvasSize 1280 720 = (600, 338) /\
  let (w, h) := canvasSize 1280 720 in
  w <= 600 /\ w <= 1280 /\ 0 <= h <= 720 /\
  (1280 <= 600 -> w = 1280 /\ h = 720) /\
  (600 < 1280 -> w = 600 /\ Z.abs (2 * (h * 1280 - 720 * 600)) <= 1280).
Proof.
  split; [reflexivity|].
  apply (canvas_is_at_most_600_wide_and_proportional 1280 720); lia.
Defined.

End CaptureProps.

(** ** The great-circle distance *)
Module HaversineProps.
Import Hospitals.
Local Open Scope R_scope.

Lemma hav_sym (a b : LatLng) : hav a b = hav b a.
Proof.
  unfold hav.
  replace ((lat b - lat a) * PI / 180 / 2) with (- ((lat a - lat b) * PI / 180 / 2)) by lra.
  replace ((lng b - lng a) * PI / 180 / 2) with (- ((lng a - lng b) * PI / 180 / 2)) by lra.
  rewrite !sin_neg. ring.
Qed.

Lemma atan2_quadrant (y x : R) : 0 <= y -> 0 <= x -> atan2 y x <= PI / 2.
Proof.
  intros Hy Hx. unfold atan2. pose proof PI_RGT_0.
  destruct (Rlt_dec 0 x) as [Hpos | _].
  - left. apply atan_bound.
  - destruct (Rlt_dec x 0); [lra|].
    destruct (Rlt_dec 0 y); [lra|].
    destruct (Rlt_dec y 0); lra.
Qed.

(** X5.  The great-circle distance is symmetric, zero from a point to
    itself, and lies between 0 and half the circumference of the
    sphere of radius 6371 km. *)
Theorem haversine_is_symmetric_and_bounded :
  forall a b : LatLng,
    haversineKm a b = haversineKm b a /\
    haversineKm a a = 0 /\
    0 <= haversineKm a b <= 6371 * PI.
Proof.
  intros a b. split; [|split; [|split]].
  - rewrite !HospitalProps.haversineKm_hav, (hav_sym a b). reflexivity.
  - apply HospitalProps.haversineKm_same.
  - apply HospitalProps.haversineKm_nonneg.
  - rewrite HospitalProps.haversineKm_hav.
    pose proof (atan2_quadrant (R_sqrt.sqrt (hav a b)) (R_sqrt.sqrt (1 - hav a b))
                  (R_sqrt.sqrt_pos _) (R_sqrt.sqrt_pos _)).
    lra.
Qed.

End HaversineProps.

(** ** The size test of the compression loop *)
Module SizeLimitProps.
Import Compressor.
Local Open Scope Z_scope.

Lemma estimate_limit (dataURL : string) :
  estimate dataURL <= MAX_SIZE <-> Z.of_nat (String.length dataURL) <= 136533.
Proof.
  unfold estimate, MAX_SIZE.
  split; intros H.
  - assert (Z.of_nat (String.length dataURL) * 3 + 2 < 4 * (100 * 1024 + 1)).
    { pose proof (Z.mul_succ_div_gt (Z.of_nat (String.length dataURL) * 3 + 2) 4 ltac:(lia)).
      lia. }
    lia.
  - assert ((Z.of_nat (String.length dataURL) * 3 + 2) / 4 < 100 * 1024 + 1)
      by (apply Z.div_lt_upper_bound; lia).
    lia.
Qed.

(** X6.  The size test of the loop is a test on the length of the data
    URL: the estimate is within the limit exactly when the URL has at
    most 136533 characters.  So a URL that short is returned at the
    first quality, 0.9, and a canvas without pixels yields the URL
    [data:,] with an estimate of 5 bytes.  The recursion is at most 17
    calls deep. *)
Theorem size_limit_is_a_length_limit :
  (forall dataURL : string,
      estimate dataURL <= MAX_SIZE <-> Z.of_nat (String.length dataURL) <= 136533) /\
  (forall canvas : Canvas,
      Z.of_nat (String.length (toDataURL canvas 0.9%float)) <= 136533 ->
      compressToUnder100KB canvas
      = Some (toDataURL canvas 0.9%float, estimate (toDataURL canvas 0.9%float))) /\
  (forall canvas : Canvas,
      width canvas = 0%N \/ height canvas = 0%N ->
      compressToUnder100KB canvas = Some ("data:,", 5)) /\
  (forall (canvas : Canvas) (fuel : nat),
      (17 <= fuel)%nat -> compress fuel canvas 0.9%float = compressToUnder100KB canvas).
Proof.
  split; [exact estimate_limit|]. split; [|split].
  - intros canvas Hlen. apply estimate_limit, Z.leb_le in Hlen.
    unfold compressToUnder100KB. cbn [compress]. unfold stop. rewrite Hlen. reflexivity.
  - intros canvas Hempty. unfold compressToUnder100KB. cbn [compress].
    assert (Hurl : toDataURL canvas 0.9%float = "data:,").
    { unfold toDataURL. destruct Hempty as [-> | ->]; [reflexivity|].
      rewrite orb_true_r. reflexivity. }
    rewrite Hurl. reflexivity.
  - intros canvas fuel Hfuel. unfold compressToUnder100KB.
    destruct (CompressorProps.compress_from canvas 16 0 fuel) as (k & _ & Hrun & Hs & Hb);
      [lia | lia |].
    destruct (CompressorProps.compress_from canvas 16 0 32) as (k' & _ & Hrun' & Hs' & Hb');
      [lia | lia |].
    change (qualityAt 0) with 0.9%float in Hrun, Hrun'.
    (* both runs stop at the first quality that stops *)
    assert (k = k').
    { destruct (Nat.lt_trichotomy k k') as [Hlt | [Heq | Hgt]]; [|exact Heq|].
      - rewrite (Hb' k) in Hs by lia. discriminate.
      - rewrite (Hb k') in Hs' by lia. discriminate. }
    subst k. congruence.
Qed.

Lemma size_limit_witness :
  let canvas := {| width := 0; height := 480; jpegBase64 := fun _ => "" |} in
  (width canvas = 0%N \/ height canvas = 0%N) /\
  compressToUnder100KB canvas = Some ("data:,", 5).
Proof.
  cbv zeta. split; [left; reflexivity|].
  apply (proj1 (proj2 (proj2 size_limit_is_a_length_limit))). left. reflexivity.
Defined.

End SizeLimitProps.

(** ** The queue as a view of the store *)
Module QueueViewProps.
Import Firestore Queue Dispatch.

Lemma snapshot_In (c : Collection) (p : Patient) :
  In p (snapshot c) <->
  exists id d, c !! id = Some d /\ isWaiting d = true /\ p = toPatient (id, d).
Proof.
  unfold snapshot. split.
  - intros Hin. eapply Permutation_in in Hin; [|apply QueueProps.sort_perm].
    apply List.in_map_iff in Hin as ([k d] & <- & Hin).
    apply List.filter_In in Hin as [Hin Hw].
    apply list_elem_of_In, elem_of_map_to_list in Hin. exists k, d. auto.
  - intros (id & d & Hc & Hw & ->).
    eapply Permutation_in; [symmetry; apply QueueProps.sort_perm|].
    apply List.in_map. apply List.filter_In. split; [|exact Hw].
    apply list_elem_of_In, elem_of_map_to_list. exact Hc.
Qed.

(** The card found for an id is decided by the record stored under it. *)
Lemma findPatient_lookup (id : string) (c : Collection) :
  findPatient id c =
  match c !! id with
  | Some d => if isWaiting d then Some (toPatient (id, d)) else None
  | None => None
  end.
Proof.
  unfold findPatient.
  destruct (List.find _ (snapshot c)) as [q|] eqn:Hfind.
  - apply List.find_some in Hfind as [Hin Hid]. apply String.eqb_eq in Hid.
    apply snapshot_In in Hin as (id' & d & Hc & Hw & ->). cbn in Hid. subst id'.
    rewrite Hc, Hw. reflexivity.
  - destruct (c !! id) as [d|] eqn:Hc; [|reflexivity].
    destruct (isWaiting d) eqn:Hw; [|reflexivity].
    pose proof (List.find_none _ _ Hfind (toPatient (id, d))) as Hnone.
    cbn in Hnone. rewrite String.eqb_refl in Hnone.
    discriminate Hnone. apply snapshot_In. eauto.
Qed.

Lemma filter_fst_NoDup {A B} (f : A * B -> bool) (l : list (A * B)) :
  List.NoDup (List.map fst l) -> List.NoDup (List.map fst (List.filter f l)).
Proof.
  induction l as [|x l IH]; cbn; [auto|].
  intros Hnd. inversion Hnd as [|? ? Hnotin Hrest]; subst.
  destruct (f x); [|auto]. cbn. constructor; [|auto].
  intros Hin. apply Hnotin. apply List.in_map_iff in Hin as (y & Hy & Hin).
  apply List.filter_In in Hin as [Hin _]. apply List.in_map_iff. eauto.
Qed.

(** X7.  The queue a driver sees holds exactly the stored records whose
    status is "waiting", each once, in the order of the comparator; and
    the card opened for an id is that of the record stored under it, if
    it is waiting. *)
Theorem queue_shows_exactly_the_waiting_records :
  forall c : Collection,
    (forall p, In p (snapshot c) <->
               exists id d, c !! id = Some d /\ str d "status" = Some "waiting" /\
                            p = toPatient (id, d)) /\
    List.NoDup (List.map docId (snapshot c)) /\
    StronglySorted (not_after tier) (snapshot c) /\
    (forall id, findPatient id c =
                match c !! id with
                | Some d => if isWaiting d then Some (toPatient (id, d)) else None
                | None => None
                end).
Proof.
  intros c. split; [|split; [|split]].
  - intros p. rewrite snapshot_In. 
    assert (Hw : forall d, isWaiting d = true <-> str d "status" = Some "waiting").
    { intros d. unfold isWaiting. destruct (str d "status") as [s|].
      - rewrite String.eqb_eq. split; congruence.
      - split; discriminate. }
    split; intros (id & d & Hc & H & Hp); exists id, d; rewrite Hw in *; auto.
  - unfold snapshot.
    eapply Permutation_NoDup.
    { apply Permutation_map. symmetry. apply QueueProps.sort_perm. }
    rewrite List.map_map. cbn.
    change (List.map (fun x : string * Doc => fst x) (queryWaiting c))
      with (List.map fst (queryWaiting c)).
    apply filter_fst_NoDup. apply NoDup_ListNoDup, NoDup_fst_map_to_list.
  - apply (QueueProps.sort_sorted compare tier QueueProps.compare_key).
  - intros id. apply findPatient_lookup.
Qed.

End QueueViewProps.

(** ** The status handlers *)
Module HandlerProps.
Import Eff Firestore DriverPage Dispatch Handlers.

Lemma statusHandlers_shape m s :
  In (m, s) statusHandlers -> exists f, status_handler m s f.
Proof.
  intros Hin. cbn in Hin.
  destruct Hin as [H | [H | [H | [H | [H | [H | []]]]]]]; injection H as <- <-; eexists.
  - apply DispatchProps.accept_shape.
  - apply DispatchProps.loaded_shape.
  - apply DispatchProps.delivered_shape.
  - apply DispatchProps.list_loaded_shape.
  - apply DispatchProps.map_loaded_shape.
  - apply DispatchProps.complete_shape.
Qed.

Lemma statusHandlers_leave_waiting m s :
  In (m, s) statusHandlers -> s <> "waiting".
Proof.
  intros Hin. cbn in Hin.
  destruct Hin as [H | [H | [H | [H | [H | [H | []]]]]]]; injection H as <- <-; discriminate.
Qed.

(** X8.  When a status handler's write goes through, the selected
    record carries the handler's status, no longer appears in any
    driver's queue, and no other record is touched. *)
Theorem written_status_takes_record_off_the_queue :
  forall (m : bool -> M World unit) (s : string) (w : World) (q : Queue.Patient),
    In (m, s) statusHandlers ->
    selectedPatient (page w) = Some q ->
    is_Some (store w !! Queue.docId q) ->
    statusOf (store (snd (m true w))) (Queue.docId q) = Some s /\
    findPatient (Queue.docId q) (store (snd (m true w))) = None /\
    (forall id, id <> Queue.docId q -> store (snd (m true w)) !! id = store w !! id).
Proof.
  intros m s w q Hin Hsel [d Hd].
  destruct (statusHandlers_shape m s Hin) as [f Hm].
  specialize (Hm true w q Hsel). unfold updateDoc in Hm. rewrite Hd in Hm.
  rewrite Hm. cbn [store withPage withStore].
  assert (Hs : statusOf (<[Queue.docId q := {[ "status" := VStr s ]} ∪ d]> (store w))
                 (Queue.docId q) = Some s).
  { unfold statusOf, str. rewrite lookup_insert_eq.
    rewrite (lookup_union_Some_l _ d "status" (VStr s)); [reflexivity|].
    apply lookup_singleton_eq. }
  split; [exact Hs|]. split.
  - rewrite QueueViewProps.findPatient_lookup.
    unfold statusOf in Hs. rewrite lookup_insert_eq in Hs |- *.
    unfold isWaiting. rewrite Hs.
    destruct (String.eqb_spec s "waiting") as [Heq | _]; [|reflexivity].
    destruct (statusHandlers_leave_waiting m s Hin Heq).
  - intros id Hne. apply lookup_insert_ne. congruence.
Qed.

Lemma written_status_witness :
  match findPatient "d1" (store Scenario.carded) with
  | Some _ =>
      statusOf (store (snd (handleAcceptDispatch true Scenario.carded))) "d1"
      = Some "driver_en_route" /\
      findPatient "d1" (store (snd (handleAcceptDispatch true Scenario.carded))) = None
  | None => False
  end.
Proof.
  replace (findPatient "d1" (store Scenario.carded))
    with (Some (toPatient ("d1", Scenario.filed))) by (symmetry; vm_compute; reflexivity).
  destruct (written_status_takes_record_off_the_queue
              handleAcceptDispatch "driver_en_route" Scenario.carded
              (toPatient ("d1", Scenario.filed)))
    as (H1 & H2 & _).
  - left. reflexivity.
  - reflexivity.
  - exists Scenario.filed. apply lookup_singleton_eq.
  - split; assumption.
Defined.

(** The common shape of the six handlers: one write for the selected
    record, then [after]; an exception is logged. *)
Lemma write_then_quiet (fields : Doc) (after : M World unit) (report : string -> string)
    (ok : bool) (w : World) :
  (forall w', fst (after w') = Normal tt) ->
  let m : M World unit :=
    bind get (fun w0 =>
      match selectedPatient (page w0) with
      | None => ret tt
      | Some p =>
          tryCatch (bind (awaitUpdateDoc (Queue.docId p) fields ok) (fun _ => after))
                   (fun e => consoleError (report e))
      end) in
  fst (m w) = Normal tt /\
  (selectedPatient (page w) = None -> snd (m w) = w) /\
  (forall q, selectedPatient (page w) = Some q ->
             updateDoc (Queue.docId q) fields ok (store w) = None ->
             exists line,
               snd (m w)
               = {| store := store w; page := page w; replies := replies w;
                    requests := requests w; console := (console w ++ [line])%list |}).
Proof.
  intros Hafter. cbv zeta.
  cbv [bind get tryCatch ret awaitUpdateDoc consoleError modify].
  destruct (selectedPatient (page w)) as [p|].
  - destruct (updateDoc (Queue.docId p) fields ok (store w)) as [c|] eqn:Hup.
    + specialize (Hafter {| store := c; page := page w; replies := replies w;
                            requests := requests w; console := console w |}).
      destruct (after _) as [[[]|e] w1]; [|discriminate Hafter].
      split; [reflexivity|]. split; [discriminate|].
      intros q Hq Hnone. injection Hq as <-. congruence.
    + split; [reflexivity|]. split; [discriminate|].
      intros q _ _. eexists. reflexivity.
  - split; [reflexivity|]. split; [reflexivity | discriminate].
Qed.

(** X9.  No status handler ever throws.  Without a selected record it
    does nothing at all; when the write is rejected it leaves the
    store, the page and the routing traffic alone and logs one line on
    the console. *)
Theorem status_handlers_fail_quietly :
  forall (m : bool -> M World unit) (s : string) (ok : bool) (w : World),
    In (m, s) statusHandlers ->
    fst (m ok w) = Normal tt /\
    (selectedPatient (page w) = None -> snd (m ok w) = w) /\
    (forall q, selectedPatient (page w) = Some q ->
               updateDoc (Queue.docId q) {[ "status" := VStr s ]} ok (store w) = None ->
               exists line,
                 snd (m ok w)
                 = {| store := store w; page := page w; replies := replies w;
                      requests := requests w; console := (console w ++ [line])%list |}).
Proof.
  intros m s ok w Hin. cbn in Hin.
  destruct Hin as [H | [H | [H | [H | [H | [H | []]]]]]]; injection H as <- <-.
  - exact (write_then_quiet _ (bind (setNavigationPhase 1) (fun _ => setIsNavigating true))
             (fun e => e) ok w (fun _ => eq_refl)).
  - exact (write_then_quiet _ (setNavigationPhase 2) (fun e => e) ok w (fun _ => eq_refl)).
  - exact (write_then_quiet _
             (bind (setNavigationPhase 1) (fun _ =>
              bind (setIsNavigating false) (fun _ =>
              bind (setSelectedPatient None) (fun _ =>
              bind (setDriverLocation None) (fun _ => setDispatchETA None)))))
             (fun e => e) ok w (fun _ => eq_refl)).
  - exact (write_then_quiet _ (setSelectedPatient None)
             (fun _ => "Error updating patient status:") ok w (fun _ => eq_refl)).
  - exact (write_then_quiet _ (setIsNavigating true)
             (fun _ => "Error updating status:") ok w (fun _ => eq_refl)).
  - exact (write_then_quiet _
             (bind (setSelectedPatient None) (fun _ =>
              bind (setIsNavigating false) (fun _ => setDriverLocation None)))
             (fun _ => "Error completing transport:") ok w (fun _ => eq_refl)).
Qed.

Lemma status_handlers_witness :
  let w := {| store := ∅; page := page Scenario.carded; replies := []; requests := [];
              console := [] |} in
  exists line,
    snd (handleAcceptDispatch true w)
    = {| store := ∅; page := page Scenario.carded; replies := []; requests := [];
         console := [line] |}.
Proof.
  cbv zeta.
  exact (proj2 (proj2 (status_handlers_fail_quietly handleAcceptDispatch "driver_en_route" true
                         {| store := ∅; page := page Scenario.carded; replies := [];
                            requests := []; console := [] |}
                         (or_introl eq_refl)))
               (toPatient ("d1", Scenario.filed)) eq_refl eq_refl).
Defined.

End HandlerProps.

(** ** Tracking, and a whole run of the main page *)
Module DriverFlowProps.
Import Eff Firestore DriverPage Dispatch Advisory.

Lemma updateDoc_other id fields ok c c' :
  updateDoc id fields ok c = Some c' -> forall id', id' <> id -> c' !! id' = c !! id'.
Proof.
  unfold updateDoc. destruct ok; [|discriminate].
  destruct (c !! id) as [d|]; [|discriminate].
  intros H id' Hne. injection H as <-. apply lookup_insert_ne. congruence.
Qed.

(** X10.  A tick of the tracking interval never throws.  Without a
    position it only logs an error.  With one it moves the driver on
    the page, and, when the write goes through, stores the latitude and
    longitude in the tracked record, leaving its other fields and every
    other record as they were. *)
Theorem tracking_tick_writes_only_the_position :
  forall (q : Queue.Patient) (reported : option LatLng) (ok : bool) (w : World),
    fst (trackingTick q reported ok w) = Normal tt /\
    match reported with
    | None =>
        snd (trackingTick q reported ok w)
        = {| store := store w; page := page w; replies := replies w;
             requests := requests w; console := (console w ++ ["Tracking error"])%list |}
    | Some driver =>
        driverLocation (page (snd (trackingTick q reported ok w))) = Some driver /\
        (forall id, id <> Queue.docId q ->
                    store (snd (trackingTick q reported ok w)) !! id = store w !! id) /\
        match store w !! Queue.docId q with
        | Some d =>
            if ok then
              exists d',
                store (snd (trackingTick q reported ok w)) !! Queue.docId q = Some d' /\
                d' !! "driverLat" = Some (VNum (lat driver)) /\
                d' !! "driverLng" = Some (VNum (lng driver)) /\
                (forall field, field <> "driverLat" -> field <> "driverLng" ->
                               d' !! field = d !! field)
            else store (snd (trackingTick q reported ok w)) = store w
        | None => store (snd (trackingTick q reported ok w)) = store w
        end
    end.
Proof.
  intros q reported ok w.
  cbv [trackingTick getPosition bind tryCatch ret throw setDriverLocation setPage modify
       awaitUpdateDoc consoleError].
  destruct reported as [driver|]; [|split; reflexivity].
  cbn [fst snd store page].
  destruct (updateDoc (Queue.docId q) _ ok (store w)) as [c|] eqn:Hup;
    cbn [fst snd store page driverLocation];
    (split; [reflexivity|]); (split; [reflexivity|]).
  - split; [apply (updateDoc_other _ _ _ _ _ Hup)|].
    unfold updateDoc in Hup. destruct ok; [|discriminate Hup].
    destruct (store w !! Queue.docId q) as [d|]; [|discriminate Hup].
    injection Hup as <-. eexists. split; [apply lookup_insert_eq|].
    split; [|split].
    + apply lookup_union_Some_l, lookup_insert_eq.
    + apply lookup_union_Some_l. rewrite lookup_insert_ne by discriminate.
      apply lookup_singleton_eq.
    + intros field H1 H2. apply lookup_union_r.
      rewrite lookup_insert_ne by congruence. apply lookup_singleton_ne. congruence.
  - split; [reflexivity|]. unfold updateDoc in Hup.
    destruct ok; destruct (store w !! Queue.docId q); try reflexivity.
    discriminate Hup.
Qed.




End DriverFlowProps.

(** ** Without a route *)
Module OfflineProps.
Import Eff Firestore DriverPage Dispatch Advisory Offline.

Lemma etaEffect_replies reported c1 c2 w :
  replies (snd (etaEffect reported c1 c2 w)) = replies w \/
  replies (snd (etaEffect reported c1 c2 w)) = tl (replies w).
Proof.
  cbv [etaEffect calculateETA fetchOsrmRoute fetch json getRoutes first getPosition
       bind tryCatch tryFinally get ret throw consoleError modify
       setDriverLocation setDispatchETA setIsCalculatingETA setPage].
  destruct (selectedPatient (page w)) as [selected|]; [|left; reflexivity].
  destruct (isNavigating (page w)); [left; reflexivity|]. cbn.
  destruct (driverLocation (page w)) as [p|]; [|destruct reported as [p|]; [destruct c1|]];
    cbn;
    try (destruct (replies w) as [|[| |[|[[|r rest]|]]] more]); destruct c2; cbn; auto.
Qed.

Lemma routeless_head incoming : routeless incoming -> routeOf incoming = None.
Proof.
  intros H. destruct incoming as [|r rest]; [reflexivity|].
  inversion H as [|? ? Hr _]; subst. destruct r as [| |[|[[|x l]|]]]; try reflexivity.
  discriminate Hr.
Qed.

Lemma routeless_tl incoming : routeless incoming -> routeless (tl incoming).
Proof. intros H. destruct incoming; [exact H|]. inversion H; assumption. Qed.

Lemma step_offline c a w w' :
  offline c w -> step Main a w = Some w' -> offline c w'.
Proof.
  intros (Hr & Hnav & Heta & Hst) Hstep. destruct a; cbn [step] in Hstep.
  - rewrite Hnav in Hstep. destruct (findPatient id (store w)); [|discriminate Hstep].
    injection Hstep as <-. repeat split; assumption.
  - rewrite Hnav in Hstep. destruct (selectedPatient (page w)); [|discriminate Hstep].
    injection Hstep as <-. repeat split; assumption.
  - injection Hstep as <-.
    destruct (DispatchProps.etaEffect_core reported cancelledAtPosition cancelled w)
      as (Hs & _ & Hn & _).
    destruct (EtaProps.etaEffect_outcome reported cancelledAtPosition cancelled w)
      as [_ Hout].
    split; [|split; [|split]].
    + destruct (etaEffect_replies reported cancelledAtPosition cancelled w) as [-> | ->];
        [exact Hr | apply routeless_tl, Hr].
    + rewrite Hn. exact Hnav.
    + destruct (selectedPatient (page w)); [|rewrite Hout; exact Heta].
      rewrite Hnav in Hout. rewrite Hout, (routeless_head _ Hr).
      destruct (originOf w reported); reflexivity.
    + rewrite Hs. exact Hst.
  - rewrite Hnav in Hstep. unfold hasEta in Hstep. rewrite Heta, andb_false_r in Hstep.
    discriminate Hstep.
  - rewrite Hnav in Hstep. discriminate Hstep.
  - rewrite Hnav in Hstep. discriminate Hstep.
  - rewrite Hnav in Hstep. discriminate Hstep.
  - destruct (addDoc newId now true data (store w)) as [c'|] eqn:Hadd; [|discriminate Hstep].
    injection Hstep as <-. repeat split; try assumption.
    cbn [store withStore]. intros id d Hc. unfold addDoc in Hadd.
    destruct (store w !! newId) eqn:Hnew; [discriminate Hadd|]. injection Hadd as <-.
    rewrite lookup_insert_ne; [apply Hst, Hc|].
    intros ->. rewrite (Hst _ _ Hc) in Hnew. discriminate Hnew.
Qed.

(** X12.  As long as the routing service returns no route, a driver on
    the main page can never accept a dispatch: the page never gets an
    estimate, never starts navigating, and every record that was in the
    store stays exactly as it was. *)
Theorem no_route_no_acceptance :
  forall (c : Collection) (routing : list Reply) (actions : list Action) (w : World),
    Forall (fun r => routeOf [r] = None) routing ->
    runActions Main actions (fresh c routing) = Some w ->
    dispatchETA (page w) = None /\
    isNavigating (page w) = false /\
    (forall ok, step Main (Accept ok) w = None) /\
    (forall id d, c !! id = Some d -> store w !! id = Some d).
Proof.
  intros c routing actions w Hroute Hrun.
  assert (Hoff : offline c w).
  { assert (H0 : offline c (fresh c routing)) by (repeat split; auto).
    revert Hrun H0. generalize (fresh c routing).
    induction actions as [|a rest IH]; intros w0 Hrun H0; cbn [runActions] in Hrun.
    - injection Hrun as <-. exact H0.
    - destruct (step Main a w0) as [w1|] eqn:Hstep; [|discriminate Hrun].
      apply (IH w1 Hrun). eapply step_offline; eassumption. }
  destruct Hoff as (Hr & Hnav & Heta & Hst).
  split; [exact Heta|]. split; [exact Hnav|]. split; [|exact Hst].
  intros ok. cbn [step]. rewrite Hnav. unfold hasEta. rewrite Heta, andb_false_r.
  reflexivity.
Qed.

Lemma no_route_witness :
  match runActions Main Scenario.openCard
          (fresh Scenario.queue [NetworkFailure; Parsed (BodyObject None)]) with
  | Some w => step Main (Accept true) w = None /\ store w !! "d1" = Some Scenario.filed
  | None => False
  end.
Proof.
  destruct (runActions Main Scenario.openCard
              (fresh Scenario.queue [NetworkFailure; Parsed (BodyObject None)]))
    as [w|] eqn:Hrun.
  - destruct (no_route_no_acceptance Scenario.queue
                [NetworkFailure; Parsed (BodyObject None)] Scenario.openCard w)
      as (_ & _ & Hacc & Hst).
    + repeat constructor.
    + exact Hrun.
    + split; [apply Hacc | apply Hst, lookup_singleton_eq].
  - vm_compute in Hrun. discriminate Hrun.
Defined.

End OfflineProps.

(** ** A whole dialogue of the caller page *)
Module DialogueProps.
Import Firestore Triage CallerPage Dialogue.

Lemma send_ignored (w : World) (m : Message) :
  nonblank m = false \/ is_Some (triageResult w) -> send w m = w.
Proof.
  unfold send, nonblank.
  cbv [handleSendMessage Eff.bind Eff.get Eff.ret].
  intros [-> | [r ->]]; [reflexivity|].
  destruct (JS.truthy (JS.trim (text m))); reflexivity.
Qed.

Lemma send_cases (w : World) (m : Message) :
  triageResult w = None -> nonblank m = true ->
  match evaluateStep (currentStep w) (JS.trim (text m)) with
  | Some r =>
      triageResult (send w m) = Some r /\ currentStep (send w m) = currentStep w /\
      (store (send w m) = store w \/
       addDoc (newId m) (now m) (ok m) (record ("CAL-" ++ hhmmss m) r) (store w)
       = Some (store (send w m)))
  | None =>
      triageResult (send w m) = None /\ currentStep (send w m) = S (currentStep w) /\
      store (send w m) = store w
  end.
Proof.
  unfold send, nonblank. intros Hnone Htext.
  cbv [handleSendMessage Eff.bind Eff.get Eff.tryCatch Eff.ret
       setTriageResult setCurrentStep Eff.modify awaitAddDoc consoleError].
  rewrite Htext, Hnone.
  destruct (evaluateStep (currentStep w) (JS.trim (text m))) as [r|];
    cbn [fst snd store currentStep triageResult].
  - destruct (addDoc (newId m) (now m) (ok m) _ (store w)) as [c|] eqn:Hadd;
      cbn [fst snd store currentStep triageResult]; auto.
  - auto.
Qed.

Lemma last_question_decides (answer : string) : evaluateStep 4 answer <> None.
Proof. unfold evaluateStep. destruct (yes answer); discriminate. Qed.

(** The state of the dialogue after some messages, over a store that
    was [c] when the page was opened. *)
Lemma dialogue_invariant (c : Collection) (messages : list Message) :
  let w := dialogue messages (initial c) in
  (currentStep w <= 4)%nat /\
  (triageResult w = None ->
   store w = c /\ currentStep w = length (List.filter nonblank messages)) /\
  (store w = c \/
   exists m r, In m messages /\ triageResult w = Some r /\
               addDoc (newId m) (now m) (ok m) (record ("CAL-" ++ hhmmss m) r) c
               = Some (store w)).
Proof.
  cbv zeta. unfold dialogue.
  induction messages as [|m messages IH] using rev_ind.
  - cbn. split; [lia|]. split; auto.
  - rewrite fold_left_app. cbn [fold_left].
    set (w := fold_left send messages (initial c)) in *.
    destruct IH as (Hstep & Hopen & Hstore).
    rewrite List.filter_app, List.length_app. cbn [List.filter].
    destruct (triageResult w) as [r|] eqn:Hres.
    + rewrite (send_ignored w m) by (right; rewrite Hres; eauto).
      split; [exact Hstep|]. split; [rewrite Hres; discriminate|].
      destruct Hstore as [H | (m0 & r0 & Hin & Hr & Hadd)]; [left; exact H|].
      right. exists m0, r0. rewrite Hres. split; [apply List.in_or_app; auto|]. auto.
    + destruct (Hopen eq_refl) as [Hc Hcount].
      destruct (nonblank m) eqn:Hnb.
      * pose proof (send_cases w m Hres Hnb) as Hsend.
        destruct (evaluateStep (currentStep w) (JS.trim (text m))) as [r|] eqn:Hev.
        -- destruct Hsend as (Hr & Hs & Hst).
           split; [rewrite Hs; exact Hstep|]. split; [rewrite Hr; discriminate|].
           destruct Hst as [Hst | Hadd]; [left; congruence|].
           right. exists m, r. split; [apply List.in_or_app; right; left; reflexivity|].
           split; [exact Hr|]. rewrite <- Hc. exact Hadd.
        -- destruct Hsend as (Hr & Hs & Hst).
           assert (currentStep w <> 4%nat).
           { intros H4. rewrite H4 in Hev. exact (last_question_decides _ Hev). }
           split; [rewrite Hs; lia|]. split.
           ++ intros _. split; [congruence|]. rewrite Hs, Hcount. cbn. lia.
           ++ left. congruence.
      * rewrite (send_ignored w m) by (left; exact Hnb).
        split; [exact Hstep|]. split.
        -- intros _. split; [exact Hc|]. rewrite Hcount. cbn. lia.
        -- left. exact Hc.
Qed.

(** X13.  In a whole dialogue of the caller page the step never goes
    beyond the last question, a result is there after five messages
    that are not blank at the latest, and the store is the one the page
    started with until one record, carrying the result, has been added;
    a blank message, and any message after the result, changes
    nothing. *)
Theorem dialogue_settles_within_five_answers_and_files_once :
  forall (c : Collection) (messages : list Message),
    (currentStep (dialogue messages (initial c)) <= 4)%nat /\
    (5 <= length (List.filter nonblank messages) ->
     is_Some (triageResult (dialogue messages (initial c))))%nat /\
    (triageResult (dialogue messages (initial c)) = None ->
     store (dialogue messages (initial c)) = c) /\
    (store (dialogue messages (initial c)) = c \/
     exists m r, In m messages /\ triageResult (dialogue messages (initial c)) = Some r /\
                 addDoc (newId m) (now m) (ok m) (record ("CAL-" ++ hhmmss m) r) c
                 = Some (store (dialogue messages (initial c)))) /\
    (forall (w : World) (m : Message),
        nonblank m = false \/ is_Some (triageResult w) -> send w m = w).
Proof.
  intros c messages.
  destruct (dialogue_invariant c messages) as (Hstep & Hopen & Hstore).
  split; [exact Hstep|]. split; [|split; [|split]].
  - intros Hfive. destruct (triageResult (dialogue messages (initial c))) eqn:Hres; [eauto|].
    destruct (Hopen eq_refl) as [_ Hcount]. lia.
  - intros Hnone. apply Hopen, Hnone.
  - exact Hstore.
  - exact send_ignored.
Qed.

Lemma dialogue_witness :
  let answer t := {| text := t; hhmmss := "101500"; newId := "d7"; now := 42; ok := true |} in
  let messages := List.map answer ["yes"; "  "; "yes"; "no"; "no"; "no"; "later"] in
  (5 <= length (List.filter nonblank messages))%nat /\
  is_Some (triageResult (dialogue messages (initial ∅))).
Proof.
  intros answer messages. split; [vm_compute; lia|].
  apply (proj1 (proj2 (dialogue_settles_within_five_answers_and_files_once ∅ messages))).
  vm_compute. lia.
Defined.

End DialogueProps.

(** ** Intake records in the queue; the paramedic page *)
Module IntakeQueueProps.
Import Firestore Queue.
Local Open Scope Z_scope.

Lemma evaluateStep_endStates step answer result :
  Triage.evaluateStep step answer = Some result ->
  exists category, result = Triage.endStates category.
Proof.
  unfold Triage.evaluateStep.
  destruct step as [|[|[|[|[|n]]]]]; destruct (Triage.yes answer);
    intros H; try discriminate H; injection H as <-;
    first [ exists Triage.RED; reflexivity | exists Triage.YELLOW; reflexivity
          | exists Triage.GREEN; reflexivity ].
Qed.

(** X14.  How the queue reads the records the intake pages file.  A
    caller's record sorts at the rank of its triage result; a
    mass-casualty record at the tier of its colour, BLACK being tier 4
    in the list variant and unrecognised (tier 5) on the main page; a
    standard report carries neither field and sorts last.  All of them
    sort by the server's clock, and all are routed to the demo pickup
    point. *)
Theorem intake_records_as_the_queue_reads_them :
  forall (docId : string) (now : Z),
    (forall step answer result pId,
        Triage.evaluateStep step answer = Some result ->
        let p := toPatient (docId, resolve now <$> CallerPage.record pId result) in
        tier p = Triage.priority_rank result /\ getTier p = Triage.priority_rank result /\
        secondsOrZero p = now /\ DriverPage.patientPosOf p = DriverPage.DEMO_PICKUP) /\
    (forall mciId color base64Image,
        let p := toPatient (docId, resolve now <$>
                                     ParamedicPage.mciRecord mciId color base64Image) in
        getTier p = match color with
                    | ParamedicPage.RED => 1 | ParamedicPage.YELLOW => 2
                    | ParamedicPage.GREEN => 3 | ParamedicPage.BLACK => 4
                    end /\
        tier p = match color with
                 | ParamedicPage.RED => 1 | ParamedicPage.YELLOW => 2
                 | ParamedicPage.GREEN => 3 | ParamedicPage.BLACK => 5
                 end /\
        secondsOrZero p = now /\ DriverPage.patientPosOf p = DriverPage.DEMO_PICKUP) /\
    (forall v,
        let p := toPatient (docId, resolve now <$> ParamedicPage.standardRecord v) in
        tier p = 5 /\ getTier p = 5 /\
        secondsOrZero p = now /\ DriverPage.patientPosOf p = DriverPage.DEMO_PICKUP).
Proof.
  intros docId now. split; [|split].
  - intros step answer result pId Hev.
    destruct (evaluateStep_endStates _ _ _ Hev) as [category ->].
    destruct category; repeat split; reflexivity.
  - intros mciId color img. destruct color; repeat split; reflexivity.
  - intros v. repeat split; reflexivity.
Qed.

Lemma intake_queue_witness :
  Triage.evaluateStep 3 "Yes, heavily" = Some (Triage.endStates Triage.YELLOW) /\
  tier (toPatient ("d7", resolve 42 <$>
                           CallerPage.record "CAL-101500" (Triage.endStates Triage.YELLOW)))
  = 2.
Proof.
  split; [reflexivity|].
  exact (proj1 (proj1 (intake_records_as_the_queue_reads_them "d7" 42)
                  3%nat "Yes, heavily" (Triage.endStates Triage.YELLOW) "CAL-101500"
                  eq_refl)).
Defined.

End IntakeQueueProps.

Module ParamedicProps.
Import Eff Firestore ParamedicPage.
Local Open Scope Z_scope.

Lemma parsed_is_filled (s : string) (z : Z) : parseInt s = Some z -> JS.truthy s = true.
Proof. destruct s; [discriminate | reflexivity]. Qed.

Lemma validate_outcomes w :
  (exists msg, validateNormalForm w = (Normal false, toasted (ToastError msg) w)) \/
  validateNormalForm w = (Throw "ReferenceError: bp is not defined", w).
Proof.
  unfold validateNormalForm.
  cbv [bind get ret toast modify unbound throw toasted snd].
  destruct (negb (JS.truthy (hr (vitals w))) || isNaN (parseInt (hr (vitals w)))
            || lt (parseInt (hr (vitals w))) 1 || gt (parseInt (hr (vitals w))) 300);
    [left; eauto|].
  destruct (negb (JS.truthy (spo2 (vitals w))) || isNaN (parseInt (spo2 (vitals w)))
            || lt (parseInt (spo2 (vitals w))) 0 || gt (parseInt (spo2 (vitals w))) 100);
    [left; eauto|].
  destruct (JS.truthy (bp (vitals w))); cbn; [right; reflexivity | left; eauto].
Qed.

(** X15.  A standard report with a heart rate within 1 to 300, an SpO2
    within 0 to 100 and any blood pressure that is not empty ends in a
    ReferenceError, with nothing shown and nothing changed.  For every
    form the submission either shows one error toast or throws; it
    never starts uploading, never shows the loading or the success
    toast, never clears the form and never writes. *)
Theorem filled_in_report_ends_in_reference_error :
  forall (w : World) (newId : string) (now : Z) (ok : bool),
    (forall heartRate saturation,
        parseInt (hr (vitals w)) = Some heartRate -> 1 <= heartRate <= 300 ->
        parseInt (spo2 (vitals w)) = Some saturation -> 0 <= saturation <= 100 ->
        bp (vitals w) <> "" ->
        submitStandardReport newId now ok w
        = (Throw "ReferenceError: bp is not defined", w)) /\
    ((exists msg, submitStandardReport newId now ok w
                  = (Normal tt, toasted (ToastError msg) w)) \/
     submitStandardReport newId now ok w = (Throw "ReferenceError: bp is not defined", w)).
Proof.
  intros w newId now ok. split.
  - intros heartRate saturation Hhr Hhr_range Hspo2 Hspo2_range Hbp.
    unfold submitStandardReport, validateNormalForm.
    cbv [bind get ret toast modify unbound throw].
    rewrite Hhr, Hspo2, (parsed_is_filled _ _ Hhr), (parsed_is_filled _ _ Hspo2).
    cbn [negb isNaN lt gt orb].
    replace (heartRate <? 1) with false by (symmetry; apply Z.ltb_ge; lia).
    replace (300 <? heartRate) with false by (symmetry; apply Z.ltb_ge; lia).
    replace (saturation <? 0) with false by (symmetry; apply Z.ltb_ge; lia).
    replace (100 <? saturation) with false by (symmetry; apply Z.ltb_ge; lia).
    destruct (bp (vitals w)); [contradiction Hbp; reflexivity|]. reflexivity.
  - unfold submitStandardReport, bind.
    destruct (validate_outcomes w) as [[msg ->] | ->]; [left; exists msg|right]; reflexivity.
Qed.

Lemma filled_in_report_witness :
  let w := {| store := Scenario.queue;
              vitals := {| name := "A. Rao"; hr := "85"; bp := "120/80"; spo2 := "97";
                           notes := "" |};
              selectedColor := None; isUploading := false; toasts := []; console := [] |} in
  submitStandardReport "n1" 5 true w = (Throw "ReferenceError: bp is not defined", w).
Proof.
  intros w.
  apply (proj1 (filled_in_report_ends_in_reference_error w "n1" 5 true) 85 97);
    [reflexivity | lia | reflexivity | lia | discriminate].
Defined.

(** X16.  [captureAndSubmit] never throws.  Without a colour or a video
    element it does nothing.  Otherwise it always ends with the camera
    released and the upload flag cleared; the record is added and the
    success toast shown when the canvas gave a context and the write
    went through, and else the store is as before, the error is logged
    and the error toast shown. *)
Theorem capture_always_releases_camera :
  forall (video context : bool) (base64Image timeStr newId : string) (now : Z) (ok : bool)
         (w : World),
    fst (captureAndSubmit video context base64Image timeStr newId now ok w) = Normal tt /\
    match selectedColor w, video with
    | Some color, true =>
        let mciId := "MCI-" ++ colorName color ++ "-" ++ timeStr in
        let loading := ToastLoading ("Processing " ++ colorName color ++ " triage...") in
        match (if context
               then addDoc newId now ok (mciRecord mciId color base64Image) (store w)
               else None) with
        | Some c =>
            snd (captureAndSubmit video context base64Image timeStr newId now ok w)
            = {| store := c; vitals := vitals w; selectedColor := None; isUploading := false;
                 toasts := (toasts w ++ [loading; ToastSuccess ("Patient Logged: " ++ mciId)])%list;
                 console := console w |}
        | None =>
            snd (captureAndSubmit video context base64Image timeStr newId now ok w)
            = {| store := store w; vitals := vitals w; selectedColor := None;
                 isUploading := false;
                 toasts := (toasts w ++ [loading; ToastError "Failed to log patient"])%list;
                 console := (console w ++ ["Error logging patient:"])%list |}
        end
    | _, _ => snd (captureAndSubmit video context base64Image timeStr newId now ok w) = w
    end.
Proof.
  intros video context img timeStr newId now ok w.
  cbv [captureAndSubmit bind get tryCatch tryFinally ret throw setIsUploading toast
       stopCamera awaitAddDoc consoleError modify].
  destruct (selectedColor w) as [color|]; [|split; reflexivity].
  destruct video; [|split; reflexivity].
  destruct context; cbn [fst snd store vitals selectedColor isUploading toasts console].
  - destruct (addDoc newId now ok _ (store w)) as [c|];
      cbn [fst snd store vitals selectedColor isUploading toasts console];
      (split; [reflexivity|]); rewrite <- List.app_assoc; reflexivity.
  - split; [reflexivity|]. rewrite <- List.app_assoc. reflexivity.
Qed.

End ParamedicProps.

(** ** The spinner of the ETA effect *)
Module SpinnerProps.
Import Eff DriverPage Advisory.

(** X17.  When the ETA effect runs for a selected patient, the spinner
    is cleared at the end unless the run was cancelled; a position
    reported by the browser is kept as the driver's location unless the
    run was cancelled by then; and when there is no position at all the
    error is logged and nothing is asked of the routing service. *)
Theorem eta_effect_clears_spinner_unless_cancelled :
  forall (reported : option LatLng) (cancelledAtPosition cancelled : bool) (w : World)
         (selected : Queue.Patient),
    selectedPatient (page w) = Some selected ->
    isNavigating (page w) = false ->
    isCalculatingETA (page (snd (etaEffect reported cancelledAtPosition cancelled w)))
    = cancelled /\
    driverLocation (page (snd (etaEffect reported cancelledAtPosition cancelled w)))
    = match driverLocation (page w), reported with
      | Some p, _ => Some p
      | None, Some p => if cancelledAtPosition then None else Some p
      | None, None => None
      end /\
    (originOf w reported = None ->
     requests (snd (etaEffect reported cancelledAtPosition cancelled w)) = requests w /\
     console (snd (etaEffect reported cancelledAtPosition cancelled w))
     = (console w ++ ["ETA Calculation Error"])%list).
Proof.
  intros reported c1 c2 w selected Hsel Hnav.
  cbv [etaEffect calculateETA fetchOsrmRoute fetch json getRoutes first getPosition
       bind tryCatch tryFinally get ret throw consoleError modify
       setDriverLocation setDispatchETA setIsCalculatingETA setPage originOf].
  rewrite Hsel, Hnav. cbn.
  destruct (driverLocation (page w)) as [p|]; [|destruct reported as [p|]; [destruct c1|]];
    cbn;
    try (destruct (replies w) as [|[| |[|[[|r rest]|]]] more]); destruct c2; cbn;
    repeat split; try discriminate.
Qed.

Lemma eta_effect_witness :
  let w := {| store := Scenario.queue;
              page := {| selectedPatient := Some (Firestore.toPatient ("d1", Scenario.filed));
                         isNavigating := false; navigationPhase := 1;
                         driverLocation := None; dispatchETA := None;
                         isCalculatingETA := false |};
              replies := Scenario.routing; requests := []; console := [] |} in
  isCalculatingETA (page (snd (etaEffect None false false w))) = false /\
  console (snd (etaEffect None false false w)) = ["ETA Calculation Error"].
Proof.
  intros w.
  destruct (eta_effect_clears_spinner_unless_cancelled None false false w
              (Firestore.toPatient ("d1", Scenario.filed)) eq_refl eq_refl)
    as (Hspin & _ & Hnone).
  split; [exact Hspin|]. apply (Hnone eq_refl).
Defined.

End SpinnerProps.
